(** * OpenMax API server: the agent execution path

    A shallow embedding of the server module that holds [safeJsonParse],
    [OPENCLAW_SKILLS], [quoteForShell], [resolveSshConfig], [buildSshArgs],
    [runLocally], [runOverSsh], [shouldRunOpenClawLocally], [ollamaChat] and
    the two request handlers [POST /api/brain/agent] and
    [POST /api/openclaw/skills/:skillId].

    JavaScript strings are modelled by Rocq strings holding the UTF-8 form of
    the text. Every character the program searches for, splits at or joins
    with is ASCII, so searching, slicing and concatenating bytes yields the
    same text as the code-unit operations of the source. *)

From Stdlib Require Import String Ascii List ZArith NArith Bool Lia DecimalString.
Import ListNotations.
Local Open Scope string_scope.
Local Open Scope Z_scope.
Set Warnings "-register-all".

(** ** Strings *)

(** The double-quote character, and [dq] which writes it for every [^] of a
    literal (no literal of the source contains [^]). *)
Definition DQ : ascii := Ascii.ascii_of_nat 34.

Fixpoint dq (s : string) : string :=
  match s with
  | EmptyString => EmptyString
  | String c r => String (if Ascii.eqb c "^" then DQ else c) (dq r)
  end.

Definition NL : string := String (Ascii.ascii_of_nat 10) EmptyString.

Fixpoint join (sep : string) (l : list string) : string :=
  match l with
  | [] => ""
  | [x] => x
  | x :: r => x ++ sep ++ join sep r
  end.

Definition len (s : string) : Z := Z.of_nat (String.length s).

(** [text.indexOf(c)] for a one-character needle: the first position, or -1. *)
Fixpoint indexOf (c : ascii) (s : string) : Z :=
  match s with
  | EmptyString => -1
  | String a r =>
      if Ascii.eqb a c then 0
      else let i := indexOf c r in if i <? 0 then -1 else i + 1
  end.

(** [text.lastIndexOf(c)]: the last position, or -1. *)
Fixpoint lastIndexOf (c : ascii) (s : string) : Z :=
  match s with
  | EmptyString => -1
  | String a r =>
      let i := lastIndexOf c r in
      if 0 <=? i then i + 1 else if Ascii.eqb a c then 0 else -1
  end.

(** [text.slice(from, to)], negative positions counting from the end. *)
Definition slice (s : string) (from to : Z) : string :=
  let n := len s in
  let clamp i := if i <? 0 then Z.max (n + i) 0 else Z.min i n in
  let a := clamp from in
  let b := clamp to in
  String.substring (Z.to_nat a) (Z.to_nat (Z.max (b - a) 0)) s.

(** [haystack.includes(needle)]. *)
Fixpoint includes (needle s : string) : bool :=
  String.prefix needle s ||
  match s with
  | EmptyString => false
  | String _ r => includes needle r
  end.

(** [s.replace(/c/g, by)] for a one-character pattern and a replacement
    text without [$]. *)
Fixpoint replace_all (c : ascii) (by_ : string) (s : string) : string :=
  match s with
  | EmptyString => EmptyString
  | String a r =>
      if Ascii.eqb a c then by_ ++ replace_all c by_ r
      else String a (replace_all c by_ r)
  end.

(** ** JavaScript values *)

(** The values that reach this module from JSON texts and from the runtime.
    A number is kept as the decimal [m * 10^e] of its literal. *)
Inductive JsVal : Type :=
| JUndefined
| JNull
| JBool (b : bool)
| JNum (m e : Z)
| JStr (s : string)
| JArr (items : list JsVal)
| JObj (members : list (string * JsVal)).

(** A thrown [Error]: its [name] and [message]. *)
Record JsError : Type := mkError { err_name : string; err_message : string }.

Definition TypeError (msg : string) : JsError := mkError "TypeError" msg.
Definition SyntaxError (msg : string) : JsError := mkError "SyntaxError" msg.

(** A computation either returns or throws. *)
Inductive Outcome (A : Type) : Type :=
| Ret (a : A)
| Throw (e : JsError).
Arguments Ret {A} a.
Arguments Throw {A} e.

(** The binary64 value nearest to [m * 10^e] is zero exactly when
    [|m| * 10^e <= 2^-1075] (half of the least positive value, ties to even). *)
Definition num_is_zero (m e : Z) : bool :=
  (m =? 0) || ((e <? 0) && (Z.abs m * 2 ^ 1075 <=? 10 ^ (- e))).

(** ToBoolean. *)
Definition truthy (v : JsVal) : bool :=
  match v with
  | JUndefined | JNull => false
  | JBool b => b
  | JNum m e => negb (num_is_zero m e)
  | JStr s => negb (String.eqb s "")
  | JArr _ | JObj _ => true
  end.

(** [a || b] and [a && b] on values; the right operand of the source is
    always free of effects, so it is passed evaluated. *)
Definition js_or (a b : JsVal) : JsVal := if truthy a then a else b.
Definition js_and (a b : JsVal) : JsVal := if truthy a then b else a.

(** [a === 'literal']. *)
Definition is_str (v : JsVal) (lit : string) : bool :=
  match v with
  | JStr s => String.eqb s lit
  | _ => false
  end.

(** Own property of an object built by [JSON.parse] or a literal: the last
    member of that name wins. *)
Fixpoint own_property (members : list (string * JsVal)) (name : string)
  : option JsVal :=
  match members with
  | [] => None
  | (k, v) :: r =>
      match own_property r name with
      | Some w => Some w
      | None => if String.eqb k name then Some v else None
      end
  end.

(** [v.name] for the fixed names this module reads from request bodies,
    decisions, rows and model replies ([sessionId], [model], [options],
    [host], [user], [password], [action], [text], [skillId], [id],
    [message], [content]): none of them is a property of a built-in
    prototype, so only own properties of objects answer; reading a property
    of [undefined] or [null] throws. *)
Definition get (v : JsVal) (name : string) : Outcome JsVal :=
  match v with
  | JUndefined =>
      Throw (TypeError ("Cannot read properties of undefined (reading '" ++ name ++ "')"))
  | JNull =>
      Throw (TypeError ("Cannot read properties of null (reading '" ++ name ++ "')"))
  | JObj members =>
      Ret (match own_property members name with Some w => w | None => JUndefined end)
  | _ => Ret JUndefined
  end.

(** [Number::toString] depends on binary64 rounding of the literal, which
    this development does not compute: the rendering of numbers is a
    parameter, and every statement below holds for each choice of it. *)
Class NumberFormat : Type := number_to_string : Z -> Z -> string.

(** ToString, as a template literal [`${v}`], [String(v)] and a computed
    property key apply it. An array joins its elements with commas, [null]
    and [undefined] elements giving the empty text. An object answers
    [[object Object]] through [Object.prototype.toString], unless it has an
    own member [toString]: a member read from JSON is not callable, and
    neither own nor inherited [valueOf] yields a primitive, so the conversion
    throws. *)
Fixpoint ToString `{NumberFormat} (v : JsVal) : Outcome string :=
  match v with
  | JUndefined => Ret "undefined"
  | JNull => Ret "null"
  | JBool true => Ret "true"
  | JBool false => Ret "false"
  | JNum m e => Ret (number_to_string m e)
  | JStr s => Ret s
  | JArr items =>
      let fix each (l : list JsVal) : Outcome (list string) :=
        match l with
        | [] => Ret []
        | x :: r =>
            let sx := match x with
                      | JUndefined | JNull => Ret ""
                      | _ => ToString x
                      end in
            match sx with
            | Throw err => Throw err
            | Ret t =>
                match each r with
                | Throw err => Throw err
                | Ret ts => Ret (t :: ts)
                end
            end
        end in
      match each items with
      | Throw err => Throw err
      | Ret ts => Ret (join "," ts)
      end
  | JObj members =>
      match own_property members "toString" with
      | Some _ => Throw (TypeError "Cannot convert object to primitive value")
      | None => Ret "[object Object]"
      end
  end.

(** ** [JSON.parse] *)

Module Json.

Inductive Token : Type :=
| TLBrace | TRBrace | TLBracket | TRBracket | TColon | TComma
| TString (s : string)
| TNumber (m e : Z)
| TTrue | TFalse | TNull.

(** A piece of a string literal: a character written as itself (or through a
    one-letter escape), or the code unit of a [\uXXXX] escape. *)
Inductive StrItem : Type :=
| Raw (c : ascii)
| Unit16 (u : Z).

Definition byte (z : Z) : ascii := Ascii.ascii_of_N (Z.to_N z).
Definition code (c : ascii) : Z := Z.of_N (Ascii.N_of_ascii c).

(** UTF-8 form of a code point (a lone surrogate is written the same way). *)
Definition utf8 (cp : Z) : string :=
  if cp <? 128 then String (byte cp) ""
  else if cp <? 2048 then
    String (byte (192 + cp / 64)) (String (byte (128 + cp mod 64)) "")
  else if cp <? 65536 then
    String (byte (224 + cp / 4096))
      (String (byte (128 + (cp / 64) mod 64)) (String (byte (128 + cp mod 64)) ""))
  else
    String (byte (240 + cp / 262144))
      (String (byte (128 + (cp / 4096) mod 64))
         (String (byte (128 + (cp / 64) mod 64)) (String (byte (128 + cp mod 64)) ""))).

Definition is_high (u : Z) : bool := (55296 <=? u) && (u <=? 56319).
Definition is_low (u : Z) : bool := (56320 <=? u) && (u <=? 57343).

(** The text of a string literal; a high surrogate escape directly followed
    by a low one is one code point. *)
Fixpoint decode (items : list StrItem) : string :=
  match items with
  | [] => ""
  | Raw c :: r => String c (decode r)
  | Unit16 u :: r =>
      match r with
      | Unit16 l :: r' =>
          if is_high u && is_low l
          then utf8 (65536 + (u - 55296) * 1024 + (l - 56320)) ++ decode r'
          else utf8 u ++ decode r
      | _ => utf8 u ++ decode r
      end
  end.

Definition digit (c : ascii) : option Z :=
  let n := code c in
  if (48 <=? n) && (n <=? 57) then Some (n - 48) else None.

Definition hex (c : ascii) : option Z :=
  let n := code c in
  if (48 <=? n) && (n <=? 57) then Some (n - 48)
  else if (97 <=? n) && (n <=? 102) then Some (n - 87)
  else if (65 <=? n) && (n <=? 70) then Some (n - 55)
  else None.

(** Leading digits of [s]: their value on top of [acc], how many, the rest. *)
Fixpoint digits (acc count : Z) (s : string) : Z * Z * string :=
  match s with
  | EmptyString => (acc, count, s)
  | String c r =>
      match digit c with
      | Some d => digits (acc * 10 + d) (count + 1) r
      | None => (acc, count, s)
      end
  end.

(** The number grammar: an optional minus sign; an integer part that is a
    single zero or starts with a non-zero digit; an optional fraction of a
    dot and at least one digit; an optional exponent of [e] or [E], an
    optional sign and at least one digit. The result is [m] and [e] with
    value [m * 10^e]. *)
Definition number (lexeme : string) : option (Z * Z) :=
  let '(sign, s1) :=
    match lexeme with
    | String "-" r => (-1, r)
    | _ => (1, lexeme)
    end in
  let '(ip, icount, s2) := digits 0 0 s1 in
  let leading_zero := match s1 with String "0" _ => true | _ => false end in
  if (icount =? 0) || (leading_zero && (1 <? icount)) then None
  else
    let frac :=
      match s2 with
      | String "." r =>
          let '(fp, fcount, s3) := digits 0 0 r in
          if fcount =? 0 then None else Some (fp, fcount, s3)
      | _ => Some (0, 0, s2)
      end in
    match frac with
    | None => None
    | Some (fp, fcount, s3) =>
        let mant := sign * (ip * 10 ^ fcount + fp) in
        match s3 with
        | EmptyString => Some (mant, - fcount)
        | String c r =>
            if Ascii.eqb c "e" || Ascii.eqb c "E" then
              let '(esign, s4) :=
                match r with
                | String "-" r' => (-1, r')
                | String "+" r' => (1, r')
                | _ => (1, r)
                end in
              let '(ev, ecount, s5) := digits 0 0 s4 in
              match s5 with
              | EmptyString =>
                  if ecount =? 0 then None else Some (mant, esign * ev - fcount)
              | _ => None
              end
            else None
        end
    end.

(** A maximal run of letters, digits, [+], [-] and [.] is one number or one
    of the three words. *)
Definition atom_char (c : ascii) : bool :=
  let n := code c in
  ((48 <=? n) && (n <=? 57)) || ((97 <=? n) && (n <=? 122))
  || ((65 <=? n) && (n <=? 90)) || (n =? 43) || (n =? 45) || (n =? 46).

Definition atom (lexeme : string) : option Token :=
  if String.eqb lexeme "true" then Some TTrue
  else if String.eqb lexeme "false" then Some TFalse
  else if String.eqb lexeme "null" then Some TNull
  else match number lexeme with
       | Some (m, e) => Some (TNumber m e)
       | None => None
       end.

Fixpoint rev_string (acc : string) (s : string) : string :=
  match s with
  | EmptyString => acc
  | String c r => rev_string (String c acc) r
  end.

Inductive LexState : Type :=
| LIdle
| LAtom (acc : string)
| LInStr (acc : list StrItem)
| LEsc (acc : list StrItem)
| LHex (acc : list StrItem) (value count : Z).

(** One character outside of any token. *)
Definition idle (c : ascii) (out : list Token) : option (LexState * list Token) :=
  let n := code c in
  if (n =? 32) || (n =? 9) || (n =? 10) || (n =? 13) then Some (LIdle, out)
  else if n =? 123 then Some (LIdle, TLBrace :: out)
  else if n =? 125 then Some (LIdle, TRBrace :: out)
  else if n =? 91 then Some (LIdle, TLBracket :: out)
  else if n =? 93 then Some (LIdle, TRBracket :: out)
  else if n =? 58 then Some (LIdle, TColon :: out)
  else if n =? 44 then Some (LIdle, TComma :: out)
  else if n =? 34 then Some (LInStr [], out)
  else if atom_char c then Some (LAtom (String c ""), out)
  else None.

Definition escape (c : ascii) : option ascii :=
  let n := code c in
  if (n =? 34) || (n =? 92) || (n =? 47) then Some c
  else if n =? 98 then Some (byte 8)
  else if n =? 102 then Some (byte 12)
  else if n =? 110 then Some (byte 10)
  else if n =? 114 then Some (byte 13)
  else if n =? 116 then Some (byte 9)
  else None.

(** The tokens of a text; [out] and the accumulators are kept reversed. *)
Fixpoint lex (st : LexState) (out : list Token) (s : string) : option (list Token) :=
  match s with
  | EmptyString =>
      match st with
      | LIdle => Some (rev out)
      | LAtom acc =>
          match atom (rev_string "" acc) with
          | Some t => Some (rev (t :: out))
          | None => None
          end
      | _ => None
      end
  | String c r =>
      match st with
      | LIdle =>
          match idle c out with
          | Some (st', out') => lex st' out' r
          | None => None
          end
      | LAtom acc =>
          if atom_char c then lex (LAtom (String c acc)) out r
          else
            match atom (rev_string "" acc) with
            | Some t =>
                match idle c (t :: out) with
                | Some (st', out') => lex st' out' r
                | None => None
                end
            | None => None
            end
      | LInStr acc =>
          let n := code c in
          if n =? 34 then lex LIdle (TString (decode (rev acc)) :: out) r
          else if n =? 92 then lex (LEsc acc) out r
          else if n <? 32 then None
          else lex (LInStr (Raw c :: acc)) out r
      | LEsc acc =>
          if code c =? 117 then lex (LHex acc 0 0) out r
          else
            match escape c with
            | Some x => lex (LInStr (Raw x :: acc)) out r
            | None => None
            end
      | LHex acc value count =>
          match hex c with
          | Some d =>
              if count =? 3 then lex (LInStr (Unit16 (value * 16 + d) :: acc)) out r
              else lex (LHex acc (value * 16 + d) (count + 1)) out r
          | None => None
          end
      end
  end.

(** An enclosing container that waits for the value being read. *)
Inductive Frame : Type :=
| FArr (items : list JsVal)
| FObj (members : list (string * JsVal)) (key : string).

Inductive Expect : Type :=
| XValue
| XArrFirst
| XArrAfter (items : list JsVal)
| XObjFirst
| XKey (members : list (string * JsVal))
| XColon (members : list (string * JsVal)) (key : string)
| XObjAfter (members : list (string * JsVal))
| XDone (v : JsVal).

(** A finished value goes to the container that waits for it. *)
Definition deliver (v : JsVal) (stack : list Frame) : Expect * list Frame :=
  match stack with
  | [] => (XDone v, [])
  | FArr items :: st => (XArrAfter (v :: items), st)
  | FObj members key :: st => (XObjAfter ((key, v) :: members), st)
  end.

Definition start_value (t : Token) (stack : list Frame)
  : option (Expect * list Frame) :=
  match t with
  | TString s => Some (deliver (JStr s) stack)
  | TNumber m e => Some (deliver (JNum m e) stack)
  | TTrue => Some (deliver (JBool true) stack)
  | TFalse => Some (deliver (JBool false) stack)
  | TNull => Some (deliver JNull stack)
  | TLBracket => Some (XArrFirst, stack)
  | TLBrace => Some (XObjFirst, stack)
  | _ => None
  end.

Definition step (x : Expect) (stack : list Frame) (t : Token)
  : option (Expect * list Frame) :=
  match x, t with
  | XValue, _ => start_value t stack
  | XArrFirst, TRBracket => Some (deliver (JArr []) stack)
  | XArrFirst, _ => start_value t (FArr [] :: stack)
  | XArrAfter items, TComma => Some (XValue, FArr items :: stack)
  | XArrAfter items, TRBracket => Some (deliver (JArr (rev items)) stack)
  | XObjFirst, TRBrace => Some (deliver (JObj []) stack)
  | XObjFirst, TString k => Some (XColon [] k, stack)
  | XKey members, TString k => Some (XColon members k, stack)
  | XColon members k, TColon => Some (XValue, FObj members k :: stack)
  | XObjAfter members, TComma => Some (XKey members, stack)
  | XObjAfter members, TRBrace => Some (deliver (JObj (rev members)) stack)
  | _, _ => None
  end.

Fixpoint run (x : Expect) (stack : list Frame) (ts : list Token) : option JsVal :=
  match ts with
  | [] => match x with XDone v => Some v | _ => None end
  | t :: r =>
      match step x stack t with
      | Some (x', stack') => run x' stack' r
      | None => None
      end
  end.

(** [JSON.parse(text)]: the value, or [None] where it throws a SyntaxError. *)
Definition parse (text : string) : option JsVal :=
  match lex LIdle [] text with
  | Some ts => run XValue [] ts
  | None => None
  end.

End Json.

(** ** Decision parsing *)

(** [safeJsonParse]: strict parse; on failure, parse of the slice from the
    first opening brace to the last closing brace; [null] otherwise. *)
Definition safeJsonParse (text : string) : JsVal :=
  match Json.parse text with
  | Some v => v
  | None =>
      let start := indexOf "{" text in
      let end_ := lastIndexOf "}" text in
      if (0 <=? start) && (start <? end_) then
        match Json.parse (slice text start (end_ + 1)) with
        | Some v => v
        | None => JNull
        end
      else JNull
  end.


(** ** The skill table *)

Record Skill : Type := mkSkill { title : string; command : string }.

(** A command body as the template literal writes it: a line break, the
    lines, a line break; [^] stands for the double quote. *)
Definition script (lines : list string) : string :=
  dq (NL ++ join NL lines ++ NL).

Definition health_check_command : string :=
  script [
    "set +e";
    "echo ^=== Orbit Doctor ===^";
    "if command -v orbit >/dev/null 2>&1; then";
    "  orbit doctor 2>&1";
    "else";
    "  echo ^orbit command not found^";
    "fi";
    "";
    "echo";
    "echo ^=== Gateway Port (18789) ===^";
    "if command -v ss >/dev/null 2>&1; then";
    "  ss -lntp | grep 18789 || echo ^port 18789 not currently listening^";
    "else";
    "  netstat -lntp 2>/dev/null | grep 18789 || true";
    "fi";
    "";
    "echo";
    "echo ^=== OpenVPN Status ===^";
    "if command -v systemctl >/dev/null 2>&1; then";
    "  systemctl is-active openvpn 2>/dev/null || systemctl is-active openvpn-client@client 2>/dev/null || echo ^openvpn service not active^";
    "else";
    "  echo ^systemctl not found^";
    "fi";
    "";
    "echo";
    "echo ^=== Repository Status ===^";
    "REPO=^^";
    "for p in /root/openclaw /opt/openclaw /home/openclaw/openclaw; do";
    "  if [ -d ^$p/.git^ ]; then";
    "    REPO=^$p^";
    "    break";
    "  fi";
    "done";
    "if [ -n ^$REPO^ ]; then";
    "  cd ^$REPO^ && git status -sb";
    "else";
    "  echo ^OpenClaw repository not found in expected paths^";
    "fi"
  ].

Definition quick_fix_command : string :=
  script [
    "set +e";
    "echo ^=== Orbit Auto Fix ===^";
    "if command -v orbit >/dev/null 2>&1; then";
    "  orbit doctor --fix 2>&1 || orbit doctor --fix --yes 2>&1 || true";
    "  orbit config set gateway.mode local 2>&1 || true";
    "  echo";
    "  orbit doctor 2>&1 || true";
    "else";
    "  echo ^orbit command not found^";
    "fi"
  ].

Definition vpn_status_command : string :=
  script [
    "set +e";
    "echo ^=== VPN Service ===^";
    "if command -v systemctl >/dev/null 2>&1; then";
    "  systemctl status openvpn --no-pager -l 2>&1 || systemctl status openvpn-client@client --no-pager -l 2>&1 || true";
    "else";
    "  echo ^systemctl not found^";
    "fi";
    "";
    "echo";
    "echo ^=== Routes ===^";
    "ip route 2>&1 || true";
    "";
    "echo";
    "echo ^=== DNS (/etc/resolv.conf) ===^";
    "cat /etc/resolv.conf 2>&1 || true"
  ].

Definition repo_sync_command : string :=
  script [
    "set +e";
    "echo ^=== Repository Sync ===^";
    "REPO=^^";
    "for p in /root/openclaw /opt/openclaw /home/openclaw/openclaw; do";
    "  if [ -d ^$p/.git^ ]; then";
    "    REPO=^$p^";
    "    break";
    "  fi";
    "done";
    "if [ -z ^$REPO^ ]; then";
    "  echo ^OpenClaw repository not found in expected paths^";
    "  exit 1";
    "fi";
    "";
    "cd ^$REPO^";
    "git fetch --all --prune 2>&1";
    "git pull --ff-only 2>&1 || git pull 2>&1";
    "echo";
    "git log --oneline -n 3 2>&1 || true"
  ].

Definition service_restart_command : string :=
  script [
    "set +e";
    "echo ^=== Restarting Orbit/OpenClaw Services ===^";
    "if command -v orbit >/dev/null 2>&1; then";
    "  orbit restart 2>&1 || true";
    "fi";
    "";
    "for svc in openclaw-gateway.service openclaw.service openclaw-gateway openclaw orbit-gateway; do";
    "  systemctl restart ^$svc^ 2>/dev/null && echo ^restarted: $svc^";
    "done";
    "";
    "echo";
    "echo ^=== Service Health ===^";
    "for svc in openclaw-gateway.service openclaw.service openclaw-gateway openclaw orbit-gateway; do";
    "  systemctl is-active ^$svc^ 2>/dev/null && echo ^$svc: active^";
    "done"
  ].

Definition OPENCLAW_SKILLS : list (string * Skill) :=
  [ ("health-check", mkSkill "System Health Check" health_check_command);
    ("quick-fix", mkSkill "Auto Fix Orbit" quick_fix_command);
    ("vpn-status", mkSkill "VPN Status" vpn_status_command);
    ("repo-sync", mkSkill "Sync GitHub Repo" repo_sync_command);
    ("service-restart", mkSkill "Restart Services" service_restart_command) ].

(** The table is an object literal, so a computed read [OPENCLAW_SKILLS[key]]
    that finds no own entry continues in [Object.prototype], whose members
    are functions (and, for [__proto__], the prototype object itself): all
    of them truthy, none with a [title] or a [command]. *)
Definition object_prototype_names : list string :=
  [ "constructor"; "__defineGetter__"; "__defineSetter__"; "hasOwnProperty";
    "__lookupGetter__"; "__lookupSetter__"; "isPrototypeOf";
    "propertyIsEnumerable"; "toString"; "valueOf"; "__proto__";
    "toLocaleString" ].

Fixpoint assoc {A : Type} (key : string) (l : list (string * A)) : option A :=
  match l with
  | [] => None
  | (k, a) :: r => if String.eqb k key then Some a else assoc key r
  end.

Definition mem (key : string) (l : list string) : bool :=
  existsb (String.eqb key) l.

(** What the handlers see of [skill = OPENCLAW_SKILLS[key]]: [None] when it
    is [undefined], otherwise the values of [skill.title] and
    [skill.command]. *)
Record SkillRef : Type := mkRef { ref_title : JsVal; ref_command : JsVal }.

Definition skills_get (key : string) : option SkillRef :=
  match assoc key OPENCLAW_SKILLS with
  | Some sk => Some (mkRef (JStr (title sk)) (JStr (command sk)))
  | None =>
      if mem key object_prototype_names
      then Some (mkRef JUndefined JUndefined)
      else None
  end.

(** ** Configuration *)

(** The constants computed when the module loads. *)
Record Config : Type := mkConfig {
  OPENMAX_OLLAMA_URL : string;
  OPENMAX_OLLAMA_MODEL : string;
  OPENMAX_OLLAMA_TIMEOUT_MS : option Z;
  OPENMAX_OPENCLAW_EXECUTION : string;
  OPENMAX_ALLOW_CLIENT_SSH_CONFIG : bool
}.

(** The variables of [process.env] read while a request is served. *)
Record ProcessEnv : Type := mkEnv {
  OPENMAX_VPS_HOST : option string;
  OPENMAX_VPS_USER : option string;
  OPENMAX_VPS_PASSWORD : option string;
  OPENMAX_ALLOW_KEY_AUTH : option string;
  OPENMAX_LOCAL_TIMEOUT_MS : option string;
  OPENMAX_SSH_TIMEOUT_MS : option string
}.

Definition env_value (v : option string) : JsVal :=
  match v with
  | Some s => JStr s
  | None => JUndefined
  end.

(** ** Exceptions without effects *)

Definition bindO {A B : Type} (m : Outcome A) (k : A -> Outcome B) : Outcome B :=
  match m with
  | Ret a => k a
  | Throw e => Throw e
  end.

Notation "'let?' x ':=' m 'in' k" := (bindO m (fun x => k))
  (at level 10, x name, m at level 100, k at level 200).

(** ** Quoting, target resolution, routing *)

Section Pure.
Context {fmt : NumberFormat}.
Variable cfg : Config.
Variable env : ProcessEnv.

Definition quoteForShell (value : JsVal) : Outcome string :=
  let? s := ToString value in
  Ret ("'" ++ replace_all "'" "'\''" s ++ "'").

Record SshConfig : Type := mkSsh { host : JsVal; user : JsVal; password : JsVal }.

(** One field of the target: [(FLAG && body.name) || fromEnv || fallback].
    With the flag off the left operand is [false] and [body] is not read. *)
Definition resolve_field (body : JsVal) (name : string)
    (fromEnv : option string) (fallback : string) : Outcome JsVal :=
  let? client :=
    (if OPENMAX_ALLOW_CLIENT_SSH_CONFIG cfg
     then get body name
     else Ret (JBool false)) in
  Ret (js_or (js_or client (env_value fromEnv)) (JStr fallback)).

Definition resolveSshConfig (body : JsVal) : Outcome SshConfig :=
  let body := match body with JUndefined => JObj [] | _ => body end in
  let? h := resolve_field body "host" (OPENMAX_VPS_HOST env) "168.231.78.113" in
  let? u := resolve_field body "user" (OPENMAX_VPS_USER env) "root" in
  let? p := resolve_field body "password" (OPENMAX_VPS_PASSWORD env) "" in
  Ret (mkSsh h u p).

Definition buildSshArgs (host user : JsVal) (remoteCommand : string)
  : Outcome (list JsVal) :=
  let? u := ToString user in
  let? h := ToString host in
  Ret [ JStr "-o"; JStr "StrictHostKeyChecking=no";
        JStr "-o"; JStr "UserKnownHostsFile=/dev/null";
        JStr "-o"; JStr "ConnectTimeout=15";
        JStr (u ++ "@" ++ h);
        JStr remoteCommand ].

Definition shouldRunOpenClawLocally (host : JsVal) : bool :=
  if String.eqb (OPENMAX_OPENCLAW_EXECUTION cfg) "local" then true
  else if String.eqb (OPENMAX_OPENCLAW_EXECUTION cfg) "ssh" then false
  else is_str host "127.0.0.1" || is_str host "localhost".

End Pure.

(** The fixed text of the decision prompt around the skill list. *)
Definition system_before : string :=
  dq (join NL [
    "You are OpenClaw Brain inside OpenMax.";
    "";
    "Your goal: help non-developers get results instantly.";
    "";
    "You may either:";
    "1) Respond normally.";
    "2) Run ONE skill from the list to gather facts or apply a safe fix.";
    "";
    "Return ONLY valid JSON (no markdown). Choose one:";
    "{^action^:^respond^,^text^:^...^}";
    "{^action^:^run_skill^,^skillId^:^<id>^,^reason^:^...^}";
    "";
    "Available skills:";
    ""
  ]).

Definition system_after : string :=
  dq (join NL [
    "";
    "";
    "Rules:";
    "- If the user asks for system status/health, use health-check.";
    "- If they ask to fix Orbit, use quick-fix.";
    "- If they ask about VPN, use vpn-status.";
    "- If they ask to update/sync repo, use repo-sync.";
    "- If they ask to restart services, use service-restart.";
    "- Otherwise respond.";
    ""
  ]).

(** ** The outside world *)

(** A row of the [messages] table ([role] and [content] are NOT NULL text). *)
Record MessageRow : Type := mkRow { row_role : string; row_content : string }.

Record ChatMessage : Type := mkMsg { role : string; content : string }.

(** The JSON body posted to the chat endpoint. *)
Record ChatRequest : Type := mkChat {
  chat_model : JsVal;
  chat_messages : list ChatMessage;
  chat_stream : bool;
  chat_options : JsVal
}.

(** What [fetch] gives back: [ok], [status], [statusText], and the body,
    whose reading can fail. *)
Record HttpResponse : Type := mkHttp {
  ok : bool;
  status : Z;
  statusText : string;
  body_text : Outcome string
}.

Inductive FetchResult : Type :=
| FetchThrows (e : JsError)
| FetchReplies (r : HttpResponse).

(** The [code] of the error a child process call rejects with: an exit
    code, a name such as [ENOENT], [null] after a signal, or no code. *)
Inductive ErrCode : Type :=
| CodeExit (n : Z)
| CodeName (s : string)
| CodeNull
| CodeAbsent.

(** The error [execFileAsync] rejects with. [stdout] and [stderr] are texts
    when the child ran and absent when the call threw before spawning. *)
Record ExecError : Type := mkExecError {
  exec_message : string;
  exec_code : ErrCode;
  exec_stdout : option string;
  exec_stderr : option string
}.

Inductive ExecOutcome : Type :=
| ExecResolved (out err : string)
| ExecRejected (e : ExecError).

(** The options given to [execFileAsync]; [timeout_arg] is the argument of
    [Number.parseInt(..., 10)]. *)
Record ExecOptions : Type := mkOpts { timeout_arg : JsVal; maxBuffer : Z }.

(** The collaborators of a request: the conversation store, the model
    endpoint ([fetch] with its abort timer: a network error or an expired
    timer is [FetchThrows]), the child processes, and the clock. *)
Record World : Type := mkWorld {
  db_getConversation : JsVal -> Outcome JsVal;
  db_getConversationMessages : JsVal -> Z -> Outcome (list MessageRow);
  fetch : string -> ChatRequest -> option Z -> FetchResult;
  execFileAsync : string -> list JsVal -> ExecOptions -> ExecOutcome;
  now_iso : string
}.

(** What a request does to the outside, in order. *)
Inductive Event : Type :=
| EvGetConversation (sessionId : JsVal)
| EvGetConversationMessages (conversationId : JsVal) (limit : Z)
| EvFetch (url : string) (req : ChatRequest)
| EvRunLocally (command : JsVal)
| EvRunOverSsh (host user password command : JsVal)
| EvExecFile (file : string) (args : list JsVal) (opts : ExecOptions)
| EvConsoleError (label : string) (e : JsError).

(** A computation with exceptions that records its events. *)
Definition M (A : Type) : Type := list Event -> Outcome A * list Event.

Definition ret {A : Type} (a : A) : M A := fun tr => (Ret a, tr).

Definition bind {A B : Type} (m : M A) (k : A -> M B) : M B :=
  fun tr =>
    match m tr with
    | (Ret a, tr') => k a tr'
    | (Throw e, tr') => (Throw e, tr')
    end.

Definition lift {A : Type} (o : Outcome A) : M A := fun tr => (o, tr).

Definition emit (ev : Event) : M unit := fun tr => (Ret tt, (tr ++ [ev])%list).

(** [try { m } catch (e) { handler e }]. *)
Definition try_catch {A : Type} (m : M A) (handler : JsError -> M A) : M A :=
  fun tr =>
    match m tr with
    | (Ret a, tr') => (Ret a, tr')
    | (Throw e, tr') => handler e tr'
    end.

Notation "'let*' x ':=' m 'in' k" := (bind m (fun x => k))
  (at level 10, x name, m at level 100, k at level 200).
Notation "m ';;' k" := (bind m (fun _ => k))
  (at level 100, k at level 200, right associativity).

(** ** Results and responses *)

(** The object a runner returns; [error] is [undefined] when absent. *)
Record ExecutionResult : Type := mkResult {
  success : bool;
  stdout : JsVal;
  stderr : JsVal;
  exitCode : JsVal;
  error : JsVal
}.

(** [res.status(status).json(body)]; [res.json(body)] has status 200. *)
Record Response : Type := mkResponse { res_status : Z; res_body : JsVal }.

Definition field (r : Response) (name : string) : JsVal :=
  match res_body r with
  | JObj members =>
      match own_property members name with
      | Some v => v
      | None => JUndefined
      end
  | _ => JUndefined
  end.

Definition opt_text (o : option string) : JsVal :=
  match o with
  | Some s => JStr s
  | None => JUndefined
  end.

(** [Number.isInteger(error.code) ? error.code : 1]. *)
Definition exit_code_of (c : ErrCode) : JsVal :=
  match c with
  | CodeExit n => JNum n 0
  | _ => JNum 1 0
  end.

(** [err.message || String(err)], with [Error.prototype.toString]. *)
Definition error_to_string (e : JsError) : string :=
  if String.eqb (err_name e) "" then err_message e
  else if String.eqb (err_message e) "" then err_name e
  else err_name e ++ ": " ++ err_message e.

Definition message_or_string (e : JsError) : JsVal :=
  js_or (JStr (err_message e)) (JStr (error_to_string e)).

Definition text_of (v : JsVal) : string :=
  match v with
  | JStr s => s
  | _ => ""
  end.

Section Server.
Context {fmt : NumberFormat}.
Variable cfg : Config.
Variable env : ProcessEnv.
Variable w : World.

(** *** The command runners *)

Definition failure (e : ExecError) (unknown : string) : ExecutionResult :=
  {| success := false;
     stdout := js_or (opt_text (exec_stdout e)) (JStr "");
     stderr := js_or (js_or (opt_text (exec_stderr e)) (JStr (exec_message e)))
                     (JStr unknown);
     exitCode := exit_code_of (exec_code e);
     error := JStr (exec_message e) |}.

Definition completed (out err : string) : ExecutionResult :=
  {| success := true;
     stdout := js_or (JStr out) (JStr "");
     stderr := js_or (JStr err) (JStr "");
     exitCode := JNum 0 0;
     error := JUndefined |}.

(** What a runner returns for either end of the awaited call: the [try]
    branch for a resolved call, the [catch] branch for a rejected one. *)
Definition settle (unknown : string) (o : ExecOutcome) : ExecutionResult :=
  match o with
  | ExecResolved out err => completed out err
  | ExecRejected e => failure e unknown
  end.

Definition local_options : ExecOptions :=
  mkOpts (js_or (js_or (env_value (OPENMAX_LOCAL_TIMEOUT_MS env))
                       (env_value (OPENMAX_SSH_TIMEOUT_MS env)))
                (JStr "180000"))
         (4 * 1024 * 1024).

Definition ssh_options : ExecOptions :=
  mkOpts (js_or (env_value (OPENMAX_SSH_TIMEOUT_MS env)) (JStr "180000"))
         (4 * 1024 * 1024).

Definition runLocally (command : JsVal) : M ExecutionResult :=
  emit (EvRunLocally command) ;;
  let args := [JStr "-lc"; command] in
  emit (EvExecFile "bash" args local_options) ;;
  ret (settle "Unknown local execution error"
              (execFileAsync w "bash" args local_options)).

Definition execCommand (password : JsVal) : string :=
  if truthy password then "sshpass" else "ssh".

Definition execArgs (password : JsVal) (baseSshArgs : list JsVal) : list JsVal :=
  if truthy password
  then ([JStr "-p"; password; JStr "ssh"] ++ baseSshArgs)%list
  else baseSshArgs.

Definition runOverSsh (host user password command : JsVal) : M ExecutionResult :=
  emit (EvRunOverSsh host user password command) ;;
  let* quoted := lift (quoteForShell command) in
  let remoteCommand := "bash -lc " ++ quoted in
  let* baseSshArgs := lift (buildSshArgs host user remoteCommand) in
  emit (EvExecFile (execCommand password) (execArgs password baseSshArgs) ssh_options) ;;
  ret (settle "Unknown SSH error"
              (execFileAsync w (execCommand password) (execArgs password baseSshArgs)
                             ssh_options)).

(** *** The model call *)

Definition chat_url : string := OPENMAX_OLLAMA_URL cfg ++ "/api/chat".

Definition chat_request (model : JsVal) (messages : list ChatMessage)
    (options : JsVal) : ChatRequest :=
  mkChat (js_or model (JStr (OPENMAX_OLLAMA_MODEL cfg))) messages false
         (js_or options JUndefined).

Definition ollamaChat (model : JsVal) (messages : list ChatMessage)
    (options : JsVal) : M string :=
  let url := chat_url in
  let req := chat_request model messages options in
  emit (EvFetch url req) ;;
  match fetch w url req (OPENMAX_OLLAMA_TIMEOUT_MS cfg) with
  | FetchThrows e => lift (Throw e)
  | FetchReplies response =>
      if negb (ok response) then
        let text := match body_text response with Ret t => t | Throw _ => "" end in
        lift (Throw (mkError "Error"
          ("Ollama error (" ++ number_to_string (status response) 0 ++ "): "
           ++ text_of (js_or (JStr text) (JStr (statusText response))))))
      else
        let* body := lift (body_text response) in
        let* data :=
          lift (match Json.parse body with
                | Some v => Ret v
                | None => Throw (SyntaxError "Unexpected token in JSON")
                end) in
        if negb (truthy data) then ret ""
        else
          let* message := lift (get data "message") in
          if negb (truthy message) then ret ""
          else
            let* c := lift (get message "content") in
            match c with
            | JStr s => ret s
            | _ => ret ""
            end
  end.

(** *** Request handlers *)

Definition json (body : list (string * JsVal)) : Response :=
  mkResponse 200 (JObj body).

Definition status_json (code : Z) (body : list (string * JsVal)) : Response :=
  mkResponse code (JObj body).

Definition missing_password : string :=
  "Missing VPS password. Set OPENMAX_VPS_PASSWORD on the server (recommended), or configure key auth.".

Definition toolList : string :=
  join NL (map (fun entry => "- " ++ fst entry ++ ": " ++ title (snd entry))
               OPENCLAW_SKILLS).

Definition system : string := system_before ++ toolList ++ system_after.

Definition history_message (m : MessageRow) : ChatMessage :=
  mkMsg
    (if String.eqb (row_role m) "assistant" then "assistant"
     else if String.eqb (row_role m) "user" then "user"
     else "assistant")
    (if String.eqb (row_role m) "system"
     then "[SYSTEM NOTE]" ++ NL ++ row_content m
     else row_content m).

(** [history.filter(m => m.role === 'user').slice(-1)[0]?.content || '']. *)
Definition last_user_content (history : list MessageRow) : string :=
  match rev (filter (fun m => String.eqb (row_role m) "user") history) with
  | m :: _ => row_content m
  | [] => ""
  end.

Definition summarizeSystem : string :=
  join NL [ "You are OpenMax. Summarize the following tool output for a non-developer.";
            "";
            "Rules:";
            "- Do not invent.";
            "- Keep it short.";
            "- Mention any problems.";
            "- Give next steps.";
            "" ].

(** The transcript both handlers send to the summarizer after [first]. *)
Definition transcript (first : string) (skill : SkillRef) (sshConfig : SshConfig)
    (execution : ExecutionResult) : Outcome string :=
  let? t := ToString (ref_title skill) in
  let? h := ToString (host sshConfig) in
  let? c := ToString (exitCode execution) in
  let? o := ToString (js_or (stdout execution) (JStr "")) in
  let? e := ToString (js_or (stderr execution) (JStr "")) in
  Ret (first ++ t ++ NL ++ "Host: " ++ h ++ NL ++ "Exit code: " ++ c ++ NL ++ NL
       ++ "STDOUT:" ++ NL ++ o ++ NL ++ NL ++ "STDERR:" ++ NL ++ e).

(** The sentence that stands in for a summary the model did not give. *)
Definition summary_fallback (skill : SkillRef) (sshConfig : SshConfig)
    (err : JsError) : Outcome string :=
  let? t := ToString (ref_title skill) in
  let? h := ToString (host sshConfig) in
  let? m := ToString (message_or_string err) in
  Ret ("Executed " ++ t ++ " on " ++ h ++ ". (Summary unavailable: " ++ m ++ ")").

(** Routing and execution, shared by both handlers: the reply that ends the
    request early, or the target and the runner's result. *)
Definition route_and_run (body : JsVal) (skill : SkillRef)
  : M (Response + SshConfig * ExecutionResult) :=
  let* sshConfig := lift (resolveSshConfig cfg env body) in
  let runOpenClawLocally := shouldRunOpenClawLocally cfg (host sshConfig) in
  if negb runOpenClawLocally && negb (truthy (password sshConfig))
     && negb (truthy (env_value (OPENMAX_ALLOW_KEY_AUTH env)))
  then ret (inl (status_json 400 [("error", JStr missing_password)]))
  else
    let* execution :=
      (if runOpenClawLocally
       then runLocally (ref_command skill)
       else runOverSsh (host sshConfig) (user sshConfig) (password sshConfig)
                       (ref_command skill)) in
    ret (inr (sshConfig, execution)).

(** The summarizer of [POST /api/brain/agent]: the model's summary, or the
    fallback sentence when the call throws. *)
Definition summarizeOrFallback (body : JsVal) (skill : SkillRef)
    (sshConfig : SshConfig) (summarizeUser : string) : M string :=
  try_catch
    (let* m := lift (get body "model") in
     ollamaChat (js_or m (JStr (OPENMAX_OLLAMA_MODEL cfg)))
                [ mkMsg "system" summarizeSystem; mkMsg "user" summarizeUser ]
                (JObj [("temperature", JNum 2 (-1))]))
    (fun err => lift (summary_fallback skill sshConfig err)).

Definition skillSummarySystem : string :=
  "Summarize this output for a non-developer. Keep it short and actionable. Do not invent.".

(** The summarizer of [POST /api/openclaw/skills/:skillId]: the model's
    summary, or [null] when anything in the block throws. *)
Definition summarizeOrNull (body : JsVal) (skill : SkillRef)
    (sshConfig : SshConfig) (execution : ExecutionResult) : M JsVal :=
  try_catch
    (let* content := lift (transcript "Skill: " skill sshConfig execution) in
     let* m := lift (get body "model") in
     let* text :=
       ollamaChat (js_or m (JStr (OPENMAX_OLLAMA_MODEL cfg)))
         [ mkMsg "system" skillSummarySystem; mkMsg "user" content ]
         (JObj [("temperature", JNum 2 (-1))]) in
     ret (JStr text))
    (fun _ => ret JNull).

(** [POST /api/brain/agent], from the parsing of the model's raw reply on.
    [ollamaChat] always returns a text, so the raw reply is always parsed. *)
Definition actOnDecision (body : JsVal) (history : list MessageRow)
    (decisionRaw : string) : M Response :=
  let decision := safeJsonParse decisionRaw in
  let* action :=
    (if truthy decision then lift (get decision "action") else ret JUndefined) in
  if negb (truthy decision) || negb (truthy action)
  then ret (json [ ("action", JStr "respond");
                   ("assistant",
                    js_or (JStr decisionRaw)
                          (JStr "I could not decide an action, but I am ready."));
                   ("raw", JStr decisionRaw) ])
  else if is_str action "respond"
  then
    let* text := lift (get decision "text") in
    ret (json [ ("action", JStr "respond");
                ("assistant", js_or text (JStr "OK."));
                ("raw", JStr decisionRaw) ])
  else if negb (is_str action "run_skill")
  then ret (json [ ("action", JStr "respond");
                   ("assistant", js_or (JStr decisionRaw) (JStr "OK."));
                   ("raw", JStr decisionRaw) ])
  else
    let* skillId := lift (get decision "skillId") in
    let* key := lift (ToString skillId) in
    match skills_get key with
    | None =>
        ret (status_json 400 [ ("error", JStr ("Unknown skillId: " ++ key));
                               ("raw", JStr decisionRaw) ])
    | Some skill =>
        let* routed := route_and_run body skill in
        match routed with
        | inl reply => ret reply
        | inr (sshConfig, execution) =>
            let* summarizeUser :=
              lift (transcript
                      ("User request:" ++ NL ++ last_user_content history
                       ++ NL ++ NL ++ "Tool: ")
                      skill sshConfig execution) in
            let* summary := summarizeOrFallback body skill sshConfig summarizeUser in
            ret (json [ ("action", JStr "run_skill");
                        ("skillId", skillId);
                        ("title", ref_title skill);
                        ("assistant", JStr summary);
                        ("tool",
                         JObj [ ("success", JBool (success execution));
                                ("host", host sshConfig);
                                ("user", user sshConfig);
                                ("exitCode", exitCode execution);
                                ("stdout", stdout execution);
                                ("stderr", stderr execution);
                                ("error", js_or (error execution) JNull);
                                ("executedAt", JStr (now_iso w)) ]);
                        ("raw", JStr decisionRaw) ])
        end
    end.

(** The messages of the decision call. *)
Definition ollamaMessages (history : list MessageRow) : list ChatMessage :=
  mkMsg "system" system :: map history_message history.

(** [POST /api/brain/agent]. *)
Definition brainAgent (body : JsVal) : M Response :=
  try_catch
    (let* sessionId := lift (get (js_or body (JObj [])) "sessionId") in
     if negb (truthy sessionId)
     then ret (status_json 400 [("error", JStr "sessionId is required")])
     else
       emit (EvGetConversation sessionId) ;;
       let* conversation := lift (db_getConversation w sessionId) in
       if negb (truthy conversation)
       then ret (status_json 404 [("error", JStr "Conversation not found")])
       else
         let* conversationId := lift (get conversation "id") in
         emit (EvGetConversationMessages conversationId 30) ;;
         let* history := lift (db_getConversationMessages w conversationId 30) in
         let* reqModel := lift (get body "model") in
         let* reqOptions := lift (get body "options") in
         let* decisionRaw :=
           ollamaChat (js_or reqModel (JStr (OPENMAX_OLLAMA_MODEL cfg)))
                      (ollamaMessages history)
                      (js_or reqOptions (JObj [("temperature", JNum 2 (-1))])) in
         actOnDecision body history decisionRaw)
    (fun error =>
       emit (EvConsoleError "Error in /api/brain/agent:" error) ;;
       ret (status_json 500 [ ("error", JStr "Failed to process agent request");
                              ("detail", message_or_string error) ])).


(** [POST /api/openclaw/skills/:skillId]; [skillId] is the path parameter. *)
Definition runSkill (skillId : string) (body : JsVal) : M Response :=
  try_catch
    (match skills_get skillId with
     | None => ret (status_json 404 [("error", JStr ("Unknown skill: " ++ skillId))])
     | Some skill =>
         let* routed := route_and_run body skill in
         match routed with
         | inl reply => ret reply
         | inr (sshConfig, execution) =>
             let* summary := summarizeOrNull body skill sshConfig execution in
             ret (json [ ("success", JBool (success execution));
                         ("skillId", JStr skillId);
                         ("title", ref_title skill);
                         ("host", host sshConfig);
                         ("user", user sshConfig);
                         ("exitCode", exitCode execution);
                         ("stdout", stdout execution);
                         ("stderr", stderr execution);
                         ("summary", summary);
                         ("error", js_or (error execution) JNull);
                         ("executedAt", JStr (now_iso w)) ])
         end
     end)
    (fun error =>
       emit (EvConsoleError "Error executing OpenClaw skill:" error) ;;
       ret (status_json 500 [ ("error", JStr "Failed to execute OpenClaw skill");
                              ("detail", message_or_string error) ])).

End Server.

(** ** Observations on a run *)

Definition is_runner_event (ev : Event) : bool :=
  match ev with
  | EvRunLocally _ | EvRunOverSsh _ _ _ _ => true
  | _ => false
  end.

Definition is_spawn_event (ev : Event) : bool :=
  match ev with
  | EvExecFile _ _ _ => true
  | _ => false
  end.

(** How many times [runLocally] or [runOverSsh] was called. *)
Definition runner_invocations (tr : list Event) : nat :=
  length (filter is_runner_event tr).

(** How many child processes were started. *)
Definition processes_started (tr : list Event) : nat :=
  length (filter is_spawn_event tr).

(** [m], when it returns, returns a value that satisfies [P]. *)
Definition ensures {A : Type} (m : M A) (P : A -> Prop) : Prop :=
  forall tr, match fst (m tr) with Ret a => P a | Throw _ => True end.

(** [m] never throws, and its value satisfies [P]. *)
Definition returns {A : Type} (m : M A) (P : A -> Prop) : Prop :=
  forall tr, exists a tr', m tr = (Ret a, tr') /\ P a.

(** The request names a session the store knows: [sessionId] is present and
    [db.getConversation] answers with a row. *)
Definition valid_session (w : World) (body : JsVal) : Prop :=
  exists sessionId conversation,
    get (js_or body (JObj [])) "sessionId" = Ret sessionId /\
    truthy sessionId = true /\
    db_getConversation w sessionId = Ret conversation /\
    truthy conversation = true.

(** The request names a session of the store, the history is read, and the
    decision call of the model throws [e]. *)
Definition decision_call_fails `{NumberFormat} (cfg : Config) (w : World)
    (body : JsVal) (e : JsError) : Prop :=
  exists sessionId conversation conversationId history reqModel reqOptions,
    get (js_or body (JObj [])) "sessionId" = Ret sessionId /\
    truthy sessionId = true /\
    db_getConversation w sessionId = Ret conversation /\
    truthy conversation = true /\
    get conversation "id" = Ret conversationId /\
    db_getConversationMessages w conversationId 30 = Ret history /\
    get body "model" = Ret reqModel /\
    get body "options" = Ret reqOptions /\
    fst (ollamaChat cfg w (js_or reqModel (JStr (OPENMAX_OLLAMA_MODEL cfg)))
           (ollamaMessages history)
           (js_or reqOptions (JObj [("temperature", JNum 2 (-1))])) []) = Throw e.



(** The target is remote and neither a password nor key authentication is
    configured for it. *)
Definition password_missing `{NumberFormat} (cfg : Config) (env : ProcessEnv)
    (body : JsVal) : Prop :=
  exists ssh,
    resolveSshConfig cfg env body = Ret ssh /\
    shouldRunOpenClawLocally cfg (host ssh) = false /\
    truthy (password ssh) = false /\
    truthy (env_value (OPENMAX_ALLOW_KEY_AUTH env)) = false.













(** Child processes are rejected only with an exit code other than zero, a
    name, or no code: the platform resolves the call when the code is zero. *)
Definition rejects_nonzero (w : World) : Prop :=
  forall file args opts e,
    execFileAsync w file args opts = ExecRejected e -> exec_code e <> CodeExit 0.

(** What a runner can return. *)
Definition produced `{NumberFormat} (env : ProcessEnv) (w : World)
    (r : ExecutionResult) : Prop :=
  (exists command tr tr', runLocally env w command tr = (Ret r, tr')) \/
  (exists host user password command tr tr',
     runOverSsh env w host user password command tr = (Ret r, tr')).

(** The invariant of a runner's result: [success] exactly when [exitCode]
    is 0, texts for [stdout] and [stderr], an [error] exactly on failure. *)
Definition result_invariant (r : ExecutionResult) : Prop :=
  (success r = true <-> exitCode r = JNum 0 0) /\
  (exists s, stdout r = JStr s) /\
  (exists s, stderr r = JStr s) /\
  (success r = false <-> exists msg, error r = JStr msg) /\
  (success r = true <-> error r = JUndefined).

(** ** POSIX shell words *)

(** How a POSIX shell reads a command line made of blanks, single quotes,
    backslashes and ordinary characters (Shell Command Language, 2.2 and
    2.3): between single quotes every character stands for itself; outside,
    a backslash makes the next character stand for itself and blanks
    separate words. A line that uses any other special character outside of
    quotes, or a backslash before a line break, is outside of this fragment
    and has no reading here. *)
Module Posix.

Inductive Mode : Type :=
| Between
| Word (cur : string)
| Quoted (cur : string)
| Escaped (cur : string).

Definition blank (c : ascii) : bool :=
  Ascii.eqb c " " || Ascii.eqb c (Ascii.ascii_of_nat 9).

Definition special (c : ascii) : bool :=
  existsb (Ascii.eqb c)
    [ "|"; "&"; ";"; "<"; ">"; "("; ")"; "$"; "`"; DQ; "*"; "?"; "["; "#";
      "~"; "="; "%"; "{"; "}"; "!"; Ascii.ascii_of_nat 10 ]%char.

Definition push (cur : string) (c : ascii) : string := cur ++ String c "".

Definition current (m : Mode) : string :=
  match m with
  | Between => ""
  | Word cur | Quoted cur | Escaped cur => cur
  end.

Fixpoint words (m : Mode) (out : list string) (s : string) : option (list string) :=
  match s with
  | EmptyString =>
      match m with
      | Between => Some out
      | Word cur => Some (out ++ [cur])%list
      | Quoted _ | Escaped _ => None
      end
  | String c r =>
      match m with
      | Quoted cur =>
          if Ascii.eqb c "'" then words (Word cur) out r
          else words (Quoted (push cur c)) out r
      | Escaped cur =>
          if Ascii.eqb c (Ascii.ascii_of_nat 10) then None
          else words (Word (push cur c)) out r
      | Between | Word _ =>
          if blank c then
            match m with
            | Word cur => words Between (out ++ [cur])%list r
            | _ => words Between out r
            end
          else if Ascii.eqb c "'" then words (Quoted (current m)) out r
          else if Ascii.eqb c "\" then words (Escaped (current m)) out r
          else if special c then None
          else words (Word (push (current m) c)) out r
      end
  end.

(** The words of a command line. *)
Definition split (line : string) : option (list string) := words Between [] line.

End Posix.

(** ** Loopback, in the words of the specification *)

(** A host that names the machine itself: the two spellings the source
    tests for and the IPv6 loopback address the specification names. *)
Definition spec_loopback (host : string) : bool :=
  mem host ["127.0.0.1"; "localhost"; "::1"].

(** ** Concrete runs *)

(** A rendering of numbers for concrete runs: the decimal digits of an
    integer literal without exponent, which is what [Number::toString]
    gives for the integers below [10^21]; the runs below render no other
    number. *)
Definition integer_digits : NumberFormat :=
  fun m e => NilZero.string_of_int (Z.to_int (m * 10 ^ e)).

Definition sample_env : ProcessEnv :=
  {| OPENMAX_VPS_HOST := Some "203.0.113.9";
     OPENMAX_VPS_USER := None;
     OPENMAX_VPS_PASSWORD := Some "s3cret";
     OPENMAX_ALLOW_KEY_AUTH := None;
     OPENMAX_LOCAL_TIMEOUT_MS := None;
     OPENMAX_SSH_TIMEOUT_MS := None |}.

Definition sample_cfg (mode : string) (allow : bool) : Config :=
  {| OPENMAX_OLLAMA_URL := "http://127.0.0.1:11434";
     OPENMAX_OLLAMA_MODEL := "gemma3:4b";
     OPENMAX_OLLAMA_TIMEOUT_MS := Some 120000;
     OPENMAX_OPENCLAW_EXECUTION := mode;
     OPENMAX_ALLOW_CLIENT_SSH_CONFIG := allow |}.

(** A store with one conversation, a model endpoint that answers
    [fetched], and child processes that end as [child]. *)
Definition sample_world (fetched : FetchResult) (child : ExecOutcome) : World :=
  {| db_getConversation := fun _ => Ret (JObj [("id", JNum 1 0)]);
     db_getConversationMessages := fun _ _ => Ret [mkRow "user" "restart everything"];
     fetch := fun _ _ _ => fetched;
     execFileAsync := fun _ _ _ => child;
     now_iso := "2026-01-01T00:00:00.000Z" |}.

(** An HTTP 200 reply with the given body. *)
Definition replies (body : string) : FetchResult :=
  FetchReplies (mkHttp true 200 "OK" (Ret body)).


Definition unreachable : FetchResult :=
  FetchThrows (mkError "TypeError" "fetch failed").

Definition sample_body : JsVal := JObj [("sessionId", JStr "s-1")].

(** The model names [constructor], which is no entry of the skill table. *)
Definition reply_constructor : string :=
  dq "{^message^:{^role^:^assistant^,^content^:^{\^action\^:\^run_skill\^,\^skillId\^:\^constructor\^}^}}".


(** A reply that wraps the decision in prose. *)
Definition wrapped_decision : string :=
  "I'll just chat." ++ NL ++ dq "{^action^:^respond^,^text^:^Hi^}" ++ NL ++ "thanks".

Definition client_target : JsVal :=
  JObj [ ("sessionId", JStr "s-1"); ("host", JStr "198.51.100.7");
         ("user", JStr "mallory"); ("password", JStr "x") ].

Definition command_not_found : ExecOutcome :=
  ExecRejected (mkExecError "Command failed: ssh" (CodeExit 127) (Some "")
                            (Some "bash: undefined: command not found")).

Definition spawn_failed : ExecOutcome :=
  ExecRejected (mkExecError "spawn bash ENOENT" (CodeName "ENOENT") None None).

(** The model decides to run the health check. *)
Definition reply_health_check : string :=
  dq "{^message^:{^role^:^assistant^,^content^:^{\^action\^:\^run_skill\^,\^skillId\^:\^health-check\^}^}}".


(** * The rest of the server module and its callers *)

From Stdlib Require Import Sorted.

(** ** More observations on a run *)

Definition is_fetch_event (ev : Event) : bool :=
  match ev with
  | EvFetch _ _ => true
  | _ => false
  end.

Definition is_store_event (ev : Event) : bool :=
  match ev with
  | EvGetConversation _ | EvGetConversationMessages _ _ => true
  | _ => false
  end.

(** How many times the model endpoint was called. *)
Definition model_calls (tr : list Event) : nat :=
  length (filter is_fetch_event tr).

(** How many times the conversation store was read. *)
Definition store_reads (tr : list Event) : nat :=
  length (filter is_store_event tr).

(** [m] adds the events [evs] to the ones recorded before it, and its
    outcome and these events satisfy [P]. *)
Definition emits {A : Type} (m : M A) (P : Outcome A -> list Event -> Prop) : Prop :=
  forall tr, exists evs, snd (m tr) = (tr ++ evs)%list /\ P (fst (m tr)) evs.


(** The target the server's own configuration gives. *)
Definition server_target (env : ProcessEnv) : SshConfig :=
  mkSsh (js_or (env_value (OPENMAX_VPS_HOST env)) (JStr "168.231.78.113"))
        (js_or (env_value (OPENMAX_VPS_USER env)) (JStr "root"))
        (js_or (env_value (OPENMAX_VPS_PASSWORD env)) (JStr "")).

(** What an event policy says of the events a handler can record through a
    runner for the skill [skill] and the target [ssh]. *)
Definition runner_policy `{NumberFormat} (cfg : Config) (env : ProcessEnv)
    (Q : Event -> Prop) (skill : SkillRef) (ssh : SshConfig) : Prop :=
  (shouldRunOpenClawLocally cfg (host ssh) = true ->
     Q (EvRunLocally (ref_command skill)) /\
     Q (EvExecFile "bash" [JStr "-lc"; ref_command skill] (local_options env))) /\
  (shouldRunOpenClawLocally cfg (host ssh) = false ->
     Q (EvRunOverSsh (host ssh) (user ssh) (password ssh) (ref_command skill)) /\
     forall q base,
       quoteForShell (ref_command skill) = Ret q ->
       buildSshArgs (host ssh) (user ssh) ("bash -lc " ++ q) = Ret base ->
       Q (EvExecFile (execCommand (password ssh)) (execArgs (password ssh) base)
                     (ssh_options env))).

(** The events that are neither a runner call nor a process start. *)
Definition quiet_event (ev : Event) : Prop :=
  is_runner_event ev = false /\ is_spawn_event ev = false.

(** The events of one routed execution of [skill] against the target [ssh]:
    a local run and its process, or a remote run and, unless the command or
    the target cannot be written as text, its process. *)
Definition run_events `{NumberFormat} (cfg : Config) (env : ProcessEnv)
    (skill : SkillRef) (ssh : SshConfig) (evs : list Event) : Prop :=
  (shouldRunOpenClawLocally cfg (host ssh) = true /\
   evs = [ EvRunLocally (ref_command skill);
           EvExecFile "bash" [JStr "-lc"; ref_command skill] (local_options env) ]) \/
  (shouldRunOpenClawLocally cfg (host ssh) = false /\
   (truthy (password ssh) = true \/
    truthy (env_value (OPENMAX_ALLOW_KEY_AUTH env)) = true) /\
   (evs = [ EvRunOverSsh (host ssh) (user ssh) (password ssh) (ref_command skill) ] \/
    exists q base,
      quoteForShell (ref_command skill) = Ret q /\
      buildSshArgs (host ssh) (user ssh) ("bash -lc " ++ q) = Ret base /\
      evs = [ EvRunOverSsh (host ssh) (user ssh) (password ssh) (ref_command skill);
              EvExecFile (execCommand (password ssh)) (execArgs (password ssh) base)
                         (ssh_options env) ])).

(** One routed execution that returned the result [x]: its events and what
    the result was settled from. *)
Definition ran `{NumberFormat} (cfg : Config) (env : ProcessEnv) (w : World)
    (skill : SkillRef) (ssh : SshConfig) (x : ExecutionResult)
    (evs : list Event) : Prop :=
  (shouldRunOpenClawLocally cfg (host ssh) = true /\
   evs = [ EvRunLocally (ref_command skill);
           EvExecFile "bash" [JStr "-lc"; ref_command skill] (local_options env) ] /\
   x = settle "Unknown local execution error"
         (execFileAsync w "bash" [JStr "-lc"; ref_command skill] (local_options env))) \/
  (shouldRunOpenClawLocally cfg (host ssh) = false /\
   (truthy (password ssh) = true \/
    truthy (env_value (OPENMAX_ALLOW_KEY_AUTH env)) = true) /\
   exists q base,
     quoteForShell (ref_command skill) = Ret q /\
     buildSshArgs (host ssh) (user ssh) ("bash -lc " ++ q) = Ret base /\
     evs = [ EvRunOverSsh (host ssh) (user ssh) (password ssh) (ref_command skill);
             EvExecFile (execCommand (password ssh)) (execArgs (password ssh) base)
                        (ssh_options env) ] /\
     x = settle "Unknown SSH error"
           (execFileAsync w (execCommand (password ssh)) (execArgs (password ssh) base)
              (ssh_options env))).

(** A remote execution that threw before it started a process, because the
    command or the target could not be written as text. *)
Definition interrupted `{NumberFormat} (cfg : Config) (env : ProcessEnv)
    (body : JsVal) (skill : SkillRef) (evs : list Event) : Prop :=
  exists ssh,
    resolveSshConfig cfg env body = Ret ssh /\
    shouldRunOpenClawLocally cfg (host ssh) = false /\
    (truthy (password ssh) = true \/
     truthy (env_value (OPENMAX_ALLOW_KEY_AUTH env)) = true) /\
    evs = [ EvRunOverSsh (host ssh) (user ssh) (password ssh) (ref_command skill) ].

(** What [route_and_run] leaves behind: nothing when it ends the request or
    cannot resolve the target, otherwise the events of one execution. *)
Definition routed `{NumberFormat} (cfg : Config) (env : ProcessEnv) (w : World)
    (body : JsVal) (skill : SkillRef)
    (o : Outcome (Response + SshConfig * ExecutionResult)) (evs : list Event) : Prop :=
  match o with
  | Ret (inl reply) =>
      evs = [] /\ reply = status_json 400 [("error", JStr missing_password)] /\
      password_missing cfg env body
  | Ret (inr (ssh, x)) =>
      resolveSshConfig cfg env body = Ret ssh /\ ran cfg env w skill ssh x evs
  | Throw e =>
      (evs = [] /\ resolveSshConfig cfg env body = Throw e) \/
      interrupted cfg env body skill evs
  end.

(** The events of the agent handler from the decision on: none, or those of
    one execution of a skill the table answers for, followed by at most one
    model call. *)
Definition acted `{NumberFormat} (cfg : Config) (env : ProcessEnv) (body : JsVal)
    (evs : list Event) : Prop :=
  evs = [] \/
  exists key skill ssh revs fevs,
    skills_get key = Some skill /\
    resolveSshConfig cfg env body = Ret ssh /\
    run_events cfg env skill ssh revs /\
    (fevs = [] \/ exists url req, fevs = [EvFetch url req]) /\
    evs = (revs ++ fevs)%list.

(** A reply that reports an executed skill. *)
Definition skill_reply (r : Response) : Prop :=
  res_status r = 200 /\ field r "action" = JStr "run_skill".

(** What acting on a decision leaves behind, and with which reply. *)
Definition act_post `{NumberFormat} (cfg : Config) (env : ProcessEnv) (body : JsVal)
    (o : Outcome Response) (evs : list Event) : Prop :=
  acted cfg env body evs /\
  forall r, o = Ret r ->
    (evs = [] /\ ~ skill_reply r) \/
    (skill_reply r /\ runner_invocations evs = 1%nat /\ processes_started evs = 1%nat).

(** What the agent handler leaves behind for the reply [r]: quiet events of
    validation and decision (at most two reads of the store and one model
    call), then the events of acting on the decision, then at most the log
    line of the catch block. A reply that reports an executed skill comes
    with exactly one runner call and one process; any other reply comes with
    no runner event at all unless it is the status 500 of the catch block. *)
Definition served `{NumberFormat} (cfg : Config) (env : ProcessEnv) (body : JsVal)
    (r : Response) (evs : list Event) : Prop :=
  exists pre act post,
    evs = (pre ++ act ++ post)%list /\
    Forall quiet_event pre /\
    (store_reads pre <= 2)%nat /\ (model_calls pre <= 1)%nat /\
    acted cfg env body act /\
    (post = [] \/ exists label e, post = [EvConsoleError label e]) /\
    ((skill_reply r /\
      runner_invocations act = 1%nat /\ processes_started act = 1%nat) \/
     (~ skill_reply r /\ (act = [] \/ res_status r = 500))).

(** What the skill endpoint leaves behind for the reply [r]: nothing for an
    unknown skill (status 404) or a missing password (status 400); for the
    status 500 of the catch block what the interrupted execution recorded
    and the log line; otherwise the events of one execution and at most one
    model call, with the flat reply that reports the execution. *)
Definition skill_served `{NumberFormat} (cfg : Config) (env : ProcessEnv) (w : World)
    (skillId : string) (body : JsVal) (r : Response) (evs : list Event) : Prop :=
  match skills_get skillId with
  | None =>
      evs = [] /\
      r = status_json 404 [("error", JStr ("Unknown skill: " ++ skillId))]
  | Some skill =>
      (evs = [] /\ r = status_json 400 [("error", JStr missing_password)] /\
       password_missing cfg env body) \/
      (exists e revs,
         r = status_json 500 [ ("error", JStr "Failed to execute OpenClaw skill");
                               ("detail", message_or_string e) ] /\
         evs = (revs ++ [EvConsoleError "Error executing OpenClaw skill:" e])%list /\
         ((revs = [] /\ resolveSshConfig cfg env body = Throw e) \/
          interrupted cfg env body skill revs)) \/
      (exists ssh x revs fevs summary,
         resolveSshConfig cfg env body = Ret ssh /\
         ran cfg env w skill ssh x revs /\
         (fevs = [] \/ exists url req, fevs = [EvFetch url req]) /\
         evs = (revs ++ fevs)%list /\
         (summary = JNull \/ exists s, summary = JStr s) /\
         r = json [ ("success", JBool (success x));
                    ("skillId", JStr skillId);
                    ("title", ref_title skill);
                    ("host", host ssh);
                    ("user", user ssh);
                    ("exitCode", exitCode x);
                    ("stdout", stdout x);
                    ("stderr", stderr x);
                    ("summary", summary);
                    ("error", js_or (error x) JNull);
                    ("executedAt", JStr (now_iso w)) ])
  end.







(** No remote run, and no process but [bash]. *)
Definition local_only (ev : Event) : Prop :=
  match ev with
  | EvRunOverSsh _ _ _ _ => False
  | EvExecFile file _ _ => file = "bash"
  | _ => True
  end.

(** No local run, and no process but [ssh] or [sshpass]. *)
Definition remote_only (ev : Event) : Prop :=
  match ev with
  | EvRunLocally _ => False
  | EvExecFile file _ _ => file = "ssh" \/ file = "sshpass"
  | _ => True
  end.

(** ** The other endpoints of the model and skill routes *)

(** [data.models.map(m => m.name)]: the [name] of every item, in order; the
    read throws on a [null] item. ([models], [name], [attachments], [type]
    and [src] are, like the names read before, no property of a built-in
    prototype of the values JSON gives.) *)
Fixpoint names_of (items : list JsVal) : Outcome (list JsVal) :=
  match items with
  | [] => Ret []
  | m :: rest =>
      let? name := get m "name" in
      let? names := names_of rest in
      Ret (name :: names)
  end.

(** [GET /api/brain/status]; [tags] is what the one [fetch] of
    [<OPENMAX_OLLAMA_URL>/api/tags] gives. *)
Definition brainStatus (cfg : Config) (tags : FetchResult) : Response :=
  let attempt : Outcome Response :=
    match tags with
    | FetchThrows e => Throw e
    | FetchReplies response =>
        if negb (ok response)
        then Ret (json [ ("ok", JBool false);
                         ("ollamaUrl", JStr (OPENMAX_OLLAMA_URL cfg));
                         ("model", JStr (OPENMAX_OLLAMA_MODEL cfg));
                         ("status", JNum (status response) 0) ])
        else
          let? text := body_text response in
          let? data :=
            match Json.parse text with
            | Some v => Ret v
            | None => Throw (SyntaxError "Unexpected token in JSON")
            end in
          let? models := get data "models" in
          let? listed :=
            match models with
            | JArr items => let? names := names_of items in Ret (firstn 30 names)
            | _ => Ret []
            end in
          Ret (json [ ("ok", JBool true);
                      ("ollamaUrl", JStr (OPENMAX_OLLAMA_URL cfg));
                      ("model", JStr (OPENMAX_OLLAMA_MODEL cfg));
                      ("models", JArr listed) ])
    end in
  match attempt with
  | Ret r => r
  | Throw error =>
      json [ ("ok", JBool false);
             ("ollamaUrl", JStr (OPENMAX_OLLAMA_URL cfg));
             ("model", JStr (OPENMAX_OLLAMA_MODEL cfg));
             ("error", message_or_string error) ]
  end.

(** [GET /api/openclaw/skills]: the id and title of every skill, in the
    order of the table. *)
Definition listSkills : Response :=
  json [ ("skills",
          JArr (map (fun entry => JObj [ ("id", JStr (fst entry));
                                         ("title", JStr (title (snd entry))) ])
                    OPENCLAW_SKILLS)) ].

(** The ids [GET /api/openclaw/skills] publishes. *)
Definition published_ids : list string := map fst OPENCLAW_SKILLS.

(** [data.message.content] when the three are an object, an object and a
    text. *)
Definition message_content (data : JsVal) : option string :=
  match data with
  | JObj members =>
      match own_property members "message" with
      | Some (JObj inner) =>
          match own_property inner "content" with
          | Some (JStr s) => Some s
          | _ => None
          end
      | _ => None
      end
  | _ => None
  end.

(** ** Storing a turn: [POST /api/messages] *)

(** What the handler asks of the store and of the console, in order. *)
Inductive StoreCall : Type :=
| CallGetConversation (sessionId : JsVal)
| CallAddMessage (conversationId role content metadata : JsVal)
| CallConsoleError (label : string) (error : JsError).

Definition is_write (c : StoreCall) : bool :=
  match c with
  | CallAddMessage _ _ _ _ => true
  | _ => false
  end.

Section Messages.
(** [db.getConversation] and [db.addMessage], as the handler sees them. *)
Variable db_get : JsVal -> Outcome JsVal.
Variable db_add : JsVal -> JsVal -> JsVal -> JsVal -> Outcome JsVal.

Definition save_failed (calls : list StoreCall) (error : JsError)
  : Response * list StoreCall :=
  (status_json 500 [("error", JStr "Failed to save message")],
   (calls ++ [CallConsoleError "Error saving message:" error])%list).

Definition postMessage (body : JsVal) : Response * list StoreCall :=
  let destructured :=
    let? sessionId := get body "sessionId" in
    let? role := get body "role" in
    let? content := get body "content" in
    let? metadata := get body "metadata" in
    Ret (sessionId, role, content, metadata) in
  match destructured with
  | Throw error => save_failed [] error
  | Ret (sessionId, role, content, metadata) =>
      if negb (truthy sessionId) || negb (truthy role) || negb (truthy content)
      then (status_json 400 [("error", JStr "sessionId, role, and content are required")],
            [])
      else
        match db_get sessionId with
        | Throw error => save_failed [CallGetConversation sessionId] error
        | Ret conversation =>
            if negb (truthy conversation)
            then (status_json 404 [("error", JStr "Conversation not found")],
                  [CallGetConversation sessionId])
            else
              match get conversation "id" with
              | Throw error => save_failed [CallGetConversation sessionId] error
              | Ret conversationId =>
                  let calls := [ CallGetConversation sessionId;
                                 CallAddMessage conversationId role content metadata ] in
                  match db_add conversationId role content metadata with
                  | Throw error => save_failed calls error
                  | Ret message => (mkResponse 201 message, calls)
                  end
              end
        end
  end.

End Messages.

(** ** The client's attachments (the chat screen) *)

Record Attachment : Type := mkAttachment {
  att_id : Z;
  att_type : string;
  att_name : string;
  att_src : option string
}.

(** [typeof value === 'object' && value !== null && !Array.isArray(value)]. *)
Definition isRecord (value : JsVal) : bool :=
  match value with
  | JObj _ => true
  | _ => false
  end.

(** The body of the [forEach] of [mapMetadataAttachments] over the items
    from position [index] on: an item that is no record or has no name is
    passed over, and the others are pushed in order with [index + 1] as
    their id. *)
Fixpoint collect_attachments (index : Z) (items : list JsVal) : list Attachment :=
  match items with
  | [] => []
  | item :: rest =>
      let pushed := collect_attachments (index + 1) rest in
      match item with
      | JObj members =>
          let read key :=
            match own_property members key with Some v => v | None => JUndefined end in
          let name := match read "name" with JStr s => s | _ => "" end in
          let typeValue := read "type" in
          let src := match read "src" with JStr s => Some s | _ => None end in
          if String.eqb name "" then pushed
          else mkAttachment (index + 1)
                            (if is_str typeValue "image" then "image" else "file")
                            name src :: pushed
      | _ => pushed
      end
  end.

Definition mapMetadataAttachments (metadata : JsVal) : list Attachment :=
  if negb (truthy metadata) then []
  else
    match metadata with
    | JObj members =>
        match own_property members "attachments" with
        | Some (JArr items) => collect_attachments 0 items
        | _ => []
        end
    | _ => []
    end.

(** [files.map(file => ({ type: file.type, name: file.name }))] of
    [sendMessage], and the metadata it stores with the user's turn. *)
Definition attachmentsMetadata (files : list Attachment) : list JsVal :=
  map (fun file => JObj [ ("type", JStr (att_type file));
                          ("name", JStr (att_name file)) ]) files.

Definition turn_metadata (files : list Attachment) (source : string) : JsVal :=
  JObj [ ("attachments", JArr (attachmentsMetadata files));
         ("source", JStr source) ].

(** [mapApiMessageToUi]: the role shown for a stored role, and the
    attachments of the bubble, [undefined] when there is none. *)
Definition ui_role (role : JsVal) : string :=
  if is_str role "assistant" then "ai"
  else if is_str role "system" then "system"
  else "user".

Definition ui_attachments (metadata : JsVal) : option (list Attachment) :=
  let attachments := mapMetadataAttachments metadata in
  if (0 <? Z.of_nat (length attachments)) then Some attachments else None.

(** A well-formed attachment of the composer: a name, and one of the two
    types of [AttachmentType]. *)
Definition composed (file : Attachment) : Prop :=
  att_name file <> "" /\ (att_type file = "image" \/ att_type file = "file").

(** The ids [1, 2, ..., n] as [forEach] counts them. *)
Fixpoint ids_from (index : Z) (n : nat) : list Z :=
  match n with
  | O => []
  | S k => (index + 1) :: ids_from (index + 1) k
  end.

(** ** More sample data *)

(** The server's environment before a password is configured. *)
Definition no_password_env : ProcessEnv :=
  {| OPENMAX_VPS_HOST := Some "203.0.113.9";
     OPENMAX_VPS_USER := None;
     OPENMAX_VPS_PASSWORD := None;
     OPENMAX_ALLOW_KEY_AUTH := None;
     OPENMAX_LOCAL_TIMEOUT_MS := None;
     OPENMAX_SSH_TIMEOUT_MS := None |}.

(** What the skill endpoint answers when the health check is run locally,
    the shell does not find the command, and the model is unreachable. *)
Definition rejected_run : Outcome Response * list Event :=
  Eval vm_compute in
    runSkill (fmt := integer_digits) (sample_cfg "local" false) sample_env
      (sample_world unreachable command_not_found) "health-check" sample_body [].

Definition rejected_reply : Response :=
  Eval vm_compute in
    match fst rejected_run with
    | Ret r => r
    | Throw _ => mkResponse 0 JNull
    end.

(** A photo and a document, as the composer holds them. *)
Definition sample_files : list Attachment :=
  [ mkAttachment 41 "image" "cat.png" (Some "blob:1");
    mkAttachment 42 "file" "notes.txt" None ].

(** ** What a reply of the agent endpoint gives the client to show *)

(** A 200 reply echoes the model's raw decision as a text and is either a
    [respond] reply with a truthy [assistant] and no [tool], or a
    [run_skill] reply with a text as [assistant] and the report of the
    execution as [tool]; a reply of any other status has no [assistant] and
    a non-empty text as [error]. *)
Definition showable (r : Response) : Prop :=
  (res_status r = 200 ->
   (exists raw, field r "raw" = JStr raw) /\
   field r "error" = JUndefined /\
   ((field r "action" = JStr "respond" /\
     truthy (field r "assistant") = true /\ field r "tool" = JUndefined) \/
    (field r "action" = JStr "run_skill" /\
     (exists summary, field r "assistant" = JStr summary) /\
     exists tool b at_,
       field r "tool" = JObj tool /\
       own_property tool "success" = Some (JBool b) /\
       own_property tool "executedAt" = Some (JStr at_)))) /\
  (res_status r <> 200 ->
   field r "assistant" = JUndefined /\
   exists msg, field r "error" = JStr msg /\ msg <> "").

(** * Properties *)

#[local] Existing Instance integer_digits.

(** ** Target resolution *)

Lemma js_or_false (v : JsVal) : js_or (JBool false) v = v.
Proof. reflexivity. Qed.

(** C1: with [OPENMAX_ALLOW_CLIENT_SSH_CONFIG] off, [resolveSshConfig] gives
    the same target for every two request bodies: the host, user and
    password of the server's environment, or their defaults. *)
Theorem resolveSshConfig_server_only (cfg : Config) (env : ProcessEnv) :
  OPENMAX_ALLOW_CLIENT_SSH_CONFIG cfg = false ->
  forall body1 body2 : JsVal,
    resolveSshConfig cfg env body1 = resolveSshConfig cfg env body2 /\
    resolveSshConfig cfg env body1 =
      Ret (mkSsh (js_or (env_value (OPENMAX_VPS_HOST env)) (JStr "168.231.78.113"))
                 (js_or (env_value (OPENMAX_VPS_USER env)) (JStr "root"))
                 (js_or (env_value (OPENMAX_VPS_PASSWORD env)) (JStr ""))).
Proof.
  intros Hflag body1 body2.
  assert (Hany : forall body,
    resolveSshConfig cfg env body =
      Ret (mkSsh (js_or (env_value (OPENMAX_VPS_HOST env)) (JStr "168.231.78.113"))
                 (js_or (env_value (OPENMAX_VPS_USER env)) (JStr "root"))
                 (js_or (env_value (OPENMAX_VPS_PASSWORD env)) (JStr "")))).
  { intro body. unfold resolveSshConfig, resolve_field. rewrite Hflag.
    cbn [bindO]. rewrite !js_or_false. reflexivity. }
  split; [now rewrite !Hany | apply Hany].
Qed.

Lemma resolveSshConfig_server_only_witness :
  OPENMAX_ALLOW_CLIENT_SSH_CONFIG (sample_cfg "auto" false) = false /\
  resolveSshConfig (sample_cfg "auto" false) sample_env client_target
  = resolveSshConfig (sample_cfg "auto" false) sample_env sample_body.
Proof.
  split; [reflexivity |].
  exact (proj1 (resolveSshConfig_server_only (sample_cfg "auto" false) sample_env
                  eq_refl client_target sample_body)).
Defined.

(** ** Routing *)
Lemma is_str_true (v : JsVal) (lit : string) : is_str v lit = true <-> v = JStr lit.
Proof.
  destruct v; simpl; try (split; [discriminate | intro H; discriminate H]).
  rewrite String.eqb_eq. split; [now intros -> | now intros [= ->]].
Qed.

(** C5, as the code has it: the answer depends on the mode and the host
    only; in mode [local] it is true for every host, in mode [ssh] false for
    every host, and in mode [auto] true exactly when the host is the text
    [127.0.0.1] or the text [localhost] (so true for [127.0.0.1] and false
    for [203.0.113.9]); no other spelling of a loopback address counts. *)
Theorem shouldRunOpenClawLocally_modes (cfg : Config) (host : JsVal) :
  (OPENMAX_OPENCLAW_EXECUTION cfg = "local" -> shouldRunOpenClawLocally cfg host = true) /\
  (OPENMAX_OPENCLAW_EXECUTION cfg = "ssh" -> shouldRunOpenClawLocally cfg host = false) /\
  (OPENMAX_OPENCLAW_EXECUTION cfg = "auto" ->
     (shouldRunOpenClawLocally cfg host = true <->
      host = JStr "127.0.0.1" \/ host = JStr "localhost") /\
     shouldRunOpenClawLocally cfg (JStr "127.0.0.1") = true /\
     shouldRunOpenClawLocally cfg (JStr "203.0.113.9") = false) /\
  (forall cfg' : Config,
     OPENMAX_OPENCLAW_EXECUTION cfg' = OPENMAX_OPENCLAW_EXECUTION cfg ->
     shouldRunOpenClawLocally cfg' host = shouldRunOpenClawLocally cfg host).
Proof.
  unfold shouldRunOpenClawLocally.
  repeat split.
  - now intros ->.
  - now intros ->.
  - rewrite H. cbn [String.eqb Ascii.eqb Bool.eqb]. rewrite orb_true_iff, !is_str_true. tauto.
  - rewrite H. cbn [String.eqb Ascii.eqb Bool.eqb]. rewrite orb_true_iff, !is_str_true. tauto.
  - now rewrite H.
  - now rewrite H.
  - intros cfg' ->. reflexivity.
Qed.

(** In mode [auto] the IPv6 loopback address is run over SSH. *)
Lemma auto_mode_not_every_loopback :
  ~ (shouldRunOpenClawLocally (sample_cfg "auto" false) (JStr "::1") = true
     <-> spec_loopback "::1" = true).
Proof.
  intros [_ H]. specialize (H eq_refl). discriminate H.
Qed.

Lemma shouldRunOpenClawLocally_modes_witness :
  shouldRunOpenClawLocally (sample_cfg "local" false) (JStr "203.0.113.9") = true /\
  shouldRunOpenClawLocally (sample_cfg "ssh" false) (JStr "127.0.0.1") = false /\
  shouldRunOpenClawLocally (sample_cfg "auto" false) (JStr "localhost") = true.
Proof.
  split; [| split].
  - exact (proj1 (shouldRunOpenClawLocally_modes (sample_cfg "local" false)
                    (JStr "203.0.113.9")) eq_refl).
  - exact (proj1 (proj2 (shouldRunOpenClawLocally_modes (sample_cfg "ssh" false)
                    (JStr "127.0.0.1"))) eq_refl).
  - exact (proj2 (proj1 (proj1 (proj2 (proj2 (shouldRunOpenClawLocally_modes
                    (sample_cfg "auto" false) (JStr "localhost")))) eq_refl))
                 (or_intror eq_refl)).
Defined.

(** ** Quoting *)

Lemma append_assoc (a b c : string) : (a ++ b) ++ c = a ++ (b ++ c).
Proof. induction a as [| x a IH]; simpl; [reflexivity | now rewrite IH]. Qed.

Lemma push_append (cur : string) (c : ascii) (r : string) :
  Posix.push cur c ++ r = cur ++ String c r.
Proof. unfold Posix.push. now rewrite append_assoc. Qed.

Lemma append_empty (a : string) : a ++ "" = a.
Proof. induction a as [| x a IH]; simpl; [reflexivity | now rewrite IH]. Qed.

Lemma words_close (cur : string) (out : list string) (r : string) :
  Posix.words (Posix.Quoted cur) out (String "'" r) = Posix.words (Posix.Word cur) out r.
Proof. reflexivity. Qed.

Lemma words_backslash (cur : string) (out : list string) (r : string) :
  Posix.words (Posix.Word cur) out (String "\" r) = Posix.words (Posix.Escaped cur) out r.
Proof. reflexivity. Qed.

Lemma words_escaped_quote (cur : string) (out : list string) (r : string) :
  Posix.words (Posix.Escaped cur) out (String "'" r)
  = Posix.words (Posix.Word (Posix.push cur "'")) out r.
Proof. reflexivity. Qed.

Lemma words_open (cur : string) (out : list string) (r : string) :
  Posix.words (Posix.Word cur) out (String "'" r) = Posix.words (Posix.Quoted cur) out r.
Proof. reflexivity. Qed.

(** Inside single quotes the escaped text is read back character by
    character, and the closing quote ends the quoted part. *)
Lemma words_quoted (s : string) :
  forall (cur : string) (out : list string) (rest : string),
    Posix.words (Posix.Quoted cur) out (replace_all "'" "'\''" s ++ String "'" rest)
    = Posix.words (Posix.Word (cur ++ s)) out rest.
Proof.
  induction s as [| c s IH]; intros cur out rest.
  - cbn [replace_all append]. rewrite words_close. now rewrite append_empty.
  - cbn [replace_all]. destruct (Ascii.eqb c "'") eqn:Hc.
    + apply Ascii.eqb_eq in Hc. subst c.
      rewrite append_assoc. cbn [append].
      rewrite words_close, words_backslash, words_escaped_quote, words_open.
      rewrite IH. now rewrite push_append.
    + cbn [append Posix.words]. rewrite Hc. rewrite IH. now rewrite push_append.
Qed.

Section Quoting.
Context {fmt : NumberFormat}.

Lemma quoteForShell_text (s : string) :
  quoteForShell (JStr s) = Ret ("'" ++ replace_all "'" "'\''" s ++ "'").
Proof. reflexivity. Qed.

Lemma split_quoted (s : string) :
  Posix.split ("'" ++ replace_all "'" "'\''" s ++ "'") = Some [s].
Proof.
  unfold Posix.split. cbn [append Posix.words Posix.blank Ascii.eqb Bool.eqb orb].
  cbn.
  rewrite words_quoted. reflexivity.
Qed.

Lemma split_remote (s : string) :
  Posix.split ("bash -lc " ++ "'" ++ replace_all "'" "'\''" s ++ "'")
  = Some ["bash"; "-lc"; s].
Proof.
  unfold Posix.split. cbn.
  rewrite words_quoted. reflexivity.
Qed.

End Quoting.

(** ** The command runners *)

Section Runners.
Context {fmt : NumberFormat}.
Variable env : ProcessEnv.
Variable w : World.

Lemma runLocally_run (command : JsVal) (tr : list Event) :
  runLocally env w command tr =
    (Ret (settle "Unknown local execution error"
            (execFileAsync w "bash" [JStr "-lc"; command] (local_options env))),
     (tr ++ [ EvRunLocally command;
              EvExecFile "bash" [JStr "-lc"; command] (local_options env) ])%list).
Proof.
  unfold runLocally, bind, emit, ret. now rewrite <- app_assoc.
Qed.

Lemma runOverSsh_run (host user password command : JsVal) (q : string)
    (base : list JsVal) (tr : list Event) :
  quoteForShell command = Ret q ->
  buildSshArgs host user ("bash -lc " ++ q) = Ret base ->
  runOverSsh env w host user password command tr =
    (Ret (settle "Unknown SSH error"
            (execFileAsync w (execCommand password) (execArgs password base)
               (ssh_options env))),
     (tr ++ [ EvRunOverSsh host user password command;
              EvExecFile (execCommand password) (execArgs password base)
                (ssh_options env) ])%list).
Proof.
  intros Hq Hb. unfold runOverSsh, bind, emit, ret, lift.
  rewrite Hq, Hb. unfold execCommand, execArgs. now rewrite <- app_assoc.
Qed.

Lemma buildSshArgs_last (host user : JsVal) (h u rc : string) :
  ToString host = Ret h -> ToString user = Ret u ->
  buildSshArgs host user rc =
    Ret ([ JStr "-o"; JStr "StrictHostKeyChecking=no";
           JStr "-o"; JStr "UserKnownHostsFile=/dev/null";
           JStr "-o"; JStr "ConnectTimeout=15"; JStr (u ++ "@" ++ h) ] ++ [JStr rc])%list.
Proof.
  intros Hh Hu. unfold buildSshArgs. now rewrite Hu, Hh.
Qed.

(** C9: [quoteForShell] wraps the text in single quotes and writes each
    single quote of it as ['\''] ; a POSIX shell reads the result back as the
    one word [s]; the remote command is [bash -lc] followed by the quoted
    text, which the remote shell reads as the three words [bash], [-lc] and
    [s]; and it is the last argument [runOverSsh] hands to the transport. *)
Theorem quoteForShell_roundtrip (s : string) :
  let q := "'" ++ replace_all "'" "'\''" s ++ "'" in
  quoteForShell (JStr s) = Ret q /\
  Posix.split q = Some [s] /\
  Posix.split ("bash -lc " ++ q) = Some ["bash"; "-lc"; s] /\
  forall (host user password : JsVal) (h u : string) (tr : list Event),
    ToString host = Ret h -> ToString user = Ret u ->
    exists (file : string) (args : list JsVal) (r : ExecutionResult),
      runOverSsh env w host user password (JStr s) tr =
        (Ret r,
         (tr ++ [ EvRunOverSsh host user password (JStr s);
                  EvExecFile file (args ++ [JStr ("bash -lc " ++ q)]) (ssh_options env) ])%list).
Proof.
  intro q. split; [reflexivity |]. split; [apply split_quoted |].
  split; [apply split_remote |].
  intros host user password h u tr Hh Hu.
  pose proof (buildSshArgs_last host user h u ("bash -lc " ++ q) Hh Hu) as Hb.
  rewrite (runOverSsh_run host user password (JStr s) q _ tr eq_refl Hb).
  unfold execArgs, execCommand. destruct (truthy password).
  - eexists _, _, _. rewrite app_assoc. reflexivity.
  - eexists _, _, _. reflexivity.
Qed.

(** The shape of a failure result. *)
Lemma failure_shape (e : ExecError) (unknown : string) :
  success (failure e unknown) = false /\
  error (failure e unknown) = JStr (exec_message e) /\
  exitCode (failure e unknown) =
    match exec_code e with
    | CodeExit n => JNum n 0
    | _ => JNum 1 0
    end.
Proof. repeat split. Qed.

(** C6: a rejected child process call is caught inside the runner, which
    returns the failure result: [success] false, [error] the message of the
    rejection, [exitCode] the exit code when the rejection carries an integer
    and 1 otherwise. *)
Theorem runner_failure_is_structured (e : ExecError) :
  (forall (command : JsVal) (tr : list Event),
     execFileAsync w "bash" [JStr "-lc"; command] (local_options env) = ExecRejected e ->
     exists tr',
       runLocally env w command tr =
         (Ret (failure e "Unknown local execution error"), tr')) /\
  (forall (host user password command : JsVal) (q : string) (base : list JsVal)
          (tr : list Event),
     quoteForShell command = Ret q ->
     buildSshArgs host user ("bash -lc " ++ q) = Ret base ->
     execFileAsync w (execCommand password) (execArgs password base) (ssh_options env)
       = ExecRejected e ->
     exists tr',
       runOverSsh env w host user password command tr =
         (Ret (failure e "Unknown SSH error"), tr')) /\
  (forall unknown : string,
     success (failure e unknown) = false /\
     error (failure e unknown) = JStr (exec_message e) /\
     exitCode (failure e unknown) =
       match exec_code e with
       | CodeExit n => JNum n 0
       | _ => JNum 1 0
       end).
Proof.
  split; [| split].
  - intros command tr Hrej. rewrite runLocally_run, Hrej. eexists. reflexivity.
  - intros host user password command q base tr Hq Hb Hrej.
    rewrite (runOverSsh_run _ _ _ _ q base tr Hq Hb), Hrej. eexists. reflexivity.
  - apply failure_shape.
Qed.

Lemma js_or_text (o : option string) (fallback : string) :
  exists s, js_or (opt_text o) (JStr fallback) = JStr s.
Proof.
  destruct o as [s |]; unfold js_or; simpl; [| now eexists].
  destruct (String.eqb s ""); simpl; now eexists.
Qed.

Lemma js_or_str (a b : string) : exists s, js_or (JStr a) (JStr b) = JStr s.
Proof. unfold js_or; simpl. destruct (String.eqb a ""); simpl; now eexists. Qed.

Lemma settle_invariant (unknown : string) (o : ExecOutcome) :
  (forall e, o = ExecRejected e -> exec_code e <> CodeExit 0) ->
  result_invariant (settle unknown o).
Proof.
  intro Hcode. destruct o as [out err | e]; unfold result_invariant; cbn [settle].
  - cbn [completed success exitCode stdout stderr error].
    repeat split; try reflexivity; try discriminate; try apply js_or_str.
    intros [msg Hmsg]. discriminate Hmsg.
  - cbn [failure success exitCode stdout stderr error].
    specialize (Hcode e eq_refl).
    split; [| split; [| split; [| split]]].
    + split; [discriminate |]. intro H. exfalso.
      destruct (exec_code e) as [n | | |]; cbn in H; try discriminate H.
      injection H as ->. now apply Hcode.
    + apply js_or_text.
    + destruct (js_or_text (exec_stderr e) (exec_message e)) as [s ->].
      apply js_or_str.
    + split; [now eexists | reflexivity].
    + split; discriminate.
Qed.

(** C10: under the platform's rule that a call is rejected only when the
    child did not exit with code zero, every result a runner returns has
    [success] true exactly when [exitCode] is 0, texts for [stdout] and
    [stderr], and an [error] exactly when [success] is false. *)
Theorem runner_result_invariant (r : ExecutionResult) :
  rejects_nonzero w -> produced env w r -> result_invariant r.
Proof.
  intros Hplat [(command & tr & tr' & Hrun) | (host & user & password & command & tr & tr' & Hrun)].
  - rewrite runLocally_run in Hrun. injection Hrun as <- _.
    apply settle_invariant. intros e He. exact (Hplat _ _ _ e He).
  - unfold runOverSsh, bind, emit, lift, ret in Hrun.
    destruct (quoteForShell command) as [q | err]; [| discriminate Hrun].
    destruct (buildSshArgs host user ("bash -lc " ++ q)) as [base | err];
      [| discriminate Hrun].
    injection Hrun as <- _.
    apply settle_invariant. intros e He. exact (Hplat _ _ _ e He).
Qed.

End Runners.

Lemma quoteForShell_roundtrip_witness :
  exists (file : string) (args : list JsVal) (r : ExecutionResult),
    runOverSsh sample_env (sample_world unreachable command_not_found) (JStr "203.0.113.9") (JStr "root") (JStr "s3cret")
               (JStr "echo 'it works'") [] =
      (Ret r,
       [ EvRunOverSsh (JStr "203.0.113.9") (JStr "root") (JStr "s3cret")
                      (JStr "echo 'it works'");
         EvExecFile file
           (args ++ [JStr "bash -lc 'echo '\''it works'\'''"]) (ssh_options sample_env) ])%list.
Proof.
  exact (proj2 (proj2 (proj2 (quoteForShell_roundtrip sample_env
                  (sample_world unreachable command_not_found) "echo 'it works'")))
           (JStr "203.0.113.9") (JStr "root") (JStr "s3cret") "203.0.113.9" "root" []
           eq_refl eq_refl).
Defined.


Lemma runner_failure_is_structured_witness :
  exists tr',
    runLocally sample_env (sample_world unreachable spawn_failed)
               (JStr "echo ok") [] =
      (Ret (failure (mkExecError "spawn bash ENOENT" (CodeName "ENOENT") None None)
                    "Unknown local execution error"), tr').
Proof.
  exact (proj1 (runner_failure_is_structured sample_env
                  (sample_world unreachable spawn_failed)
                  (mkExecError "spawn bash ENOENT" (CodeName "ENOENT") None None))
           (JStr "echo ok") [] eq_refl).
Defined.

Lemma sample_rejects_nonzero :
  rejects_nonzero (sample_world unreachable command_not_found).
Proof.
  intros file args opts e He. cbn in He. injection He as <-. cbn. discriminate.
Defined.

Lemma runner_result_invariant_witness :
  result_invariant
    (failure (mkExecError "Command failed: ssh" (CodeExit 127) (Some "")
                          (Some "bash: undefined: command not found"))
             "Unknown local execution error").
Proof.
  apply (runner_result_invariant sample_env
           (sample_world unreachable command_not_found) _ sample_rejects_nonzero).
  left. exists (JStr "undefined"), [].
  eexists. apply runLocally_run.
Defined.

(** ** Reasoning about handler runs *)

Lemma ensures_ret {A : Type} (a : A) (P : A -> Prop) : P a -> ensures (ret a) P.
Proof. intros H tr. exact H. Qed.

Lemma ensures_any {A : Type} (m : M A) : ensures m (fun _ => True).
Proof. intro tr. now destruct (fst (m tr)). Qed.

Lemma ensures_bind {A B : Type} (m : M A) (k : A -> M B)
    (Q : A -> Prop) (P : B -> Prop) :
  ensures m Q -> (forall a, Q a -> ensures (k a) P) -> ensures (bind m k) P.
Proof.
  intros Hm Hk tr. unfold bind. specialize (Hm tr).
  destruct (m tr) as [[a | e] tr']; cbn [fst] in *; [| exact I].
  exact (Hk a Hm tr').
Qed.


Lemma ensures_try_catch {A : Type} (m : M A) (handler : JsError -> M A)
    (P : A -> Prop) :
  ensures m P -> (forall e, ensures (handler e) P) -> ensures (try_catch m handler) P.
Proof.
  intros Hm Hh tr. unfold try_catch. specialize (Hm tr).
  destruct (m tr) as [[a | e] tr']; cbn [fst] in *; [exact Hm | apply Hh].
Qed.

Lemma returns_ensures {A : Type} (m : M A) (P : A -> Prop) :
  returns m P -> ensures m P.
Proof. intros H tr. destruct (H tr) as (a & tr' & -> & Ha). exact Ha. Qed.

Lemma returns_try_catch {A : Type} (m : M A) (handler : JsError -> M A)
    (P : A -> Prop) :
  ensures m P -> (forall e, returns (handler e) P) -> returns (try_catch m handler) P.
Proof.
  intros Hm Hh tr. unfold try_catch. specialize (Hm tr).
  destruct (m tr) as [[a | e] tr']; cbn [fst] in *; [now exists a, tr' | apply Hh].
Qed.


Lemma get_str_object (v : JsVal) (name s : string) :
  get v name = Ret (JStr s) -> truthy v = true.
Proof. destruct v; cbn; try discriminate; reflexivity. Qed.

Section Handlers.
Context {fmt : NumberFormat}.
Variable cfg : Config.
Variable env : ProcessEnv.
Variable w : World.

(** The model call records one [fetch]; what it returns does not depend on
    the events recorded before. *)
Lemma ollamaChat_run (model : JsVal) (messages : list ChatMessage)
    (options : JsVal) (tr : list Event) :
  ollamaChat cfg w model messages options tr =
    (fst (ollamaChat cfg w model messages options []),
     (tr ++ [EvFetch (chat_url cfg) (chat_request cfg model messages options)])%list).
Proof.
  unfold ollamaChat, bind, emit, lift, ret. cbn [app].
  destruct (fetch w _ _ _) as [e | response]; [reflexivity |].
  destruct (negb (ok response)); [reflexivity |].
  destruct (body_text response) as [body | e]; [| reflexivity].
  destruct (Json.parse body) as [data |]; [| reflexivity].
  destruct (negb (truthy data)); [reflexivity |].
  destruct (get data "message") as [message | e]; [| reflexivity].
  destruct (negb (truthy message)); [reflexivity |].
  destruct (get message "content") as [c | e]; [| reflexivity].
  destruct c; reflexivity.
Qed.




(** *** Decision parsing *)

Lemma wrapped_decision_parsed :
  Json.parse wrapped_decision = None /\
  safeJsonParse wrapped_decision = JObj [("action", JStr "respond"); ("text", JStr "Hi")].
Proof. split; vm_compute; reflexivity. Qed.

(** C4: [safeJsonParse] returns the strict parse when it succeeds;
    otherwise the parse of the text from the first opening brace to the last
    closing brace; otherwise [null], and the handler then answers [respond]
    with the raw reply (which is the [assistant] text unless it is empty).
    The wrapped reply of the specification parses to the [respond] decision
    with text [Hi], and the handler answers [Hi]. *)
Theorem safeJsonParse_recovery (body : JsVal) (history : list MessageRow) :
  (forall text v, Json.parse text = Some v -> safeJsonParse text = v) /\
  (forall text,
     Json.parse text = None ->
     let start := indexOf "{" text in
     let end_ := lastIndexOf "}" text in
     (0 <= start /\ start < end_ ->
        forall v, Json.parse (slice text start (end_ + 1)) = Some v ->
                  safeJsonParse text = v) /\
     (0 <= start /\ start < end_ ->
        Json.parse (slice text start (end_ + 1)) = None ->
        safeJsonParse text = JNull) /\
     (~ (0 <= start /\ start < end_) -> safeJsonParse text = JNull)) /\
  (forall raw tr,
     safeJsonParse raw = JNull ->
     actOnDecision cfg env w body history raw tr =
       (Ret (json [ ("action", JStr "respond");
                    ("assistant",
                     js_or (JStr raw)
                           (JStr "I could not decide an action, but I am ready."));
                    ("raw", JStr raw) ]), tr) /\
     (raw <> "" ->
      js_or (JStr raw) (JStr "I could not decide an action, but I am ready.")
      = JStr raw)) /\
  Json.parse wrapped_decision = None /\
  safeJsonParse wrapped_decision
    = JObj [("action", JStr "respond"); ("text", JStr "Hi")] /\
  (forall tr,
     actOnDecision cfg env w body history wrapped_decision tr =
       (Ret (json [ ("action", JStr "respond");
                    ("assistant", JStr "Hi");
                    ("raw", JStr wrapped_decision) ]), tr)).
Proof.
  split; [| split; [| split; [| split; [| split]]]].
  - intros text v H. unfold safeJsonParse. now rewrite H.
  - intros text H start end_. unfold safeJsonParse. rewrite H.
    fold start. fold end_.
    split; [| split].
    + intros [H0 H1] v Hv.
      apply Z.leb_le in H0. apply Z.ltb_lt in H1. now rewrite H0, H1, Hv.
    + intros [H0 H1] Hv.
      apply Z.leb_le in H0. apply Z.ltb_lt in H1. now rewrite H0, H1, Hv.
    + intro Hn. destruct (0 <=? start) eqn:H0; [| reflexivity].
      destruct (start <? end_) eqn:H1; [| reflexivity].
      exfalso. apply Hn. split; [now apply Z.leb_le | now apply Z.ltb_lt].
  - intros raw tr H. split.
    + unfold actOnDecision, bind, ret, lift. rewrite H. reflexivity.
    + intro Hne. unfold js_or. cbn [truthy].
      destruct (String.eqb raw "") eqn:E; [| reflexivity].
      apply String.eqb_eq in E. contradiction.
  - apply wrapped_decision_parsed.
  - apply wrapped_decision_parsed.
  - intro tr. unfold actOnDecision, bind, ret, lift.
    rewrite (proj2 wrapped_decision_parsed). reflexivity.
Qed.

(** *** Unknown skills *)

(** A [run_skill] decision whose key is found neither in the table nor in
    [Object.prototype] is answered with status 400, and nothing is run. *)
Lemma unknown_skill_rejected (body : JsVal) (history : list MessageRow)
    (raw key : string) (skillId : JsVal) (tr : list Event) :
  get (safeJsonParse raw) "action" = Ret (JStr "run_skill") ->
  get (safeJsonParse raw) "skillId" = Ret skillId ->
  ToString skillId = Ret key ->
  skills_get key = None ->
  actOnDecision cfg env w body history raw tr =
    (Ret (status_json 400 [ ("error", JStr ("Unknown skillId: " ++ key));
                            ("raw", JStr raw) ]), tr).
Proof.
  intros Ha Hs Hk Hnone.
  pose proof (get_str_object _ _ _ Ha) as Ht.
  unfold actOnDecision, bind, ret, lift.
  rewrite Ht, Ha, Hs, Hk, Hnone. reflexivity.
Qed.

(** *** Failure of the decision call *)

(** C7, as the code has it: when the decision call of the model throws, the
    handler catches the error and answers with status 500, the error text
    [Failed to process agent request] and the failure message as [detail];
    no runner is called and no process is started. *)
Theorem decision_failure_is_answered_500 (body : JsVal) (e : JsError)
    (tr : list Event) :
  decision_call_fails cfg w body e ->
  exists evs,
    brainAgent cfg env w body tr =
      (Ret (status_json 500 [ ("error", JStr "Failed to process agent request");
                              ("detail", message_or_string e) ]),
       (tr ++ evs)%list) /\
    runner_invocations evs = 0%nat /\
    processes_started evs = 0%nat.
Proof.
  intros (sessionId & conversation & conversationId & history & reqModel & reqOptions
          & Hsid & Htsid & Hconv & Htconv & Hid & Hhist & Hmodel & Hopts & Hfail).
  eexists. split.
  - unfold brainAgent, try_catch, bind, lift, emit, ret.
    rewrite Hsid, Htsid. cbn [negb]. rewrite Hconv, Htconv. cbn [negb].
    rewrite Hid, Hhist, Hmodel, Hopts.
    rewrite ollamaChat_run, Hfail.
    rewrite <- !app_assoc. cbn [app]. reflexivity.
  - split; reflexivity.
Qed.

(** *** The summarizers *)

Lemma includes_here (needle rest : string) : includes needle (needle ++ rest) = true.
Proof.
  assert (H : String.prefix needle (needle ++ rest) = true).
  { induction needle as [| c n IH]; cbn; [now destruct rest |].
    destruct (Ascii.ascii_dec c c) as [_ | Hc]; [exact IH | now elim Hc]. }
  destruct needle; cbn in *; [now destruct rest | now rewrite H].
Qed.










(** *** The agent endpoint as a whole *)













End Handlers.

(** ** Concrete runs *)

(** C2: the model names [constructor], which is no skill of the table; the
    read [OPENCLAW_SKILLS['constructor']] finds [Object.prototype.constructor],
    the handler takes it for a skill and calls [runOverSsh], which starts
    [sshpass] with the remote command [bash -lc 'undefined']; the reply is a
    [run_skill] response with status 200, not an error. *)
Lemma constructor_skill_is_run :
  assoc "constructor" OPENCLAW_SKILLS = None /\
  valid_session (sample_world (replies reply_constructor) command_not_found) sample_body /\
  exists r tr,
    brainAgent (sample_cfg "auto" false) sample_env
               (sample_world (replies reply_constructor) command_not_found)
               sample_body [] = (Ret r, tr) /\
    res_status r = 200 /\
    field r "action" = JStr "run_skill" /\
    field r "skillId" = JStr "constructor" /\
    runner_invocations tr = 1%nat /\
    processes_started tr = 1%nat /\
    In (EvRunOverSsh (JStr "203.0.113.9") (JStr "root") (JStr "s3cret") JUndefined) tr.
Proof.
  split; [reflexivity |]. split.
  { exists (JStr "s-1"), (JObj [("id", JNum 1 0)]). repeat split. }
  eexists _, _. split; [vm_compute; reflexivity |].
  repeat split.
  cbn. tauto.
Qed.



Lemma safeJsonParse_recovery_witness :
  safeJsonParse (dq "{^action^:^respond^}") = JObj [("action", JStr "respond")].
Proof.
  exact (proj1 (safeJsonParse_recovery (sample_cfg "auto" false) sample_env
                  (sample_world unreachable spawn_failed) sample_body [])
           (dq "{^action^:^respond^}") (JObj [("action", JStr "respond")]) eq_refl).
Defined.

Lemma sample_decision_call_fails :
  decision_call_fails (sample_cfg "auto" false)
    (sample_world unreachable command_not_found) sample_body
    (mkError "TypeError" "fetch failed").
Proof.
  exists (JStr "s-1"), (JObj [("id", JNum 1 0)]), (JNum 1 0),
         [mkRow "user" "restart everything"], JUndefined, JUndefined.
  repeat split.
Defined.

(** When the model cannot be reached the reply is the error with status
    500: it is no [respond] answer. *)
Lemma decision_failure_is_no_respond :
  decision_call_fails (sample_cfg "auto" false)
    (sample_world unreachable command_not_found) sample_body
    (mkError "TypeError" "fetch failed") /\
  exists r tr,
    brainAgent (sample_cfg "auto" false) sample_env
               (sample_world unreachable command_not_found) sample_body []
      = (Ret r, tr) /\
    res_status r = 500 /\
    field r "action" <> JStr "respond".
Proof.
  split; [exact sample_decision_call_fails |].
  eexists _, _. split; [vm_compute; reflexivity |].
  split; [reflexivity | discriminate].
Qed.

Lemma decision_failure_is_answered_500_witness :
  exists evs,
    brainAgent (sample_cfg "auto" false) sample_env
               (sample_world unreachable command_not_found) sample_body []
      = (Ret (status_json 500 [ ("error", JStr "Failed to process agent request");
                                ("detail", JStr "fetch failed") ]),
         ([] ++ evs)%list) /\
    runner_invocations evs = 0%nat /\
    processes_started evs = 0%nat.
Proof.
  exact (decision_failure_is_answered_500 (sample_cfg "auto" false) sample_env
           (sample_world unreachable command_not_found) sample_body
           (mkError "TypeError" "fetch failed") [] sample_decision_call_fails).
Defined.




(** * Further properties *)

(** ** Events of a computation *)

Lemma emits_ret {A : Type} (a : A) (P : Outcome A -> list Event -> Prop) :
  P (Ret a) [] -> emits (ret a) P.
Proof. intros H tr. exists []. split; [now rewrite app_nil_r | exact H]. Qed.

Lemma emits_lift {A : Type} (o : Outcome A) (P : Outcome A -> list Event -> Prop) :
  P o [] -> emits (lift o) P.
Proof. intros H tr. exists []. split; [now rewrite app_nil_r | exact H]. Qed.

Lemma emits_emit (ev : Event) (P : Outcome unit -> list Event -> Prop) :
  P (Ret tt) [ev] -> emits (emit ev) P.
Proof. intros H tr. exists [ev]. split; [reflexivity | exact H]. Qed.

Lemma emits_weaken {A : Type} (m : M A) (P Q : Outcome A -> list Event -> Prop) :
  emits m P -> (forall o evs, P o evs -> Q o evs) -> emits m Q.
Proof.
  intros Hm HPQ tr. destruct (Hm tr) as (evs & Hs & HP). exists evs. auto.
Qed.

Lemma emits_bind {A B : Type} (m : M A) (k : A -> M B)
    (P : Outcome A -> list Event -> Prop) (Q : Outcome B -> list Event -> Prop) :
  emits m P ->
  (forall e evs, P (Throw e) evs -> Q (Throw e) evs) ->
  (forall a evs, P (Ret a) evs -> emits (k a) (fun o evs' => Q o (evs ++ evs')%list)) ->
  emits (bind m k) Q.
Proof.
  intros Hm He Hk tr. unfold bind. destruct (Hm tr) as (evs & Hs & HP).
  destruct (m tr) as [[a | e] tr1]; cbn [fst snd] in *; subst tr1.
  - destruct (Hk a evs HP (tr ++ evs)%list) as (evs' & Hs' & HQ).
    exists (evs ++ evs')%list. split; [now rewrite app_assoc | exact HQ].
  - exists evs. split; [reflexivity | now apply He].
Qed.

Lemma emits_bind_lift {A B : Type} (o : Outcome A) (k : A -> M B)
    (Q : Outcome B -> list Event -> Prop) :
  (forall e, o = Throw e -> Q (Throw e) []) ->
  (forall a, o = Ret a -> emits (k a) Q) ->
  emits (bind (lift o) k) Q.
Proof.
  intros He Hk. apply emits_bind with (P := fun o' evs => o' = o /\ evs = []).
  - now apply emits_lift.
  - intros e evs [<- ->]. now apply He.
  - intros a evs [<- ->]. now apply Hk.
Qed.

Lemma emits_bind_emit {B : Type} (ev : Event) (k : unit -> M B)
    (Q : Outcome B -> list Event -> Prop) :
  emits (k tt) (fun o evs => Q o (ev :: evs)) ->
  emits (bind (emit ev) k) Q.
Proof.
  intro Hk. apply emits_bind with (P := fun o evs => o = Ret tt /\ evs = [ev]).
  - now apply emits_emit.
  - intros e evs [H _]. discriminate H.
  - intros [] evs [_ ->]. exact Hk.
Qed.

Lemma emits_try_catch {A : Type} (m : M A) (handler : JsError -> M A)
    (P Q : Outcome A -> list Event -> Prop) :
  emits m P ->
  (forall a evs, P (Ret a) evs -> Q (Ret a) evs) ->
  (forall e evs, P (Throw e) evs ->
                 emits (handler e) (fun o evs' => Q o (evs ++ evs')%list)) ->
  emits (try_catch m handler) Q.
Proof.
  intros Hm Hr Hh tr. unfold try_catch. destruct (Hm tr) as (evs & Hs & HP).
  destruct (m tr) as [[a | e] tr1]; cbn [fst snd] in *; subst tr1.
  - exists evs. split; [reflexivity | now apply Hr].
  - destruct (Hh e evs HP (tr ++ evs)%list) as (evs' & Hs' & HQ).
    exists (evs ++ evs')%list. split; [now rewrite app_assoc | exact HQ].
Qed.

(** ** Events of the handlers *)

Section HandlerEvents.
Context {fmt : NumberFormat}.
Variable cfg : Config.
Variable env : ProcessEnv.
Variable w : World.

Lemma runOverSsh_emits (h u p c : JsVal) :
  emits (runOverSsh env w h u p c)
    (fun o evs =>
       ((exists e, o = Throw e) /\ evs = [EvRunOverSsh h u p c]) \/
       exists q base,
         quoteForShell c = Ret q /\
         buildSshArgs h u ("bash -lc " ++ q) = Ret base /\
         o = Ret (settle "Unknown SSH error"
                    (execFileAsync w (execCommand p) (execArgs p base) (ssh_options env))) /\
         evs = [ EvRunOverSsh h u p c;
                 EvExecFile (execCommand p) (execArgs p base) (ssh_options env) ]).
Proof.
  intro tr. destruct (quoteForShell c) as [q | e] eqn:Hq.
  - destruct (buildSshArgs h u ("bash -lc " ++ q)) as [base | e] eqn:Hb.
    + rewrite (runOverSsh_run env w h u p c q base tr Hq Hb). eexists. split; [reflexivity |].
      right. exists q, base. now repeat split.
    + unfold runOverSsh, bind, emit, lift, ret. rewrite Hq, Hb. cbn [fst snd].
      eexists. split; [reflexivity |]. left. split; [now exists e | reflexivity].
  - unfold runOverSsh, bind, emit, lift, ret. rewrite Hq. cbn [fst snd].
    eexists. split; [reflexivity |]. left. split; [now exists e | reflexivity].
Qed.

Lemma route_and_run_emits (body : JsVal) (skill : SkillRef) :
  emits (route_and_run cfg env w body skill) (routed cfg env w body skill).
Proof.
  unfold route_and_run. apply emits_bind_lift.
  { intros e He. left. now split. }
  intros ssh Hssh.
  assert (Hremote :
    shouldRunOpenClawLocally cfg (host ssh) = false ->
    truthy (password ssh) = true \/
      truthy (env_value (OPENMAX_ALLOW_KEY_AUTH env)) = true ->
    emits
      (bind (runOverSsh env w (host ssh) (user ssh) (password ssh) (ref_command skill))
            (fun execution => ret (inr (ssh, execution))))
      (routed cfg env w body skill)).
  { intros Hlocal Hauth. apply emits_bind with (1 := runOverSsh_emits _ _ _ _).
    - intros e evs [[_ ->] | (q & base & _ & _ & H & _)]; [| discriminate H].
      right. exists ssh. now repeat split.
    - intros x evs [[[e H] _] | (q & base & Hq & Hb & [= ->] & ->)]; [discriminate H |].
      apply emits_ret. rewrite app_nil_r. split; [exact Hssh |]. right.
      split; [exact Hlocal |]. split; [exact Hauth |]. now exists q, base. }
  destruct (shouldRunOpenClawLocally cfg (host ssh)) eqn:Hlocal; cbn [negb andb].
  - apply emits_bind
      with (P := fun o evs =>
                   o = Ret (settle "Unknown local execution error"
                              (execFileAsync w "bash" [JStr "-lc"; ref_command skill]
                                 (local_options env))) /\
                   evs = [ EvRunLocally (ref_command skill);
                           EvExecFile "bash" [JStr "-lc"; ref_command skill]
                                      (local_options env) ]).
    + intro tr. rewrite runLocally_run. eexists. now split.
    + intros e evs [H _]. discriminate H.
    + intros x evs [[= ->] ->]. apply emits_ret. rewrite app_nil_r.
      split; [exact Hssh |]. left. now repeat split.
  - destruct (truthy (password ssh)) eqn:Hpw; cbn [negb andb].
    + apply Hremote; [reflexivity | now left].
    + destruct (truthy (env_value (OPENMAX_ALLOW_KEY_AUTH env))) eqn:Hkey; cbn [negb].
      * apply Hremote; [reflexivity | now right].
      * apply emits_ret. split; [reflexivity |]. split; [reflexivity |].
        now exists ssh.
Qed.

Lemma ran_run_events (skill : SkillRef) (ssh : SshConfig) (x : ExecutionResult)
    (evs : list Event) :
  ran cfg env w skill ssh x evs -> run_events cfg env skill ssh evs.
Proof.
  intros [(Hl & -> & _) | (Hl & Hauth & q & base & Hq & Hb & -> & _)].
  - left. now split.
  - right. split; [exact Hl |]. split; [exact Hauth |]. right. now exists q, base.
Qed.

Lemma interrupted_run_events (body : JsVal) (skill : SkillRef) (evs : list Event) :
  interrupted cfg env body skill evs ->
  forall ssh, resolveSshConfig cfg env body = Ret ssh ->
              run_events cfg env skill ssh evs.
Proof.
  intros (ssh' & Hssh' & Hl & Hauth & ->) ssh Hssh.
  rewrite Hssh in Hssh'. injection Hssh' as <-.
  right. split; [exact Hl |]. split; [exact Hauth | now left].
Qed.

Lemma ran_counts (skill : SkillRef) (ssh : SshConfig) (x : ExecutionResult)
    (evs : list Event) :
  ran cfg env w skill ssh x evs ->
  runner_invocations evs = 1%nat /\ processes_started evs = 1%nat.
Proof.
  intros [(_ & -> & _) | (_ & _ & q & base & _ & _ & -> & _)]; now split.
Qed.

Lemma ollamaChat_emits (model : JsVal) (messages : list ChatMessage) (options : JsVal) :
  emits (ollamaChat cfg w model messages options)
    (fun o evs =>
       evs = [EvFetch (chat_url cfg) (chat_request cfg model messages options)] /\
       o = fst (ollamaChat cfg w model messages options [])).
Proof.
  intro tr. rewrite ollamaChat_run. eexists. split; [reflexivity |]. now split.
Qed.

Lemma summarizeOrFallback_emits (body : JsVal) (skill : SkillRef)
    (sshConfig : SshConfig) (summarizeUser : string) :
  emits (summarizeOrFallback cfg w body skill sshConfig summarizeUser)
    (fun _ evs => evs = [] \/ exists url req, evs = [EvFetch url req]).
Proof.
  unfold summarizeOrFallback.
  apply emits_try_catch
    with (P := fun _ evs => evs = [] \/ exists url req, evs = [EvFetch url req]).
  - apply emits_bind_lift; [now left |]. intros m _.
    eapply emits_weaken; [apply ollamaChat_emits |].
    intros o evs [-> _]. right. now eexists _, _.
  - auto.
  - intros e evs H. apply emits_lift. now rewrite app_nil_r.
Qed.

Lemma summarizeOrNull_emits (body : JsVal) (skill : SkillRef)
    (sshConfig : SshConfig) (execution : ExecutionResult) :
  emits (summarizeOrNull cfg w body skill sshConfig execution)
    (fun o evs => (exists v, o = Ret v /\ (v = JNull \/ exists s, v = JStr s)) /\
                  (evs = [] \/ exists url req, evs = [EvFetch url req])).
Proof.
  unfold summarizeOrNull.
  apply emits_try_catch
    with (P := fun o evs =>
                 (forall v, o = Ret v -> exists s, v = JStr s) /\
                 (evs = [] \/ exists url req, evs = [EvFetch url req])).
  - apply emits_bind_lift; [split; [discriminate | now left] |]. intros shown _.
    apply emits_bind_lift; [split; [discriminate | now left] |]. intros m _.
    eapply emits_bind; [apply ollamaChat_emits | |].
    + intros e evs [-> _]. split; [discriminate |]. right. now eexists _, _.
    + intros text evs [-> _]. apply emits_ret.
      split; [intros v [= <-]; now eexists |]. right. now eexists _, _.
  - intros a evs [Hv H]. split; [| exact H]. exists a. split; [reflexivity |].
    right. now apply Hv.
  - intros e evs [_ H]. apply emits_ret. rewrite app_nil_r.
    split; [| exact H]. exists JNull. split; [reflexivity | now left].
Qed.

Lemma count_app (p : Event -> bool) (a b : list Event) :
  length (filter p (a ++ b)) = (length (filter p a) + length (filter p b))%nat.
Proof. now rewrite filter_app, length_app. Qed.

(** One routed execution that returned a result called one runner and
    started one process; any routed execution called at most one of each. *)
Lemma run_events_counts (skill : SkillRef) (ssh : SshConfig) (evs : list Event) :
  run_events cfg env skill ssh evs ->
  runner_invocations evs = 1%nat /\ (processes_started evs <= 1)%nat /\
  model_calls evs = 0%nat /\ store_reads evs = 0%nat /\ evs <> [].
Proof.
  intros [[_ ->] | (_ & _ & [-> | (q & base & _ & _ & ->)])];
    repeat split; try discriminate; cbn; lia.
Qed.

Lemma act_post_quiet (body : JsVal) (r : Response) :
  ~ skill_reply r -> act_post cfg env body (Ret r) [].
Proof.
  intro H. split; [now left |]. intros r' [= <-]. left. now split.
Qed.

Lemma act_post_throw (body : JsVal) (e : JsError) (evs : list Event) :
  acted cfg env body evs -> act_post cfg env body (Throw e) evs.
Proof. intro H. split; [exact H |]. intros r Hr. discriminate Hr. Qed.

Lemma fetch_counts (fevs : list Event) :
  fevs = [] \/ (exists url req, fevs = [EvFetch url req]) ->
  runner_invocations fevs = 0%nat /\ processes_started fevs = 0%nat /\
  (model_calls fevs <= 1)%nat /\ store_reads fevs = 0%nat.
Proof. intros [-> | (url & req & ->)]; cbn; repeat split; lia. Qed.

Lemma actOnDecision_emits (body : JsVal) (history : list MessageRow) (raw : string) :
  emits (actOnDecision cfg env w body history raw) (act_post cfg env body).
Proof.
  unfold actOnDecision.
  assert (Hfirst : forall (A : Type) (o : Outcome A) (k : A -> M Response),
            (forall a, emits (k a) (act_post cfg env body)) ->
            emits (bind (lift o) k) (act_post cfg env body)).
  { intros A o k Hk. apply emits_bind_lift; [| now intros a _].
    intros e _. apply act_post_throw. now left. }
  assert (Hrespond : forall assistant,
            act_post cfg env body
              (Ret (json [ ("action", JStr "respond"); ("assistant", assistant);
                           ("raw", JStr raw) ])) []).
  { intro assistant. apply act_post_quiet. intros [_ H]. discriminate H. }
  apply emits_bind with (P := fun _ evs => evs = []).
  { destruct (truthy (safeJsonParse raw)); [now apply emits_lift | now apply emits_ret]. }
  { intros e evs ->. apply act_post_throw. now left. }
  intros action evs ->. cbn [app].
  destruct (_ || _); [apply emits_ret, Hrespond |].
  destruct (is_str action "respond").
  { apply Hfirst. intro text. cbv beta. apply emits_ret, Hrespond. }
  destruct (negb _); [apply emits_ret, Hrespond |].
  apply Hfirst. intro skillId. cbv beta. apply Hfirst. intro key. cbv beta.
  destruct (skills_get key) as [skill |] eqn:Hskill.
  2:{ apply emits_ret, act_post_quiet. intros [H _]. discriminate H. }
  eapply emits_bind; [apply route_and_run_emits | |].
  - intros e evs [[-> _] | Hint]; apply act_post_throw; [now left |].
    pose proof Hint as (ssh & Hssh & _).
    right. exists key, skill, ssh, evs, []. rewrite app_nil_r.
    split; [exact Hskill |]. split; [exact Hssh |].
    split; [exact (interrupted_run_events body skill evs Hint ssh Hssh) |].
    split; [now left | reflexivity].
  - intros [reply | [ssh x]] evs Hrouted.
    + destruct Hrouted as (-> & -> & _). apply emits_ret, act_post_quiet.
      intros [H _]. discriminate H.
    + destruct Hrouted as [Hssh Hran].
      pose proof (ran_run_events _ _ _ _ Hran) as Hev.
      pose proof (ran_counts _ _ _ _ Hran) as [Hrun Hproc].
      assert (Hacted : forall fevs,
                fevs = [] \/ (exists url req, fevs = [EvFetch url req]) ->
                acted cfg env body (evs ++ fevs)).
      { intros fevs Hf. right. exists key, skill, ssh, evs, fevs. repeat split; auto. }
      apply emits_bind_lift.
      { intros e _. rewrite app_nil_r. apply act_post_throw.
        rewrite <- (app_nil_r evs). apply Hacted. now left. }
      intros summarizeUser _.
      eapply emits_bind; [apply summarizeOrFallback_emits | |].
      * intros e fevs Hf. now apply act_post_throw, Hacted.
      * intros summary fevs Hf. apply emits_ret. rewrite app_nil_r.
        split; [now apply Hacted |]. intros r [= <-]. right.
        destruct (fetch_counts fevs Hf) as (Hf1 & Hf2 & _).
        split; [now split |]. unfold runner_invocations, processes_started in *.
        rewrite !count_app. lia.
Qed.

Lemma quiet_cons (ev : Event) (l : list Event) :
  quiet_event ev -> Forall quiet_event l -> Forall quiet_event (ev :: l).
Proof. now constructor. Qed.

(** The agent handler never throws, and what it leaves behind is [served]. *)
Lemma brainAgent_served (body : JsVal) :
  emits (brainAgent cfg env w body)
    (fun o evs => exists r, o = Ret r /\ served cfg env body r evs).
Proof.
  unfold brainAgent.
  apply emits_try_catch
    with (P := fun o evs =>
                 exists pre act,
                   evs = (pre ++ act)%list /\ Forall quiet_event pre /\
                   (store_reads pre <= 2)%nat /\ (model_calls pre <= 1)%nat /\
                   act_post cfg env body o act).
  - (* the body of the try block *)
    assert (Hquiet : forall (pre : list Event) (o : Outcome Response),
              Forall quiet_event pre ->
              (store_reads pre <= 2)%nat -> (model_calls pre <= 1)%nat ->
              match o with Ret r => ~ skill_reply r | Throw _ => True end ->
              exists pre' act,
                pre = (pre' ++ act)%list /\ Forall quiet_event pre' /\
                (store_reads pre' <= 2)%nat /\ (model_calls pre' <= 1)%nat /\
                act_post cfg env body o act).
    { intros pre o Hq Hs Hm Ho. exists pre, []. rewrite app_nil_r.
      split; [reflexivity |]. split; [exact Hq |].
      split; [exact Hs |]. split; [exact Hm |].
      destruct o as [r | e]; [now apply act_post_quiet | apply act_post_throw; now left]. }
    assert (Hthrow : forall (pre : list Event) (e : JsError),
              Forall quiet_event pre ->
              (store_reads pre <= 2)%nat -> (model_calls pre <= 1)%nat ->
              exists pre' act,
                pre = (pre' ++ act)%list /\ Forall quiet_event pre' /\
                (store_reads pre' <= 2)%nat /\ (model_calls pre' <= 1)%nat /\
                act_post cfg env body (Throw e) act).
    { intros pre e Hq Hs Hm. now apply Hquiet. }
    assert (Hreply : forall (pre : list Event) (code : Z) (members : list (string * JsVal)),
              code <> 200 ->
              Forall quiet_event pre ->
              (store_reads pre <= 2)%nat -> (model_calls pre <= 1)%nat ->
              exists pre' act,
                pre = (pre' ++ act)%list /\ Forall quiet_event pre' /\
                (store_reads pre' <= 2)%nat /\ (model_calls pre' <= 1)%nat /\
                act_post cfg env body (Ret (status_json code members)) act).
    { intros pre code members Hc Hq Hs Hm. apply Hquiet; try assumption.
      intros [H _]. now apply Hc. }
    apply emits_bind_lift.
    { intros e _. apply Hthrow; [constructor | cbn; lia | cbn; lia]. }
    intros sessionId _. destruct (negb (truthy sessionId)).
    { apply emits_ret, Hreply; [discriminate | constructor | cbn; lia | cbn; lia]. }
    apply emits_bind_emit.
    assert (Hq1 : Forall quiet_event [EvGetConversation sessionId]).
    { apply quiet_cons; [now split | constructor]. }
    apply emits_bind_lift.
    { intros e _. apply Hthrow; [exact Hq1 | cbn; lia | cbn; lia]. }
    intros conversation _. destruct (negb (truthy conversation)).
    { apply emits_ret, Hreply; [discriminate | exact Hq1 | cbn; lia | cbn; lia]. }
    apply emits_bind_lift.
    { intros e _. apply Hthrow; [exact Hq1 | cbn; lia | cbn; lia]. }
    intros conversationId _. apply emits_bind_emit.
    assert (Hq2 : Forall quiet_event
                    [EvGetConversation sessionId;
                     EvGetConversationMessages conversationId 30]).
    { repeat (apply quiet_cons; [now split |]). constructor. }
    apply emits_bind_lift.
    { intros e _. apply Hthrow; [exact Hq2 | cbn; lia | cbn; lia]. }
    intros history _. apply emits_bind_lift.
    { intros e _. apply Hthrow; [exact Hq2 | cbn; lia | cbn; lia]. }
    intros reqModel _. apply emits_bind_lift.
    { intros e _. apply Hthrow; [exact Hq2 | cbn; lia | cbn; lia]. }
    intros reqOptions _.
    eapply emits_bind; [apply ollamaChat_emits | |].
    + intros e evs [-> _]. apply Hthrow; [| cbn; lia | cbn; lia].
      repeat (apply quiet_cons; [now split |]). constructor.
    + intros decisionRaw evs [-> _].
      eapply emits_weaken; [apply actOnDecision_emits |].
      intros o act Hact. cbn [app].
      eexists [_; _; _], act. split; [reflexivity |].
      split; [repeat (apply quiet_cons; [now split |]); constructor |].
      split; [cbn; lia |]. split; [cbn; lia | exact Hact].
  - (* the try block returned *)
    intros r evs (pre & act & -> & Hq & Hs & Hm & Hacted & Hr).
    exists r. split; [reflexivity |]. exists pre, act, [].
    rewrite app_nil_r. split; [reflexivity |]. split; [exact Hq |].
    split; [exact Hs |]. split; [exact Hm |]. split; [exact Hacted |].
    split; [now left |].
    destruct (Hr r eq_refl) as [[-> Hn] | [Hs' Hc]]; [right | left]; auto.
  - (* the catch block *)
    intros e evs (pre & act & -> & Hq & Hs & Hm & Hacted & _).
    apply emits_bind_emit, emits_ret. eexists. split; [reflexivity |].
    exists pre, act, [EvConsoleError "Error in /api/brain/agent:" e].
    rewrite <- app_assoc. split; [reflexivity |]. split; [exact Hq |].
    split; [exact Hs |]. split; [exact Hm |]. split; [exact Hacted |].
    split; [right; now eexists _, _ |].
    right. split; [| now right]. intros [H _]. discriminate H.
Qed.

(** The skill endpoint never throws, and what it leaves behind is
    [skill_served]. *)
Lemma runSkill_served (skillId : string) (body : JsVal) :
  emits (runSkill cfg env w skillId body)
    (fun o evs => exists r, o = Ret r /\ skill_served cfg env w skillId body r evs).
Proof.
  unfold runSkill, skill_served.
  destruct (skills_get skillId) as [skill |].
  2:{ apply emits_try_catch
        with (P := fun o evs =>
                     o = Ret (status_json 404
                                [("error", JStr ("Unknown skill: " ++ skillId))]) /\
                     evs = []).
      - now apply emits_ret.
      - intros a evs [[= ->] ->]. eexists. now split.
      - intros e evs [H _]. discriminate H. }
  apply emits_try_catch
    with (P := fun o evs =>
                 match o with
                 | Ret r =>
                     (evs = [] /\
                      r = status_json 400 [("error", JStr missing_password)] /\
                      password_missing cfg env body) \/
                     (exists ssh x revs fevs summary,
                        resolveSshConfig cfg env body = Ret ssh /\
                        ran cfg env w skill ssh x revs /\
                        (fevs = [] \/ exists url req, fevs = [EvFetch url req]) /\
                        evs = (revs ++ fevs)%list /\
                        (summary = JNull \/ exists s, summary = JStr s) /\
                        r = json [ ("success", JBool (success x));
                                   ("skillId", JStr skillId);
                                   ("title", ref_title skill);
                                   ("host", host ssh);
                                   ("user", user ssh);
                                   ("exitCode", exitCode x);
                                   ("stdout", stdout x);
                                   ("stderr", stderr x);
                                   ("summary", summary);
                                   ("error", js_or (error x) JNull);
                                   ("executedAt", JStr (now_iso w)) ])
                 | Throw e =>
                     (evs = [] /\ resolveSshConfig cfg env body = Throw e) \/
                     interrupted cfg env body skill evs
                 end).
  - eapply emits_bind; [apply route_and_run_emits | |].
    + intros e evs H. exact H.
    + intros [reply | [ssh x]] evs Hrouted.
      * destruct Hrouted as (-> & -> & Hmiss). apply emits_ret. now left.
      * destruct Hrouted as [Hssh Hran].
        eapply emits_bind; [apply summarizeOrNull_emits | |].
        -- intros e fevs [(v & H & _) _]. discriminate H.
        -- intros summary fevs [(v & [= <-] & Hv) Hf]. apply emits_ret.
           rewrite app_nil_r. right. exists ssh, x, evs, fevs, summary. now repeat split.
  - intros r evs H. exists r. split; [reflexivity |].
    destruct H as [H | H]; [now left | now right; right].
  - intros e evs H. apply emits_bind_emit, emits_ret. eexists. split; [reflexivity |].
    right. left. exists e, evs. now repeat split.
Qed.

(** *** From shapes to counts and policies *)

Lemma emits_returns {A : Type} (m : M A) (P : A -> list Event -> Prop) :
  emits m (fun o evs => exists r, o = Ret r /\ P r evs) ->
  forall tr, exists r evs, m tr = (Ret r, (tr ++ evs)%list) /\ P r evs.
Proof.
  intros H tr. destruct (H tr) as (evs & Hs & r & Ho & HP).
  exists r, evs. split; [| exact HP].
  destruct (m tr) as [o tr']. cbn [fst snd] in *. now subst.
Qed.

Lemma quiet_counts (evs : list Event) :
  Forall quiet_event evs ->
  runner_invocations evs = 0%nat /\ processes_started evs = 0%nat.
Proof.
  induction 1 as [| ev l [Hr Hp] _ [IHr IHp]]; [now split |].
  unfold runner_invocations, processes_started in *. cbn [filter].
  rewrite Hr, Hp. now split.
Qed.

Lemma acted_counts (body : JsVal) (evs : list Event) :
  acted cfg env body evs ->
  (runner_invocations evs <= 1 /\ processes_started evs <= 1 /\
   model_calls evs <= 1 /\ store_reads evs = 0)%nat.
Proof.
  intros [-> | (key & skill & ssh & revs & fevs & _ & _ & Hrun & Hf & ->)].
  - cbn. repeat split; lia.
  - destruct (run_events_counts _ _ _ Hrun) as (H1 & H2 & H3 & H4 & _).
    destruct (fetch_counts _ Hf) as (F1 & F2 & F3 & F4).
    unfold runner_invocations, processes_started, model_calls, store_reads in *.
    rewrite !count_app. repeat split; lia.
Qed.

Lemma run_events_policy (Q : Event -> Prop) (skill : SkillRef) (ssh : SshConfig)
    (evs : list Event) :
  runner_policy cfg env Q skill ssh ->
  run_events cfg env skill ssh evs -> Forall Q evs.
Proof.
  intros [HL HS] [[Hl ->] | (Hl & _ & [-> | (q & base & Hq & Hb & ->)])].
  - destruct (HL Hl). now repeat constructor.
  - destruct (HS Hl). now repeat constructor.
  - destruct (HS Hl) as [H1 H2].
    constructor; [exact H1 |]. constructor; [now apply (H2 q base) | constructor].
Qed.

Lemma quiet_policy (Q : Event -> Prop) (evs : list Event) :
  (forall ev, quiet_event ev -> Q ev) -> Forall quiet_event evs -> Forall Q evs.
Proof. intros HQ H. eapply Forall_impl; [exact HQ | exact H]. Qed.

Lemma fetch_policy (Q : Event -> Prop) (fevs : list Event) :
  (forall ev, quiet_event ev -> Q ev) ->
  fevs = [] \/ (exists url req, fevs = [EvFetch url req]) -> Forall Q fevs.
Proof.
  intros HQ [-> | (url & req & ->)]; [constructor |].
  repeat constructor. now apply HQ.
Qed.

(** An event policy that every quiet event meets, and that the runner
    events of every skill the table answers for meet, holds of everything
    the agent handler records. *)
Lemma served_policy (Q : Event -> Prop) (body : JsVal) (r : Response)
    (evs : list Event) :
  (forall ev, quiet_event ev -> Q ev) ->
  (forall key skill ssh,
     skills_get key = Some skill -> resolveSshConfig cfg env body = Ret ssh ->
     runner_policy cfg env Q skill ssh) ->
  served cfg env body r evs -> Forall Q evs.
Proof.
  intros HQ HP (pre & act & post & -> & Hpre & _ & _ & Hact & Hpost & _).
  apply Forall_app. split; [now apply quiet_policy |].
  apply Forall_app. split.
  - destruct Hact as [-> | (key & skill & ssh & revs & fevs & Hk & Hs & Hrun & Hf & ->)];
      [constructor |].
    apply Forall_app. split; [| now apply fetch_policy].
    apply (run_events_policy Q skill ssh); [exact (HP key skill ssh Hk Hs) | exact Hrun].
  - destruct Hpost as [-> | (label & e & ->)]; [constructor |].
    repeat constructor. apply HQ. now split.
Qed.

Lemma skill_served_policy (Q : Event -> Prop) (skillId : string) (body : JsVal)
    (r : Response) (evs : list Event) :
  (forall ev, quiet_event ev -> Q ev) ->
  (forall skill ssh,
     skills_get skillId = Some skill -> resolveSshConfig cfg env body = Ret ssh ->
     runner_policy cfg env Q skill ssh) ->
  skill_served cfg env w skillId body r evs -> Forall Q evs.
Proof.
  intros HQ HP. unfold skill_served.
  destruct (skills_get skillId) as [skill |]; [| intros [-> _]; constructor].
  intros [(-> & _) | [(e & revs & _ & -> & Hrevs) |
                    (ssh & x & revs & fevs & summary & Hs & Hran & Hf & -> & _)]].
  - constructor.
  - apply Forall_app. split; [| repeat constructor; apply HQ; now split].
    destruct Hrevs as [[-> _] | Hint]; [constructor |].
    pose proof Hint as (ssh & Hs & _).
    apply (run_events_policy Q skill ssh); [now apply HP |].
    exact (interrupted_run_events body skill revs Hint ssh Hs).
  - apply Forall_app. split; [| now apply fetch_policy].
    apply (run_events_policy Q skill ssh); [now apply HP |].
    exact (ran_run_events skill ssh x revs Hran).
Qed.

(** *** What the handlers do and never do *)

(** X1: the agent handler never throws, and one request calls at most one
    runner, starts at most one process, calls the model at most twice and
    reads the conversation store at most twice. *)
Theorem brainAgent_call_budget (body : JsVal) (tr : list Event) :
  exists r evs,
    brainAgent cfg env w body tr = (Ret r, (tr ++ evs)%list) /\
    (runner_invocations evs <= 1 /\ processes_started evs <= 1 /\
     model_calls evs <= 2 /\ store_reads evs <= 2)%nat.
Proof.
  destruct (emits_returns _ _ (brainAgent_served body) tr) as (r & evs & Hrun & Hs).
  exists r, evs. split; [exact Hrun |].
  destruct Hs as (pre & act & post & -> & Hpre & Hreads & Hcalls & Hact & Hpost & _).
  destruct (quiet_counts _ Hpre) as [P1 P2].
  destruct (acted_counts _ _ Hact) as (A1 & A2 & A3 & A4).
  assert (Hp : (runner_invocations post = 0 /\ processes_started post = 0 /\
                model_calls post = 0 /\ store_reads post = 0)%nat)
    by (destruct Hpost as [-> | (label & e & ->)]; now repeat split).
  destruct Hp as (Q1 & Q2 & Q3 & Q4).
  unfold runner_invocations, processes_started, model_calls, store_reads in *.
  rewrite !count_app. repeat split; lia.
Qed.

(** X2: a reply of the agent handler that reports an executed skill (status
    200, action [run_skill]) comes with exactly one runner call and one
    process; any other reply except the status 500 of the catch block
    (so every [respond] answer and every status 400 or 404) comes with no
    runner call and no process at all. *)
Theorem brainAgent_runs_only_for_run_skill (body : JsVal) (tr : list Event) :
  exists r evs,
    brainAgent cfg env w body tr = (Ret r, (tr ++ evs)%list) /\
    (skill_reply r ->
     runner_invocations evs = 1%nat /\ processes_started evs = 1%nat) /\
    (~ skill_reply r -> res_status r <> 500 ->
     runner_invocations evs = 0%nat /\ processes_started evs = 0%nat).
Proof.
  destruct (emits_returns _ _ (brainAgent_served body) tr) as (r & evs & Hrun & Hs).
  exists r, evs. split; [exact Hrun |].
  destruct Hs as (pre & act & post & -> & Hpre & _ & _ & _ & Hpost & Hreply).
  destruct (quiet_counts _ Hpre) as [P1 P2].
  assert (Hp : (runner_invocations post = 0 /\ processes_started post = 0)%nat)
    by (destruct Hpost as [-> | (label & e & ->)]; now split).
  destruct Hp as [Q1 Q2].
  unfold runner_invocations, processes_started in *. rewrite !count_app.
  split.
  - intro Hskill. destruct Hreply as [(_ & A1 & A2) | [Hn _]]; [lia | contradiction].
  - intros Hn H500. destruct Hreply as [[Hskill _] | (_ & [-> | H])];
      [contradiction | cbn; lia | contradiction].
Qed.










(** X5: a request without a usable [sessionId] is answered with status 400
    before anything outside is touched, and a [sessionId] the store does not
    know is answered with status 404 after the one lookup: no history is
    read, the model is not called, nothing is run. *)
Theorem brainAgent_validation (body : JsVal) (tr : list Event) :
  (forall sessionId,
     get (js_or body (JObj [])) "sessionId" = Ret sessionId ->
     truthy sessionId = false ->
     brainAgent cfg env w body tr =
       (Ret (status_json 400 [("error", JStr "sessionId is required")]), tr)) /\
  (forall sessionId conversation,
     get (js_or body (JObj [])) "sessionId" = Ret sessionId ->
     truthy sessionId = true ->
     db_getConversation w sessionId = Ret conversation ->
     truthy conversation = false ->
     brainAgent cfg env w body tr =
       (Ret (status_json 404 [("error", JStr "Conversation not found")]),
        (tr ++ [EvGetConversation sessionId])%list)).
Proof.
  split.
  - intros sessionId Hsid Ht. unfold brainAgent, try_catch, bind, lift, ret.
    now rewrite Hsid, Ht.
  - intros sessionId conversation Hsid Ht Hconv Htc.
    unfold brainAgent, try_catch, bind, lift, emit, ret.
    now rewrite Hsid, Ht, Hconv, Htc.
Qed.

Lemma skill_served_run (skillId : string) (body : JsVal) (tr tr' : list Event)
    (r : Response) :
  runSkill cfg env w skillId body tr = (Ret r, tr') ->
  exists evs, tr' = (tr ++ evs)%list /\ skill_served cfg env w skillId body r evs.
Proof.
  intro Hrun.
  destruct (emits_returns _ _ (runSkill_served skillId body) tr) as (r' & evs & H & Hs).
  rewrite Hrun in H. injection H as <- ->. now exists evs.
Qed.

(** X6: for a skill the table answers for, the skill endpoint replies with
    status 400 exactly when the target is remote and neither a password nor
    key authentication is configured, and then nothing is run or recorded. *)
Theorem runSkill_missing_password (skillId : string) (skill : SkillRef)
    (body : JsVal) (tr : list Event) :
  skills_get skillId = Some skill ->
  (password_missing cfg env body ->
   runSkill cfg env w skillId body tr =
     (Ret (status_json 400 [("error", JStr missing_password)]), tr)) /\
  (forall r tr',
     runSkill cfg env w skillId body tr = (Ret r, tr') ->
     res_status r = 400 ->
     password_missing cfg env body /\ tr' = tr /\
     r = status_json 400 [("error", JStr missing_password)]).
Proof.
  intro Hskill. split.
  - intros (ssh & Hssh & Hl & Hpw & Hkey).
    unfold runSkill, route_and_run, try_catch, bind, lift, ret.
    now rewrite Hskill, Hssh, Hl, Hpw, Hkey.
  - intros r tr' Hrun Hstatus.
    destruct (skill_served_run _ _ _ _ _ Hrun) as (evs & -> & Hs).
    unfold skill_served in Hs. rewrite Hskill in Hs.
    destruct Hs as [(-> & -> & Hmiss) | [(e & revs & -> & _) | (ssh & x & revs & fevs
                     & summary & _ & _ & _ & _ & _ & ->)]];
      [| discriminate Hstatus | discriminate Hstatus].
    now rewrite app_nil_r.
Qed.

Lemma local_mode (host : JsVal) :
  OPENMAX_OPENCLAW_EXECUTION cfg = "local" -> shouldRunOpenClawLocally cfg host = true.
Proof. unfold shouldRunOpenClawLocally. now intros ->. Qed.

Lemma ssh_mode (host : JsVal) :
  OPENMAX_OPENCLAW_EXECUTION cfg = "ssh" -> shouldRunOpenClawLocally cfg host = false.
Proof. unfold shouldRunOpenClawLocally. now intros ->. Qed.

(** X7: the execution mode binds both handlers. In mode [local] no request
    ever reaches [runOverSsh], the only process started is [bash], and the
    skill endpoint never asks for a password (no status 400); in mode [ssh]
    no request ever reaches [runLocally] and the only processes started are
    [ssh] and [sshpass]. *)
Theorem execution_mode_is_forced (body : JsVal) (tr : list Event) :
  (OPENMAX_OPENCLAW_EXECUTION cfg = "local" ->
   (exists r evs, brainAgent cfg env w body tr = (Ret r, (tr ++ evs)%list) /\
                  Forall local_only evs) /\
   (forall skillId,
      exists r evs, runSkill cfg env w skillId body tr = (Ret r, (tr ++ evs)%list) /\
                    Forall local_only evs /\ res_status r <> 400)) /\
  (OPENMAX_OPENCLAW_EXECUTION cfg = "ssh" ->
   (exists r evs, brainAgent cfg env w body tr = (Ret r, (tr ++ evs)%list) /\
                  Forall remote_only evs) /\
   (forall skillId,
      exists r evs, runSkill cfg env w skillId body tr = (Ret r, (tr ++ evs)%list) /\
                    Forall remote_only evs)).
Proof.
  assert (Hql : forall ev, quiet_event ev -> local_only ev).
  { intros ev [H1 H2]. destruct ev; try exact I; discriminate. }
  assert (Hqr : forall ev, quiet_event ev -> remote_only ev).
  { intros ev [H1 H2]. destruct ev; try exact I; discriminate. }
  split; intro Hmode.
  - assert (Hpol : forall skill ssh, runner_policy cfg env local_only skill ssh).
    { intros skill ssh. split; intro Hl; [now split |].
      rewrite (local_mode _ Hmode) in Hl. discriminate Hl. }
    split.
    + destruct (emits_returns _ _ (brainAgent_served body) tr) as (r & evs & Hrun & Hs).
      exists r, evs. split; [exact Hrun |].
      apply (served_policy _ body r evs Hql); [| exact Hs]. intros. apply Hpol.
    + intro skillId.
      destruct (emits_returns _ _ (runSkill_served skillId body) tr)
        as (r & evs & Hrun & Hs).
      exists r, evs. split; [exact Hrun |]. split.
      * apply (skill_served_policy _ skillId body r evs Hql); [| exact Hs].
        intros. apply Hpol.
      * intro H400. unfold skill_served in Hs.
        destruct (skills_get skillId) as [skill |].
        -- destruct Hs as [(_ & _ & ssh & _ & Hl & _) | [(e & revs & -> & _) |
                            (ssh & x & revs & fevs & summary & _ & _ & _ & _ & _ & ->)]];
             [| discriminate H400 | discriminate H400].
           rewrite (local_mode _ Hmode) in Hl. discriminate Hl.
        -- destruct Hs as [_ ->]. discriminate H400.
  - assert (Hpol : forall skill ssh, runner_policy cfg env remote_only skill ssh).
    { intros skill ssh. split; intro Hl.
      - rewrite (ssh_mode _ Hmode) in Hl. discriminate Hl.
      - split; [exact I |]. intros q base _ _. unfold execCommand. cbn.
        destruct (truthy (password ssh)); [now right | now left]. }
    split.
    + destruct (emits_returns _ _ (brainAgent_served body) tr) as (r & evs & Hrun & Hs).
      exists r, evs. split; [exact Hrun |].
      apply (served_policy _ body r evs Hqr); [| exact Hs]. intros. apply Hpol.
    + intro skillId.
      destruct (emits_returns _ _ (runSkill_served skillId body) tr)
        as (r & evs & Hrun & Hs).
      exists r, evs. split; [exact Hrun |].
      apply (skill_served_policy _ skillId body r evs Hqr); [| exact Hs].
      intros. apply Hpol.
Qed.

(** X8: the skill endpoint never throws; its reply has status 200, 400, 404
    or 500; status 404 is the answer exactly for an id the table does not
    answer for; one request calls at most one runner, starts at most one
    process, calls the model at most once and never reads the store; a 400
    or 404 reply leaves no event at all; and a 200 reply comes with exactly
    one runner call and one process, echoes the [skillId], carries no
    [action], the clock's [executedAt], and a [summary] that is a text or
    [null]. *)
Theorem runSkill_reply_shape (skillId : string) (body : JsVal) (tr : list Event) :
  exists r evs,
    runSkill cfg env w skillId body tr = (Ret r, (tr ++ evs)%list) /\
    (res_status r = 200 \/ res_status r = 400 \/ res_status r = 404 \/
     res_status r = 500) /\
    (res_status r = 404 <-> skills_get skillId = None) /\
    (runner_invocations evs <= 1 /\ processes_started evs <= 1 /\
     model_calls evs <= 1 /\ store_reads evs = 0)%nat /\
    (res_status r = 400 \/ res_status r = 404 -> evs = []) /\
    (res_status r = 200 ->
     runner_invocations evs = 1%nat /\ processes_started evs = 1%nat /\
     field r "skillId" = JStr skillId /\
     field r "action" = JUndefined /\
     field r "executedAt" = JStr (now_iso w) /\
     (field r "summary" = JNull \/ exists s, field r "summary" = JStr s)).
Proof.
  destruct (emits_returns _ _ (runSkill_served skillId body) tr) as (r & evs & Hrun & Hs).
  exists r, evs. split; [exact Hrun |].
  unfold skill_served in Hs. destruct (skills_get skillId) as [skill |] eqn:Hskill.
  - destruct Hs as [(-> & -> & _) | [(e & revs & -> & -> & Hrevs) |
                     (ssh & x & revs & fevs & summary & _ & Hran & Hf & -> & Hsum & ->)]].
    + split; [now right; left |]. split; [split; discriminate |].
      split; [cbn; repeat split; lia |]. split; [reflexivity | discriminate].
    + split; [now right; right; right |]. split; [split; discriminate |].
      split; [| split; [intros [H | H]; discriminate H | discriminate]].
      unfold runner_invocations, processes_started, model_calls, store_reads.
      rewrite !count_app.
      destruct Hrevs as [[-> _] | (ssh & _ & _ & _ & ->)]; cbn; repeat split; lia.
    + destruct (ran_counts _ _ _ _ Hran) as [R1 R2].
      destruct (run_events_counts _ _ _ (ran_run_events _ _ _ _ Hran))
        as (_ & _ & R3 & R4 & _).
      destruct (fetch_counts _ Hf) as (F1 & F2 & F3 & F4).
      unfold runner_invocations, processes_started, model_calls, store_reads in *.
      rewrite !count_app.
      split; [now left |]. split; [split; discriminate |].
      split; [repeat split; lia |].
      split; [intros [H | H]; discriminate H |]. intros _.
      split; [lia |]. split; [lia |]. split; [reflexivity |].
      split; [reflexivity |]. split; [reflexivity |].
      destruct Hsum as [-> | (s & ->)]; [now left | right; now exists s].
  - destruct Hs as [-> ->].
    split; [now right; right; left |]. split; [now split |].
    split; [cbn; repeat split; lia |]. split; [reflexivity | discriminate].
Qed.

Lemma ran_invariant (skill : SkillRef) (ssh : SshConfig) (x : ExecutionResult)
    (evs : list Event) :
  rejects_nonzero w -> ran cfg env w skill ssh x evs -> result_invariant x.
Proof.
  intros Hplat [(_ & _ & ->) | (_ & _ & q & base & _ & _ & _ & ->)];
    apply settle_invariant; intros e He; exact (Hplat _ _ _ e He).
Qed.

(** X9: under the platform's rule that a child process call is rejected only
    when the exit code is not zero, a status 200 reply of the skill endpoint
    reports the execution consistently: [success] is true exactly when
    [exitCode] is 0, [stdout] and [stderr] are texts, and a successful
    execution has [error] [null]. *)
Theorem runSkill_reports_result (skillId : string) (body : JsVal)
    (tr tr' : list Event) (r : Response) :
  rejects_nonzero w ->
  runSkill cfg env w skillId body tr = (Ret r, tr') ->
  res_status r = 200 ->
  exists b,
    field r "success" = JBool b /\
    (b = true <-> field r "exitCode" = JNum 0 0) /\
    (exists s, field r "stdout" = JStr s) /\
    (exists s, field r "stderr" = JStr s) /\
    (b = true -> field r "error" = JNull).
Proof.
  intros Hplat Hrun Hstatus.
  destruct (skill_served_run _ _ _ _ _ Hrun) as (evs & -> & Hs).
  unfold skill_served in Hs. destruct (skills_get skillId) as [skill |].
  2:{ destruct Hs as [_ ->]. discriminate Hstatus. }
  destruct Hs as [(_ & -> & _) | [(e & revs & -> & _) |
                   (ssh & x & revs & fevs & summary & _ & Hran & _ & _ & _ & ->)]];
    [discriminate Hstatus | discriminate Hstatus |].
  destruct (ran_invariant _ _ _ _ Hplat Hran) as (Hexit & Hout & Herr & _ & Hnone).
  exists (success x). split; [reflexivity |]. split; [exact Hexit |].
  split; [exact Hout |]. split; [exact Herr |].
  intro Hb. apply Hnone in Hb.
  change (field _ "error") with (js_or (error x) JNull). now rewrite Hb.
Qed.

(** X10: in mode [local], the skill endpoint answers a skill of the table by
    running exactly its command body as [bash -lc <body>] on the local
    machine and nothing over SSH, and replies with status 200, the id and
    title of the skill, and the success of that process. *)
Theorem runSkill_local_round_trip (id : string) (sk : Skill) (ssh : SshConfig)
    (body : JsVal) (tr : list Event) :
  assoc id OPENCLAW_SKILLS = Some sk ->
  OPENMAX_OPENCLAW_EXECUTION cfg = "local" ->
  resolveSshConfig cfg env body = Ret ssh ->
  exists r fevs,
    runSkill cfg env w id body tr =
      (Ret r,
       (tr ++ [ EvRunLocally (JStr (command sk));
                EvExecFile "bash" [JStr "-lc"; JStr (command sk)] (local_options env) ]
           ++ fevs)%list) /\
    (fevs = [] \/ exists url req, fevs = [EvFetch url req]) /\
    res_status r = 200 /\
    field r "skillId" = JStr id /\
    field r "title" = JStr (title sk) /\
    field r "host" = host ssh /\
    field r "success" =
      JBool (success (settle "Unknown local execution error"
                        (execFileAsync w "bash" [JStr "-lc"; JStr (command sk)]
                           (local_options env)))).
Proof.
  intros Hid Hmode Hssh.
  destruct (emits_returns _ _ (runSkill_served id body) tr) as (r & evs & Hrun & Hs).
  unfold skill_served, skills_get in Hs. rewrite Hid in Hs.
  destruct Hs as [(_ & _ & s & _ & Hl & _) | [(e & revs & _ & _ & Hrevs) |
                   (s & x & revs & fevs & summary & Hs & Hran & Hf & -> & _ & ->)]].
  - rewrite (local_mode _ Hmode) in Hl. discriminate Hl.
  - destruct Hrevs as [[_ He] | (s & _ & Hl & _)].
    + rewrite Hssh in He. discriminate He.
    + rewrite (local_mode _ Hmode) in Hl. discriminate Hl.
  - rewrite Hssh in Hs. injection Hs as <-.
    destruct Hran as [(_ & -> & ->) | (Hl & _)].
    + eexists. exists fevs. split; [exact Hrun |]. now repeat split.
    + rewrite (local_mode _ Hmode) in Hl. discriminate Hl.
Qed.

End HandlerEvents.

(** ** Decision parsing, in general *)

Lemma indexOf_range (c : ascii) (s : string) : -1 <= indexOf c s.
Proof.
  induction s as [| a s IH]; cbn [indexOf]; [lia |].
  destruct (Ascii.eqb a c); [lia |].
  destruct (indexOf c s <? 0) eqn:E; [lia |]. apply Z.ltb_ge in E. lia.
Qed.

Lemma len_cons (a : ascii) (s : string) : len (String a s) = len s + 1.
Proof. unfold len. cbn [String.length]. lia. Qed.

Lemma len_nonneg (s : string) : 0 <= len s.
Proof. unfold len. lia. Qed.

Lemma len_append (a b : string) : len (a ++ b) = len a + len b.
Proof.
  induction a as [| x a IH]; [reflexivity |].
  cbn [append]. rewrite !len_cons, IH. lia.
Qed.

Lemma indexOf_first (c : ascii) (p r : string) :
  indexOf c p = -1 -> indexOf c (p ++ String c r) = len p.
Proof.
  induction p as [| a p IH]; cbn [indexOf append].
  - intros _. now rewrite Ascii.eqb_refl.
  - destruct (Ascii.eqb a c); [discriminate |].
    pose proof (indexOf_range c p) as Hr.
    destruct (indexOf c p <? 0) eqn:E.
    + intros _. apply Z.ltb_lt in E. rewrite IH by lia.
      pose proof (len_nonneg p) as Hp.
      destruct (len p <? 0) eqn:E'; [apply Z.ltb_lt in E'; lia |].
      now rewrite len_cons.
    + intro H. lia.
Qed.

Lemma lastIndexOf_last (c : ascii) (s q : string) :
  lastIndexOf c q = -1 -> lastIndexOf c (s ++ String c q) = len s.
Proof.
  intro Hq. induction s as [| a s IH]; cbn [lastIndexOf append].
  - rewrite Hq. cbn. now rewrite Ascii.eqb_refl.
  - rewrite IH. pose proof (len_nonneg s) as Hs.
    destruct (0 <=? len s) eqn:E; [now rewrite len_cons |].
    apply Z.leb_gt in E. lia.
Qed.

Lemma substring_middle (p t q : string) :
  String.substring (String.length p) (String.length t) (p ++ t ++ q) = t.
Proof.
  induction p as [| a p IH]; cbn [String.length append String.substring]; [| exact IH].
  induction t as [| b t IHt]; cbn [String.length append String.substring].
  - now destruct q.
  - now rewrite IHt.
Qed.

Lemma slice_middle (p t q : string) :
  slice (p ++ t ++ q) (len p) (len p + len t) = t.
Proof.
  unfold slice. rewrite !len_append.
  pose proof (len_nonneg p). pose proof (len_nonneg t). pose proof (len_nonneg q).
  destruct (len p <? 0) eqn:E1; [apply Z.ltb_lt in E1; lia |].
  destruct (len p + len t <? 0) eqn:E2; [apply Z.ltb_lt in E2; lia |].
  rewrite Z.min_l by lia. rewrite Z.min_l by lia.
  replace (Z.max (len p + len t - len p) 0) with (len t) by lia.
  unfold len. rewrite !Nat2Z.id. apply substring_middle.
Qed.

(** X11: [safeJsonParse] recovers a JSON object from the prose around it.
    When the text is not JSON as a whole, the text before the object holds no
    opening brace and the text after it no closing brace, the result is the
    object's own parse, whatever that prose is. *)
Theorem safeJsonParse_unwraps (before inner after : string) (v : JsVal) :
  indexOf "{" before = -1 ->
  lastIndexOf "}" after = -1 ->
  Json.parse (before ++ "{" ++ inner ++ "}" ++ after) = None ->
  Json.parse ("{" ++ inner ++ "}") = Some v ->
  safeJsonParse (before ++ "{" ++ inner ++ "}" ++ after) = v.
Proof.
  intros Hb Ha Hwhole Hobj. unfold safeJsonParse. rewrite Hwhole.
  assert (Hstart : indexOf "{" (before ++ "{" ++ inner ++ "}" ++ after) = len before)
    by (apply (indexOf_first "{" before _ Hb)).
  assert (Hend : lastIndexOf "}" (before ++ "{" ++ inner ++ "}" ++ after)
                 = len before + 1 + len inner).
  { replace (before ++ "{" ++ inner ++ "}" ++ after)
      with ((before ++ "{" ++ inner) ++ String "}" after)
      by (now rewrite !append_assoc).
    rewrite (lastIndexOf_last "}" _ after Ha), !len_append.
    change (len "{") with 1. lia. }
  rewrite Hstart, Hend.
  pose proof (len_nonneg before). pose proof (len_nonneg inner).
  destruct (0 <=? len before) eqn:E1; [| apply Z.leb_gt in E1; lia].
  destruct (len before <? len before + 1 + len inner) eqn:E2;
    [| apply Z.ltb_ge in E2; lia].
  cbn [andb].
  replace (before ++ "{" ++ inner ++ "}" ++ after)
    with (before ++ ("{" ++ inner ++ "}") ++ after)
    by (now rewrite !append_assoc).
  replace (len before + 1 + len inner + 1)
    with (len before + len ("{" ++ inner ++ "}"))
    by (rewrite !len_append; change (len "{") with 1; change (len "}") with 1; lia).
  now rewrite slice_middle, Hobj.
Qed.

Lemma safeJsonParse_unwraps_witness :
  safeJsonParse ("Sure! " ++ "{" ++ dq "^action^:^respond^,^text^:^Hi^" ++ "}" ++ " Done.")
  = JObj [("action", JStr "respond"); ("text", JStr "Hi")].
Proof.
  exact (safeJsonParse_unwraps "Sure! " (dq "^action^:^respond^,^text^:^Hi^") " Done."
           (JObj [("action", JStr "respond"); ("text", JStr "Hi")])
           eq_refl eq_refl eq_refl eq_refl).
Defined.

(** ** Target resolution, in general *)

Lemma js_or_truthy (a b : JsVal) : truthy b = true -> truthy (js_or a b) = true.
Proof. intro H. unfold js_or. now destruct (truthy a) eqn:E. Qed.

Lemma js_or_left (a b : JsVal) : truthy a = true -> js_or a b = a.
Proof. intro H. unfold js_or. now rewrite H. Qed.

Lemma js_or_right (a b : JsVal) : truthy a = false -> js_or a b = b.
Proof. intro H. unfold js_or. now rewrite H. Qed.

(** X12: [resolveSshConfig] throws only when client overrides are allowed
    and the body is [null]; the host and the user it resolves are never
    empty; and when overrides are allowed a body field wins exactly when it
    is truthy, while an empty or missing one (an empty password, say) falls
    back to the server's value. *)
Theorem resolveSshConfig_fields (cfg : Config) (env : ProcessEnv) (body : JsVal) :
  ((exists e, resolveSshConfig cfg env body = Throw e) <->
   OPENMAX_ALLOW_CLIENT_SSH_CONFIG cfg = true /\ body = JNull) /\
  (forall ssh,
     resolveSshConfig cfg env body = Ret ssh ->
     truthy (host ssh) = true /\ truthy (user ssh) = true /\
     (OPENMAX_ALLOW_CLIENT_SSH_CONFIG cfg = true ->
      forall members, body = JObj members ->
        let given name :=
          match own_property members name with Some v => v | None => JUndefined end in
        (if truthy (given "host") then host ssh = given "host"
         else host ssh = host (server_target env)) /\
        (if truthy (given "user") then user ssh = given "user"
         else user ssh = user (server_target env)) /\
        (if truthy (given "password") then password ssh = given "password"
         else password ssh = password (server_target env)))).
Proof.
  unfold resolveSshConfig, resolve_field.
  destruct (OPENMAX_ALLOW_CLIENT_SSH_CONFIG cfg) eqn:Hflag.
  - split.
    + split.
      * intros [e H]. split; [reflexivity |].
        destruct body; cbn in H; try discriminate H. reflexivity.
      * intros [_ ->]. cbn. now eexists.
    + intros ssh H.
      assert (Hshape :
        exists h u p,
          ssh = mkSsh (js_or (js_or h (env_value (OPENMAX_VPS_HOST env)))
                             (JStr "168.231.78.113"))
                      (js_or (js_or u (env_value (OPENMAX_VPS_USER env))) (JStr "root"))
                      (js_or (js_or p (env_value (OPENMAX_VPS_PASSWORD env))) (JStr "")) /\
          forall members, body = JObj members ->
            (h = match own_property members "host" with Some v => v | None => JUndefined end) /\
            (u = match own_property members "user" with Some v => v | None => JUndefined end) /\
            (p = match own_property members "password" with Some v => v | None => JUndefined end)).
      { destruct body; cbn -[js_or] in H; try discriminate H; injection H as <-;
          eexists _, _, _; (split; [reflexivity |]); intros ms Hms;
          try discriminate Hms.
        injection Hms as <-. now repeat split. }
      destruct Hshape as (h & u & p & -> & Hgiven). cbn [host user password].
      split; [now apply js_or_truthy |]. split; [now apply js_or_truthy |].
      intros _ members Hbody. destruct (Hgiven members Hbody) as (-> & -> & ->).
      cbn zeta. unfold server_target. cbn [host user password].
      repeat split.
      * destruct (truthy _) eqn:E; [now rewrite !js_or_left by (try rewrite js_or_left; assumption) | now rewrite (js_or_right _ _ E)].
      * destruct (truthy _) eqn:E; [now rewrite !js_or_left by (try rewrite js_or_left; assumption) | now rewrite (js_or_right _ _ E)].
      * destruct (truthy (match own_property members "password" with
                          | Some v => v | None => JUndefined end)) eqn:E.
        -- unfold js_or at 2. rewrite E. unfold js_or. now rewrite E.
        -- now rewrite (js_or_right _ _ E).
  - split.
    + split; [intros [e H]; discriminate H | intros [H _]; discriminate H].
    + intros ssh [= <-]. cbn [host user password bindO].
      split; [now apply js_or_truthy |]. split; [now apply js_or_truthy |].
      intro H. discriminate H.
Qed.

(** ** The model call, in general *)

Section ModelCall.
Context {fmt : NumberFormat}.
Variable cfg : Config.
Variable w : World.

(** X13: [ollamaChat] records exactly one request. It returns a text only
    for a reply of OK status whose body is JSON, and does so for every JSON
    body whatever its shape: the text is [data.message.content] when that
    is a text and the empty text otherwise. A reply of another status
    always throws an [Error] that starts with [Ollama error (<status>): ]. *)
Theorem ollamaChat_reply (model : JsVal) (messages : list ChatMessage)
    (options : JsVal) (tr : list Event) :
  let request := chat_request cfg model messages options in
  let answer := fetch w (chat_url cfg) request (OPENMAX_OLLAMA_TIMEOUT_MS cfg) in
  let run := ollamaChat cfg w model messages options tr in
  snd run = (tr ++ [EvFetch (chat_url cfg) request])%list /\
  (forall s, fst run = Ret s ->
     exists response text data,
       answer = FetchReplies response /\ ok response = true /\
       body_text response = Ret text /\ Json.parse text = Some data /\
       s = match message_content data with Some c => c | None => "" end) /\
  (forall response text data,
     answer = FetchReplies response -> ok response = true ->
     body_text response = Ret text -> Json.parse text = Some data ->
     fst run = Ret (match message_content data with Some c => c | None => "" end)) /\
  (forall response,
     answer = FetchReplies response -> ok response = false ->
     exists detail,
       fst run = Throw (mkError "Error"
         ("Ollama error (" ++ number_to_string (status response) 0 ++ "): " ++ detail))).
Proof.
  cbv zeta. rewrite ollamaChat_run. cbn [fst snd]. split; [reflexivity |].
  assert (Hjson : forall response text data,
    fetch w (chat_url cfg) (chat_request cfg model messages options)
          (OPENMAX_OLLAMA_TIMEOUT_MS cfg) = FetchReplies response ->
    ok response = true ->
    body_text response = Ret text -> Json.parse text = Some data ->
    fst (ollamaChat cfg w model messages options []) =
      Ret (match message_content data with Some c => c | None => "" end)).
  { intros response text data Hf Hok Ht Hp.
    unfold ollamaChat, bind, emit, lift, ret. rewrite Hf, Hok, Ht. cbn. rewrite Hp.
    cbn. unfold message_content.
    destruct data as [| | b | m e | s | items | members]; try reflexivity.
    - cbn. now destruct b.
    - cbn. now destruct (num_is_zero m e).
    - cbn. now destruct (String.eqb s "").
    - cbn. destruct (own_property members "message") as [message |]; [| reflexivity].
      destruct message as [| | b | m e | s | items | inner]; try reflexivity.
      + cbn. now destruct b.
      + cbn. now destruct (num_is_zero m e).
      + cbn. now destruct (String.eqb s "").
      + cbn. destruct (own_property inner "content") as [c |]; [| reflexivity].
        now destruct c. }
  split; [| split].
  - intros s Hs.
    destruct (fetch w (chat_url cfg) (chat_request cfg model messages options)
                    (OPENMAX_OLLAMA_TIMEOUT_MS cfg)) as [e | response] eqn:Hf.
    + unfold ollamaChat, bind, emit, lift, ret in Hs. rewrite Hf in Hs. discriminate Hs.
    + destruct (ok response) eqn:Hok.
      * destruct (body_text response) as [text | e] eqn:Ht.
        -- destruct (Json.parse text) as [data |] eqn:Hp.
           ++ exists response, text, data. repeat (split; [easy |]).
              rewrite (Hjson response text data eq_refl Hok Ht Hp) in Hs.
              now injection Hs as <-.
           ++ unfold ollamaChat, bind, emit, lift, ret in Hs.
              rewrite Hf, Hok, Ht in Hs. cbn in Hs. rewrite Hp in Hs. discriminate Hs.
        -- unfold ollamaChat, bind, emit, lift, ret in Hs.
           rewrite Hf, Hok, Ht in Hs. discriminate Hs.
      * unfold ollamaChat, bind, emit, lift, ret in Hs.
        rewrite Hf, Hok in Hs. discriminate Hs.
  - exact Hjson.
  - intros response Hf Hok. eexists.
    unfold ollamaChat, bind, emit, lift, ret. rewrite Hf, Hok. cbn. reflexivity.
Qed.

End ModelCall.

(** ** The status and list endpoints *)

Lemma names_of_length (items : list JsVal) (names : list JsVal) :
  names_of items = Ret names -> length names = length items.
Proof.
  revert names. induction items as [| m rest IH]; intros names H.
  - now injection H as <-.
  - cbn in H. destruct (get m "name") as [name | e]; [| discriminate H].
    cbn in H. destruct (names_of rest) as [ns | e]; [| discriminate H].
    cbn in H. injection H as <-. cbn. now rewrite (IH ns eq_refl).
Qed.

Lemma names_of_null (items : list JsVal) :
  In JNull items -> exists e, names_of items = Throw e.
Proof.
  induction items as [| m rest IH]; [intros [] |]. intros [-> | Hin].
  - cbn. now eexists.
  - cbn. destruct (get m "name") as [name | e]; [| now eexists].
    cbn. destruct (IH Hin) as [e ->]. cbn. now eexists.
Qed.

(** X14: [GET /api/brain/status] always answers with status 200 and names
    the configured endpoint and model, whatever the model server does. It
    reports [ok: true] only for an OK reply, and then lists at most 30
    model names; a reply of another status is reported with that status and
    no [error]; a transport failure is reported with its message; and one
    [null] entry anywhere in the list of models, even after the 30th, turns
    the whole reply into [ok: false]. *)
Theorem brainStatus_reply (cfg : Config) (tags : FetchResult) :
  let r := brainStatus cfg tags in
  res_status r = 200 /\
  field r "ollamaUrl" = JStr (OPENMAX_OLLAMA_URL cfg) /\
  field r "model" = JStr (OPENMAX_OLLAMA_MODEL cfg) /\
  (field r "ok" = JBool true \/ field r "ok" = JBool false) /\
  (field r "ok" = JBool true ->
     exists response names,
       tags = FetchReplies response /\ ok response = true /\
       field r "models" = JArr names /\ (length names <= 30)%nat) /\
  (forall response,
     tags = FetchReplies response -> ok response = false ->
     field r "ok" = JBool false /\ field r "status" = JNum (status response) 0 /\
     field r "error" = JUndefined) /\
  (forall e,
     tags = FetchThrows e ->
     field r "ok" = JBool false /\ field r "error" = message_or_string e) /\
  (forall response text members items,
     tags = FetchReplies response -> ok response = true ->
     body_text response = Ret text -> Json.parse text = Some (JObj members) ->
     own_property members "models" = Some (JArr items) ->
     (In JNull items -> field r "ok" = JBool false) /\
     (forall names, names_of items = Ret names ->
        field r "models" = JArr (firstn 30 names))).
Proof.
  cbv zeta. unfold brainStatus.
  destruct tags as [e | response].
  { cbn. repeat split; intros; try (now right); try discriminate; congruence. }
  destruct (ok response) eqn:Hok; cbn [negb];
    [| cbn; repeat split; intros; try (now right); try discriminate; congruence].
  destruct (body_text response) as [text | e] eqn:Ht; cbn [bindO];
    [| cbn; repeat split; intros; try (now right); try discriminate; congruence].
  destruct (Json.parse text) as [data |] eqn:Hp; cbn [bindO];
    [| cbn; repeat split; intros; try (now right); try discriminate; congruence].
  assert (Hsame : forall response' text' members,
            FetchReplies response = FetchReplies response' ->
            body_text response' = Ret text' ->
            Json.parse text' = Some (JObj members) -> data = JObj members)
    by (intros; congruence).
  destruct (get data "models") as [models | e] eqn:Hm; cbn [bindO].
  2:{ cbn. repeat split; intros; try (now right); try discriminate; try congruence;
        match goal with
        | H : FetchReplies _ = FetchReplies _, H1 : body_text _ = Ret _,
          H2 : Json.parse _ = Some (JObj _) |- _ =>
            rewrite (Hsame _ _ _ H H1 H2) in Hm; discriminate Hm
        end. }
  assert (Hmodels : forall response' text' members items,
            FetchReplies response = FetchReplies response' ->
            body_text response' = Ret text' ->
            Json.parse text' = Some (JObj members) ->
            own_property members "models" = Some (JArr items) ->
            models = JArr items).
  { intros response' text' members items H H1 H2 H3.
    rewrite (Hsame _ _ _ H H1 H2) in Hm. cbn in Hm. rewrite H3 in Hm.
    now injection Hm as <-. }
  clear Hsame Hm.
  destruct models as [| | b | m e | s | items | ms]; cbn [bindO];
    try (cbn; repeat split; intros; try (now left); try discriminate;
         try congruence;
         try (exists response, []; repeat split; [assumption | cbn; lia]);
         try match goal with
         | H : FetchReplies _ = FetchReplies _, H1 : body_text _ = Ret _,
           H2 : Json.parse _ = Some (JObj _),
           H3 : own_property _ "models" = Some _ |- _ =>
             discriminate (Hmodels _ _ _ _ H H1 H2 H3)
         end; fail).
  destruct (names_of items) as [names | e] eqn:Hn; cbn [bindO].
  - cbn -[firstn]. repeat split; intros; try (now left); try discriminate; try congruence.
    + exists response, (firstn 30 names). repeat split; [assumption |].
      rewrite length_firstn. lia.
    + match goal with
      | H : FetchReplies _ = FetchReplies _, H1 : body_text _ = Ret _,
        H2 : Json.parse _ = Some (JObj _),
        H3 : own_property _ "models" = Some _ |- _ =>
          injection (Hmodels _ _ _ _ H H1 H2 H3) as Heq; subst
      end.
      match goal with
      | H : In JNull ?l |- _ => destruct (names_of_null l H) as [e He]
      end.
      congruence.
    + match goal with
      | H : FetchReplies _ = FetchReplies _, H1 : body_text _ = Ret _,
        H2 : Json.parse _ = Some (JObj _),
        H3 : own_property _ "models" = Some _ |- _ =>
          injection (Hmodels _ _ _ _ H H1 H2 H3) as Heq; subst
      end.
      congruence.
  - cbn. repeat split; intros; try (now right); try discriminate; try congruence.
    match goal with
    | H : FetchReplies _ = FetchReplies _, H1 : body_text _ = Ret _,
      H2 : Json.parse _ = Some (JObj _),
      H3 : own_property _ "models" = Some _ |- _ =>
        injection (Hmodels _ _ _ _ H H1 H2 H3) as Heq; subst
    end.
    congruence.
Qed.

Lemma includes_append (needle before rest : string) :
  includes needle rest = true -> includes needle (before ++ rest) = true.
Proof.
  intro H. induction before as [| c b IH]; cbn [append]; [exact H |].
  cbn [includes]. rewrite IH. apply orb_true_r.
Qed.

Lemma join_includes (sep x : string) (l : list string) :
  In x l -> includes x (join sep l) = true.
Proof.
  induction l as [| y r IH]; [intros [] |].
  intros [-> | Hin].
  - destruct r as [| z r']; cbn [join].
    + rewrite <- (append_empty x) at 2. apply includes_here.
    + apply includes_here.
  - destruct r as [| z r']; [destruct Hin |].
    cbn [join]. apply includes_append, includes_append.
    exact (IH Hin).
Qed.

Lemma includes_after_join (needle rest : string) (lines : list string) :
  In needle lines -> includes needle (join NL lines ++ rest) = true.
Proof.
  intro Hin. pose proof (join_includes NL needle lines Hin) as H.
  revert H. generalize (join NL lines). intro s.
  induction s as [| c s IH]; cbn [append includes].
  - destruct needle; cbn; [now destruct rest | discriminate].
  - intro H. apply orb_true_iff in H. destruct H as [H | H].
    + apply orb_true_iff. left. revert H. clear.
      revert c s. induction needle as [| a n IHn]; intros c s H; [reflexivity |].
      cbn in H |- *. destruct (Ascii.ascii_dec a c) as [_ | _]; [| discriminate H].
      destruct s as [| c' s']; cbn [append].
      * destruct n; [now destruct rest | discriminate H].
      * now apply IHn.
    + rewrite (IH H). apply orb_true_r.
Qed.

Lemma published_skill (id t : string) :
  In (JObj [("id", JStr id); ("title", JStr t)])
     (map (fun entry => JObj [ ("id", JStr (fst entry));
                               ("title", JStr (title (snd entry))) ])
          OPENCLAW_SKILLS) ->
  exists sk, In (id, sk) OPENCLAW_SKILLS /\ t = title sk /\
             assoc id OPENCLAW_SKILLS = Some sk.
Proof.
  intro Hin. apply in_map_iff in Hin. destruct Hin as ([k sk] & [= <- <-] & Hin).
  exists sk. split; [exact Hin |]. split; [reflexivity |].
  cbn [fst snd]. unfold OPENCLAW_SKILLS in Hin |- *.
  repeat (destruct Hin as [[= <- <-] | Hin]; [reflexivity |]). destruct Hin.
Qed.

Section Listing.
Context {fmt : NumberFormat}.
Variable cfg : Config.
Variable env : ProcessEnv.
Variable w : World.

(** X15: the three places that enumerate the skill table agree. Every
    entry [{id, title}] that [GET /api/openclaw/skills] publishes is offered
    to the model as the line [- <id>: <title>] of the decision prompt, and
    is served by [POST /api/openclaw/skills/:skillId]: the reply is never
    404, and a 200 reply carries that id and that title. *)
Theorem listed_skills_are_served (id t : string) (body : JsVal) (tr : list Event) :
  (exists items,
     field listSkills "skills" = JArr items /\
     In (JObj [("id", JStr id); ("title", JStr t)]) items) ->
  includes ("- " ++ id ++ ": " ++ t) system = true /\
  In id published_ids /\
  exists r evs,
    runSkill cfg env w id body tr = (Ret r, (tr ++ evs)%list) /\
    res_status r <> 404 /\
    (res_status r = 200 ->
     field r "skillId" = JStr id /\ field r "title" = JStr t).
Proof.
  intros (items & Hitems & Hin). cbn in Hitems. injection Hitems as <-.
  destruct (published_skill id t Hin) as (sk & Htable & -> & Hassoc).
  split; [| split].
  - unfold system. apply includes_append, includes_after_join.
    unfold toolList.
    change ("- " ++ id ++ ": " ++ title sk)
      with ((fun entry : string * Skill => "- " ++ fst entry ++ ": " ++ title (snd entry))
              (id, sk)).
    now apply in_map.
  - unfold published_ids. change id with (fst (id, sk)). now apply in_map.
  - destruct (emits_returns _ _ (runSkill_served cfg env w id body) tr)
      as (r & evs & Hrun & Hs).
    exists r, evs. split; [exact Hrun |].
    unfold skill_served, skills_get in Hs. rewrite Hassoc in Hs.
    destruct Hs as [(_ & -> & _) | [(e & revs & -> & _) |
                     (ssh & x & revs & fevs & summary & _ & _ & _ & _ & _ & ->)]].
    + split; discriminate.
    + split; discriminate.
    + split; [discriminate |]. intros _. split; reflexivity.
Qed.

End Listing.

(** ** The messages of the decision call *)

Lemma history_message_role (m : MessageRow) :
  (role (history_message m) = "user" /\ row_role m = "user" /\
   content (history_message m) = row_content m) \/
  (role (history_message m) = "assistant" /\ row_role m <> "user").
Proof.
  unfold history_message. cbn [role content].
  destruct (String.eqb (row_role m) "assistant") eqn:Ha.
  - right. split; [reflexivity |]. apply String.eqb_eq in Ha. now rewrite Ha.
  - destruct (String.eqb (row_role m) "user") eqn:Hu.
    + left. apply String.eqb_eq in Hu. rewrite Hu. now repeat split.
    + right. split; [reflexivity |]. now apply String.eqb_neq.
Qed.

(** X16: the decision call sends one message more than the history has
    rows, in the order of the rows. The prompt is its only [system]
    message; every row is sent as [user] or [assistant]; the rows of the
    user are sent as they are, so the user turns of the request are the user
    turns of the history, the last of them being the request that the
    summarizer is later told about; and a stored [system] row reaches the
    model as an [assistant] message marked [[SYSTEM NOTE]]. *)
Theorem ollamaMessages_shape (history : list MessageRow) :
  let sent := ollamaMessages history in
  let is_role r (m : ChatMessage) := String.eqb (role m) r in
  length sent = S (length history) /\
  filter (is_role "system") sent = [mkMsg "system" system] /\
  Forall (fun m => role m = "user" \/ role m = "assistant") (tl sent) /\
  map content (filter (is_role "user") sent) =
    map row_content (filter (fun m => String.eqb (row_role m) "user") history) /\
  last (map content (filter (is_role "user") sent)) "" = last_user_content history /\
  (forall i m, nth_error history i = Some m ->
     nth_error sent (S i) = Some (history_message m) /\
     (row_role m = "system" ->
      history_message m =
        mkMsg "assistant" ("[SYSTEM NOTE]" ++ NL ++ row_content m))).
Proof.
  cbv zeta. unfold ollamaMessages. cbn [tl length filter role].
  change (String.eqb "system" "system") with true.
  change (String.eqb "system" "user") with false. cbv iota.
  assert (Hsys : filter (fun m => String.eqb (role m) "system")
                        (map history_message history) = []).
  { induction history as [| m rest IH]; [reflexivity |]. cbn [map filter].
    destruct (history_message_role m) as [(-> & _) | (-> & _)]; exact IH. }
  assert (Husers :
    map content (filter (fun m => String.eqb (role m) "user")
                        (map history_message history)) =
    map row_content (filter (fun m => String.eqb (row_role m) "user") history)).
  { clear Hsys. induction history as [| m rest IH]; [reflexivity |]. cbn [map filter].
    destruct (history_message_role m) as [(-> & Hu & Hc) | (-> & Hu)].
    - rewrite Hu, (String.eqb_refl "user"). cbn [map]. now rewrite Hc, IH.
    - apply String.eqb_neq in Hu. rewrite Hu.
      change (String.eqb "assistant" "user") with false. cbv iota. exact IH. }
  split; [now rewrite length_map |].
  split; [now rewrite Hsys |].
  split.
  { apply Forall_forall. intros x Hx. apply in_map_iff in Hx.
    destruct Hx as (m & <- & _).
    destruct (history_message_role m) as [(-> & _) | (-> & _)]; [now left | now right]. }
  split; [exact Husers |].
  split.
  { rewrite Husers. unfold last_user_content.
    generalize (filter (fun m => String.eqb (row_role m) "user") history). intro us.
    induction us as [| u rest IH] using rev_ind; [reflexivity |].
    rewrite map_app, rev_app_distr. cbn [map rev app].
    now rewrite last_last. }
  intros i m Hi. split.
  - cbn [nth_error]. now rewrite nth_error_map, Hi.
  - intro Hr. unfold history_message. now rewrite Hr.
Qed.

(** ** Storing a turn *)

(** X17: [POST /api/messages] answers 201, 400, 404 or 500. It writes at
    most once, and only a turn whose [sessionId], [role] and [content] are
    all truthy (so never an empty text), into the conversation the store
    found for that session, with the values of the body. A 400 reply is
    sent before the store is touched, a 404 reply after the one read and
    without a write, and a 201 reply carries the row the store returned for
    the write. *)
Theorem postMessage_writes_valid_turns
    (db_get : JsVal -> Outcome JsVal)
    (db_add : JsVal -> JsVal -> JsVal -> JsVal -> Outcome JsVal) (body : JsVal) :
  let r := fst (postMessage db_get db_add body) in
  let calls := snd (postMessage db_get db_add body) in
  (res_status r = 201 \/ res_status r = 400 \/ res_status r = 404 \/
   res_status r = 500) /\
  (length (filter is_write calls) <= 1)%nat /\
  (forall conversationId role content metadata,
     In (CallAddMessage conversationId role content metadata) calls ->
     exists sessionId conversation,
       get body "sessionId" = Ret sessionId /\ get body "role" = Ret role /\
       get body "content" = Ret content /\ get body "metadata" = Ret metadata /\
       truthy sessionId = true /\ truthy role = true /\ truthy content = true /\
       content <> JStr "" /\
       db_get sessionId = Ret conversation /\ truthy conversation = true /\
       get conversation "id" = Ret conversationId /\
       calls = (CallGetConversation sessionId
                  :: CallAddMessage conversationId role content metadata
                  :: skipn 2 calls)%list) /\
  (res_status r = 400 -> calls = []) /\
  (res_status r = 404 ->
     exists sessionId, calls = [CallGetConversation sessionId] /\
                       get body "sessionId" = Ret sessionId) /\
  (res_status r = 201 ->
     exists sessionId conversationId role content metadata,
       calls = [ CallGetConversation sessionId;
                 CallAddMessage conversationId role content metadata ] /\
       db_add conversationId role content metadata = Ret (res_body r)).
Proof.
  cbv zeta. unfold postMessage, save_failed.
  destruct (get body "sessionId") as [sessionId | e] eqn:Hs; cbn [bindO];
    [| cbn; repeat split; intros; try discriminate; try lia; try tauto;
       try (now right; right; right);
       match goal with H : _ \/ _ |- _ => destruct H as [H | []]; discriminate H end].
  destruct (get body "role") as [role | e] eqn:Hr; cbn [bindO];
    [| cbn; repeat split; intros; try discriminate; try lia; try tauto;
       try (now right; right; right);
       match goal with H : _ \/ _ |- _ => destruct H as [H | []]; discriminate H end].
  destruct (get body "content") as [content | e] eqn:Hc; cbn [bindO];
    [| cbn; repeat split; intros; try discriminate; try lia; try tauto;
       try (now right; right; right);
       match goal with H : _ \/ _ |- _ => destruct H as [H | []]; discriminate H end].
  destruct (get body "metadata") as [metadata | e] eqn:Hm; cbn [bindO];
    [| cbn; repeat split; intros; try discriminate; try lia; try tauto;
       try (now right; right; right);
       match goal with H : _ \/ _ |- _ => destruct H as [H | []]; discriminate H end].
  destruct (truthy sessionId) eqn:Ts; cbn [negb orb];
    [| cbn; repeat split; intros; try discriminate; try lia; try tauto;
       try (now right; left)].
  destruct (truthy role) eqn:Tr; cbn [negb orb];
    [| cbn; repeat split; intros; try discriminate; try lia; try tauto;
       try (now right; left)].
  destruct (truthy content) eqn:Tc; cbn [negb orb];
    [| cbn; repeat split; intros; try discriminate; try lia; try tauto;
       try (now right; left)].
  assert (Hne : content <> JStr "") by (intros ->; discriminate Tc).
  destruct (db_get sessionId) as [conversation | e] eqn:Hg.
  2:{ cbn; repeat split; intros; try discriminate; try lia;
        try (now right; right; right).
      match goal with H : _ \/ _ |- _ => destruct H as [H | [H | []]]; discriminate H end. }
  destruct (truthy conversation) eqn:Tv; cbn [negb].
  2:{ cbn; repeat split; intros; try discriminate; try lia;
        try (now right; right; left).
      - match goal with H : _ \/ _ |- _ => destruct H as [H | []]; discriminate H end.
      - now exists sessionId. }
  destruct (get conversation "id") as [conversationId | e] eqn:Hi.
  2:{ cbn; repeat split; intros; try discriminate; try lia;
        try (now right; right; right).
      match goal with H : _ \/ _ |- _ => destruct H as [H | [H | []]]; discriminate H end. }
  assert (Hwrite : forall rest c ro ct md,
    In (CallAddMessage c ro ct md)
       (CallGetConversation sessionId
          :: CallAddMessage conversationId role content metadata :: rest) ->
    (forall x, In x rest -> is_write x = false) ->
    exists sessionId' conversation',
       Ret sessionId = Ret sessionId' /\ Ret role = Ret ro /\
       Ret content = Ret ct /\ Ret metadata = Ret md /\
       truthy sessionId' = true /\ truthy ro = true /\ truthy ct = true /\
       ct <> JStr "" /\
       db_get sessionId' = Ret conversation' /\ truthy conversation' = true /\
       get conversation' "id" = Ret c /\
       (CallGetConversation sessionId
          :: CallAddMessage conversationId role content metadata :: rest)%list =
       (CallGetConversation sessionId'
          :: CallAddMessage c ro ct md
          :: skipn 2 (CallGetConversation sessionId
                        :: CallAddMessage conversationId role content metadata
                        :: rest))%list).
  { intros rest c ro ct md [H | [H | H]] Hrest; [discriminate H | |].
    - injection H as <- <- <- <-. exists sessionId, conversation. now repeat split.
    - specialize (Hrest _ H). discriminate Hrest. }
  destruct (db_add conversationId role content metadata) as [message | e] eqn:Ha.
  - cbn [fst snd res_status filter is_write length].
    split; [now left |]. split; [lia |].
    split; [intros c ro ct md Hin; apply (Hwrite [] c ro ct md Hin); intros x [] |].
    split; [discriminate |]. split; [discriminate |].
    intros _. exists sessionId, conversationId, role, content, metadata.
    now split.
  - cbn [fst snd res_status filter is_write length app status_json].
    split; [now right; right; right |]. split; [lia |].
    split.
    + intros c ro ct md Hin. apply (Hwrite _ c ro ct md Hin).
      intros x [<- | []]. reflexivity.
    + repeat split; discriminate.
Qed.

(** ** The client's attachments *)

Lemma collect_attachments_spec (items : list JsVal) (index : Z) :
  Forall (fun a =>
            index < att_id a <= index + Z.of_nat (length items) /\
            composed a /\
            exists members,
              nth_error items (Z.to_nat (att_id a - index - 1)) = Some (JObj members) /\
              own_property members "name" = Some (JStr (att_name a)))
         (collect_attachments index items).
Proof.
  revert index. induction items as [| item rest IH]; intro index; [constructor |].
  assert (Hrest :
    Forall (fun a =>
              index < att_id a <= index + Z.of_nat (length (item :: rest)) /\
              composed a /\
              exists members,
                nth_error (item :: rest) (Z.to_nat (att_id a - index - 1))
                  = Some (JObj members) /\
                own_property members "name" = Some (JStr (att_name a)))
           (collect_attachments (index + 1) rest)).
  { eapply Forall_impl; [| exact (IH (index + 1))].
    intros a (Hid & Hc & members & Hnth & Hname). cbn [length].
    split; [lia |]. split; [exact Hc |]. exists members. split; [| exact Hname].
    replace (Z.to_nat (att_id a - index - 1))
      with (S (Z.to_nat (att_id a - (index + 1) - 1))) by lia.
    exact Hnth. }
  cbn [collect_attachments].
  destruct item as [| | b | m e | s | elements | members]; try exact Hrest.
  destruct (own_property members "name") as [[| | b | m e | name | elements | inner] |] eqn:Hn;
    try exact Hrest.
  destruct (String.eqb name "") eqn:Hempty; [exact Hrest |].
  constructor; [| exact Hrest].
  cbn [att_id att_name att_type length]. split; [lia |]. split.
  - split; [now apply String.eqb_neq |].
    destruct (is_str _ "image"); [now left | now right].
  - exists members. replace (Z.to_nat (index + 1 - index - 1)) with 0%nat by lia.
    now split.
Qed.

Lemma collect_attachments_sorted (items : list JsVal) (index : Z) :
  StronglySorted Z.lt (map att_id (collect_attachments index items)).
Proof.
  revert index. induction items as [| item rest IH]; intro index; [constructor |].
  cbn [collect_attachments].
  destruct item as [| | b | m e | s | elements | members]; try exact (IH (index + 1)).
  destruct (String.eqb _ ""); [exact (IH (index + 1)) |].
  cbn [map att_id]. constructor; [exact (IH (index + 1)) |].
  apply Forall_map. eapply Forall_impl; [| exact (collect_attachments_spec rest (index + 1))].
  intros a (Hid & _). lia.
Qed.

Lemma collect_attachments_length (items : list JsVal) (index : Z) :
  (length (collect_attachments index items) <= length items)%nat.
Proof.
  revert index. induction items as [| item rest IH]; intro index; [constructor |].
  cbn [collect_attachments length]. specialize (IH (index + 1)).
  destruct item as [| | b | m e | s | elements | members]; try lia.
  destruct (String.eqb _ ""); cbn [length]; lia.
Qed.

(** X18: whatever metadata a stored message carries, the attachments the
    chat screen shows for it are well formed: each has a name, the type
    [image] or [file], and as id the position (from 1) of the record of
    [metadata.attachments] it was read from, whose [name] it bears; ids
    grow strictly, so none is shown twice; and metadata without an array of
    attachments shows none. *)
Theorem mapMetadataAttachments_invariant (metadata : JsVal) :
  let shown := mapMetadataAttachments metadata in
  Forall composed shown /\
  StronglySorted Z.lt (map att_id shown) /\
  (forall members items,
     metadata = JObj members ->
     own_property members "attachments" = Some (JArr items) ->
     (length shown <= length items)%nat /\
     Forall (fun a =>
               1 <= att_id a <= Z.of_nat (length items) /\
               exists item,
                 nth_error items (Z.to_nat (att_id a - 1)) = Some (JObj item) /\
                 own_property item "name" = Some (JStr (att_name a)))
            shown) /\
  ((forall members items,
      metadata = JObj members ->
      own_property members "attachments" <> Some (JArr items)) ->
   shown = []).
Proof.
  cbv zeta. unfold mapMetadataAttachments.
  destruct metadata as [| | b | m e | s | elements | members];
    try (cbn; repeat split; intros; try constructor; discriminate);
    try (destruct (negb _); cbn; repeat split; intros; try constructor; discriminate).
  cbn [truthy negb].
  destruct (own_property members "attachments")
    as [[| | b | m e | s | items | inner] |] eqn:Ha;
    try (repeat split; intros; try constructor;
         match goal with H : JObj _ = JObj _ |- _ => injection H as <- end;
         congruence).
  split; [| split; [| split]].
  - eapply Forall_impl; [| exact (collect_attachments_spec items 0)].
    now intros a (_ & Hc & _).
  - apply collect_attachments_sorted.
  - intros members' items' [= <-] Hitems. rewrite Ha in Hitems.
    injection Hitems as <-. split; [apply collect_attachments_length |].
    eapply Forall_impl; [| exact (collect_attachments_spec items 0)].
    intros a (Hid & _ & item & Hnth & Hname). split; [lia |].
    exists item. split; [| exact Hname].
    replace (att_id a - 1) with (att_id a - 0 - 1) by lia. exact Hnth.
  - intro Hnone. now elim (Hnone members items eq_refl).
Qed.

Lemma collect_composed (files : list Attachment) (index : Z) :
  Forall composed files ->
  collect_attachments index (attachmentsMetadata files) =
    map (fun p => mkAttachment (fst p) (att_type (snd p)) (att_name (snd p)) None)
        (combine (ids_from index (length files)) files).
Proof.
  intro Hall. revert index. induction Hall as [| file rest [Hname Htype] _ IH]; intro index;
    [reflexivity |].
  cbn [attachmentsMetadata map collect_attachments own_property].
  change (String.eqb "type" "name") with false.
  change (String.eqb "name" "name") with true.
  change (String.eqb "type" "type") with true.
  change (String.eqb "name" "type") with false.
  change (String.eqb "type" "src") with false.
  change (String.eqb "name" "src") with false.
  cbv iota. apply String.eqb_neq in Hname. rewrite Hname.
  cbn [length ids_from combine map fst snd]. f_equal.
  - f_equal. destruct Htype as [-> | ->]; reflexivity.
  - exact (IH (index + 1)).
Qed.

Lemma renumbered (files : list Attachment) (index : Z) :
  let shown :=
    map (fun p => mkAttachment (fst p) (att_type (snd p)) (att_name (snd p)) None)
        (combine (ids_from index (length files)) files) in
  map att_name shown = map att_name files /\
  map att_type shown = map att_type files /\
  map att_id shown = ids_from index (length files) /\
  Forall (fun a => att_src a = None) shown /\
  length shown = length files.
Proof.
  cbv zeta. revert index. induction files as [| file rest IH]; intro index.
  - cbn. repeat split; constructor.
  - destruct (IH (index + 1)) as (H1 & H2 & H3 & H4 & H5).
    cbn [length ids_from combine map fst snd att_name att_type att_id].
    rewrite H1, H2, H3, H5. repeat split. constructor; [reflexivity | exact H4].
Qed.

Lemma collect_drops (items : list JsVal) (index : Z) (members : list (string * JsVal)) :
  In (JObj members) items ->
  own_property members "name" = Some (JStr "") ->
  (length (collect_attachments index items) < length items)%nat.
Proof.
  revert index. induction items as [| item rest IH]; [intros index [] |].
  intros index [-> | Hin] Hname.
  - cbn [collect_attachments length]. rewrite Hname. cbn.
    pose proof (collect_attachments_length rest (index + 1)). lia.
  - pose proof (collect_attachments_length (item :: rest) index) as Hle.
    specialize (IH (index + 1) Hin Hname).
    cbn [collect_attachments length] in Hle |- *.
    destruct item as [| | b | m e | s | elements | ms]; try lia.
    destruct (String.eqb _ ""); cbn [length] in *; lia.
Qed.

(** X19: attachments survive the round trip through a stored turn. When
    every attachment of the composer has a name and one of the two types,
    reading back the metadata that [sendMessage] stores gives as many
    attachments, with the same names and types in the same order, numbered
    from 1 and without their [src]; the bubble shows attachments exactly
    when some were sent. An attachment whose name is empty is lost on the
    way. *)
Theorem attachments_round_trip (files : list Attachment) (source : string) :
  let shown := mapMetadataAttachments (turn_metadata files source) in
  (Forall composed files ->
   map att_name shown = map att_name files /\
   map att_type shown = map att_type files /\
   map att_id shown = ids_from 0 (length files) /\
   Forall (fun a => att_src a = None) shown /\
   (ui_attachments (turn_metadata files source) = None <-> files = [])) /\
  ((exists file, In file files /\ att_name file = "") ->
   (length shown < length files)%nat).
Proof.
  cbv zeta. unfold ui_attachments, mapMetadataAttachments, turn_metadata.
  cbn [truthy negb own_property].
  change (String.eqb "source" "attachments") with false.
  change (String.eqb "attachments" "attachments") with true. cbv iota.
  split.
  - intro Hall. rewrite (collect_composed files 0 Hall).
    destruct (renumbered files 0) as (H1 & H2 & H3 & H4 & H5).
    repeat (split; [assumption |]).
    rewrite H5.
    destruct files as [| f rest]; cbn [length]; split; intro H;
      try reflexivity; discriminate H.
  - intros (file & Hin & Hname).
    rewrite <- (length_map (fun file => JObj [ ("type", JStr (att_type file));
                                             ("name", JStr (att_name file)) ]) files).
    apply (collect_drops _ 0 [ ("type", JStr (att_type file));
                               ("name", JStr (att_name file)) ]).
    + unfold attachmentsMetadata.
      exact (in_map (fun file => JObj [ ("type", JStr (att_type file));
                                        ("name", JStr (att_name file)) ]) files file Hin).
    + cbn. now rewrite Hname.
Qed.

(** X20: the chat screen and the decision call agree on who spoke. For
    every role the schema admits, a stored turn is shown as the user's
    exactly when it is sent to the model as the user's; a turn shown as the
    assistant's is sent unchanged as the assistant's, and a turn shown as a
    system note is sent as an assistant message marked [[SYSTEM NOTE]]. *)
Theorem roles_agree (stored text : string) :
  stored = "user" \/ stored = "assistant" \/ stored = "system" ->
  let sent := history_message (mkRow stored text) in
  (ui_role (JStr stored) = "user" <-> role sent = "user") /\
  (ui_role (JStr stored) = "user" -> sent = mkMsg "user" text) /\
  (ui_role (JStr stored) = "ai" -> sent = mkMsg "assistant" text) /\
  (ui_role (JStr stored) = "system" ->
   sent = mkMsg "assistant" ("[SYSTEM NOTE]" ++ NL ++ text)).
Proof.
  intros [-> | [-> | ->]]; cbv zeta; unfold ui_role, history_message;
    cbn [is_str row_role row_content role];
    repeat split; intros; try reflexivity; discriminate.
Qed.

(** ** What the agent endpoint gives the client to show *)

Lemma emits_ensures {A : Type} (m : M A) (P : Outcome A -> list Event -> Prop) :
  emits m P -> ensures m (fun a => exists evs, P (Ret a) evs).
Proof.
  intros H tr. destruct (H tr) as (evs & _ & HP).
  destruct (fst (m tr)); [now exists evs | exact I].
Qed.

Lemma js_or_fallback (a : JsVal) (s : string) :
  s <> "" -> truthy (js_or a (JStr s)) = true.
Proof.
  intro Hs. apply js_or_truthy. cbn. now apply String.eqb_neq in Hs as ->.
Qed.

Section Showable.
Context {fmt : NumberFormat}.
Variable cfg : Config.
Variable env : ProcessEnv.
Variable w : World.

Lemma actOnDecision_showable (body : JsVal) (history : list MessageRow)
    (raw : string) :
  ensures (actOnDecision cfg env w body history raw) showable.
Proof.
  unfold actOnDecision.
  apply ensures_bind with (Q := fun _ => True); [apply ensures_any |].
  intros action _.
  destruct (_ || _).
  { apply ensures_ret. split; [intros _ | intro H; now elim H].
    split; [now eexists |]. split; [reflexivity |]. left.
    split; [reflexivity |]. split; [| reflexivity].
    now apply js_or_fallback. }
  destruct (is_str action "respond").
  { apply ensures_bind with (Q := fun _ => True); [apply ensures_any |].
    intros text _. apply ensures_ret. split; [intros _ | intro H; now elim H].
    split; [now eexists |]. split; [reflexivity |]. left.
    split; [reflexivity |]. split; [| reflexivity].
    now apply js_or_fallback. }
  destruct (negb _).
  { apply ensures_ret. split; [intros _ | intro H; now elim H].
    split; [now eexists |]. split; [reflexivity |]. left.
    split; [reflexivity |]. split; [| reflexivity].
    now apply js_or_fallback. }
  apply ensures_bind with (Q := fun _ => True); [apply ensures_any |].
  intros skillId _.
  apply ensures_bind with (Q := fun _ => True); [apply ensures_any |].
  intros key _.
  destruct (skills_get key) as [skill |].
  2:{ apply ensures_ret. split; [discriminate | intros _].
      split; [reflexivity |]. eexists. split; [reflexivity |]. discriminate. }
  eapply ensures_bind; [exact (emits_ensures _ _ (route_and_run_emits cfg env w body skill)) |].
  cbv beta. intros [reply | [sshConfig execution]] (evs & Hrouted).
  { apply ensures_ret. destruct Hrouted as (_ & -> & _).
    split; [discriminate | intros _]. split; [reflexivity |].
    eexists. split; [reflexivity |]. discriminate. }
  apply ensures_bind with (Q := fun _ => True); [apply ensures_any |].
  intros summarizeUser _.
  apply ensures_bind with (Q := fun _ => True); [apply ensures_any |].
  intros summary _. apply ensures_ret. split; [intros _ | intro H; now elim H].
  split; [now eexists |]. split; [reflexivity |]. right.
  split; [reflexivity |]. split; [now eexists |].
  eexists _, _, _. split; [reflexivity |]. split; reflexivity.
Qed.

(** X21: the agent endpoint never throws and always gives the client
    something to show. A 200 reply echoes the raw decision and is either a
    [respond] reply, whose [assistant] is never empty, or a [run_skill]
    reply, whose [assistant] is a text and whose [tool] reports the
    execution with a boolean [success]; a reply of any other status carries
    a non-empty [error] text and no [assistant]. *)
Theorem brainAgent_reply_is_showable (body : JsVal) :
  returns (brainAgent cfg env w body) showable.
Proof.
  unfold brainAgent. apply returns_try_catch.
  - apply ensures_bind with (Q := fun _ => True); [apply ensures_any |].
    intros sessionId _. destruct (negb (truthy sessionId)).
    { apply ensures_ret. split; [discriminate | intros _]. split; [reflexivity |].
      eexists. split; [reflexivity |]. discriminate. }
    apply ensures_bind with (Q := fun _ => True); [apply ensures_any |]. intros _ _.
    apply ensures_bind with (Q := fun _ => True); [apply ensures_any |].
    intros conversation _. destruct (negb (truthy conversation)).
    { apply ensures_ret. split; [discriminate | intros _]. split; [reflexivity |].
      eexists. split; [reflexivity |]. discriminate. }
    apply ensures_bind with (Q := fun _ => True); [apply ensures_any |].
    intros conversationId _.
    apply ensures_bind with (Q := fun _ => True); [apply ensures_any |]. intros _ _.
    apply ensures_bind with (Q := fun _ => True); [apply ensures_any |].
    intros history _.
    apply ensures_bind with (Q := fun _ => True); [apply ensures_any |].
    intros reqModel _.
    apply ensures_bind with (Q := fun _ => True); [apply ensures_any |].
    intros reqOptions _.
    apply ensures_bind with (Q := fun _ => True); [apply ensures_any |].
    intros decisionRaw _.
    apply actOnDecision_showable.
  - intros e tr. unfold bind, emit, ret. eexists _, _. split; [reflexivity |].
    split; [discriminate | intros _]. split; [reflexivity |].
    eexists. split; [reflexivity |]. discriminate.
Qed.

End Showable.

(** ** The properties at work *)


Lemma brainAgent_validation_witness :
  brainAgent (sample_cfg "auto" false) sample_env
    (sample_world unreachable command_not_found) (JObj []) [] =
  (Ret (status_json 400 [("error", JStr "sessionId is required")]), []).
Proof.
  exact (proj1 (brainAgent_validation (sample_cfg "auto" false) sample_env
                  (sample_world unreachable command_not_found) (JObj []) [])
           JUndefined eq_refl eq_refl).
Defined.

Lemma runSkill_missing_password_witness :
  runSkill (sample_cfg "ssh" false) no_password_env
    (sample_world unreachable command_not_found) "health-check" sample_body [] =
  (Ret (status_json 400 [("error", JStr missing_password)]), []).
Proof.
  refine (proj1 (runSkill_missing_password (sample_cfg "ssh" false) no_password_env
                   (sample_world unreachable command_not_found) "health-check"
                   (mkRef (JStr "System Health Check") (JStr health_check_command))
                   sample_body [] eq_refl) _).
  exists (server_target no_password_env). repeat split.
Defined.

Lemma execution_mode_is_forced_witness :
  (exists r evs,
     brainAgent (sample_cfg "local" true) sample_env
       (sample_world (replies reply_health_check) command_not_found)
       client_target [] = (Ret r, ([] ++ evs)%list) /\
     Forall local_only evs) /\
  (forall skillId,
     exists r evs,
       runSkill (sample_cfg "local" true) sample_env
         (sample_world (replies reply_health_check) command_not_found)
         skillId client_target [] = (Ret r, ([] ++ evs)%list) /\
       Forall local_only evs /\ res_status r <> 400).
Proof.
  exact (proj1 (execution_mode_is_forced (sample_cfg "local" true) sample_env
                  (sample_world (replies reply_health_check) command_not_found)
                  client_target []) eq_refl).
Defined.

Lemma runSkill_reports_result_witness :
  exists b,
    field rejected_reply "success" = JBool b /\
    (b = true <-> field rejected_reply "exitCode" = JNum 0 0) /\
    (exists s, field rejected_reply "stdout" = JStr s) /\
    (exists s, field rejected_reply "stderr" = JStr s) /\
    (b = true -> field rejected_reply "error" = JNull).
Proof.
  refine (runSkill_reports_result (sample_cfg "local" false) sample_env
            (sample_world unreachable command_not_found) "health-check" sample_body
            [] (snd rejected_run) rejected_reply sample_rejects_nonzero _ _).
  - vm_compute. reflexivity.
  - reflexivity.
Defined.

Lemma runSkill_local_round_trip_witness :
  let cfg := sample_cfg "local" false in
  let w := sample_world unreachable (ExecResolved "ok" "") in
  let sk := mkSkill "System Health Check" health_check_command in
  exists r fevs,
    runSkill cfg sample_env w "health-check" sample_body [] =
      (Ret r,
       ([] ++ [ EvRunLocally (JStr (command sk));
                EvExecFile "bash" [JStr "-lc"; JStr (command sk)]
                           (local_options sample_env) ]
           ++ fevs)%list) /\
    (fevs = [] \/ exists url req, fevs = [EvFetch url req]) /\
    res_status r = 200 /\
    field r "skillId" = JStr "health-check" /\
    field r "title" = JStr (title sk) /\
    field r "host" = host (server_target sample_env) /\
    field r "success" =
      JBool (success (settle "Unknown local execution error"
                        (execFileAsync w "bash" [JStr "-lc"; JStr (command sk)]
                           (local_options sample_env)))).
Proof.
  exact (runSkill_local_round_trip (sample_cfg "local" false) sample_env
           (sample_world unreachable (ExecResolved "ok" "")) "health-check"
           (mkSkill "System Health Check" health_check_command)
           (server_target sample_env) sample_body [] eq_refl eq_refl eq_refl).
Defined.

Lemma listed_skills_are_served_witness :
  includes ("- " ++ "repo-sync" ++ ": " ++ "Sync GitHub Repo") system = true /\
  In "repo-sync" published_ids /\
  exists r evs,
    runSkill (sample_cfg "local" false) sample_env
      (sample_world unreachable (ExecResolved "ok" "")) "repo-sync" sample_body [] =
      (Ret r, ([] ++ evs)%list) /\
    res_status r <> 404 /\
    (res_status r = 200 ->
     field r "skillId" = JStr "repo-sync" /\ field r "title" = JStr "Sync GitHub Repo").
Proof.
  refine (listed_skills_are_served (sample_cfg "local" false) sample_env
            (sample_world unreachable (ExecResolved "ok" "")) "repo-sync"
            "Sync GitHub Repo" sample_body [] _).
  eexists. split; [reflexivity |]. cbn. tauto.
Defined.

Lemma attachments_round_trip_witness :
  let shown := mapMetadataAttachments (turn_metadata sample_files "manual") in
  map att_name shown = ["cat.png"; "notes.txt"] /\
  map att_type shown = ["image"; "file"] /\
  map att_id shown = [1; 2] /\
  Forall (fun a => att_src a = None) shown /\
  (ui_attachments (turn_metadata sample_files "manual") = None <-> sample_files = []).
Proof.
  refine (proj1 (attachments_round_trip sample_files "manual") _).
  repeat constructor; discriminate.
Defined.

Lemma roles_agree_witness :
  let sent := history_message (mkRow "system" "maintenance at noon") in
  (ui_role (JStr "system") = "user" <-> role sent = "user") /\
  (ui_role (JStr "system") = "user" -> sent = mkMsg "user" "maintenance at noon") /\
  (ui_role (JStr "system") = "ai" -> sent = mkMsg "assistant" "maintenance at noon") /\
  (ui_role (JStr "system") = "system" ->
   sent = mkMsg "assistant" ("[SYSTEM NOTE]" ++ NL ++ "maintenance at noon")).
Proof.
  exact (roles_agree "system" "maintenance at noon" (or_intror (or_intror eq_refl))).
Defined.
